(** * Antrea agent: container attach/detach pipeline

    A shallow embedding of the CNI request server (package [cniserver]),
    of the OVSDB bridge client (package [ovsconfig]) and of the interface
    store, followed by the properties established about them.

    Part I holds the definitions, Part II the theorems. *)

From stdpp Require Import gmap strings list fin_maps.
From Stdlib Require Import ZArith DecimalString Ascii.

Local Open Scope Z_scope.
Local Open Scope string_scope.
Local Open Scope list_scope.

(* ===================================================================== *)
(** * Part I: definitions                                                 *)
(* ===================================================================== *)

(* --------------------------------------------------------------------- *)
(** ** containerAccessArbitrator (cniserver, server.go)                   *)
(* --------------------------------------------------------------------- *)

Module Arbitrator.

(** Where a goroutine stands with respect to the arbitrator.  A handler
    (CmdAdd, CmdDel, CmdCheck) holds at most one container at a time. *)
Inductive goroutine :=
  | Running                          (* outside lockContainer, holding nothing *)
  | Parked (containerID : string)    (* inside lockContainer, blocked in cond.Wait() *)
  | Woken (containerID : string)     (* released by Broadcast, mutex not yet re-taken *)
  | Holder (containerID : string).   (* lockContainer has returned, unlockContainer not yet called *)

#[global] Instance goroutine_eq_dec : EqDecision goroutine.
Proof. solve_decision. Defined.

(** [busyContainerIDs] is the Go [map[string]bool] "used as a set of
    container IDs".  [mutex] and [cond] do not appear as fields: every step
    below is one critical section of [mutex], and a goroutine inside
    [cond.Wait()] is [Parked] until a [Broadcast] makes it [Woken]. *)
Record arbitrator := mkArbitrator {
  busyContainerIDs : gset string;
  goroutines : gmap nat goroutine
}.

Definition newContainerAccessArbitrator : arbitrator :=
  {| busyContainerIDs := ∅; goroutines := ∅ |}.

Definition status (a : arbitrator) (g : nat) : goroutine :=
  default Running (goroutines a !! g).

(** One pass through the [for] loop of lockContainer, with the mutex held:
    [_, ok := busyContainerIDs[containerID]]; when [!ok] the loop is left
    and the id inserted, otherwise the goroutine enters [cond.Wait()]. *)
Definition loopTest (g : nat) (containerID : string) (a : arbitrator) : arbitrator :=
  if decide (containerID ∈ busyContainerIDs a)
  then {| busyContainerIDs := busyContainerIDs a;
          goroutines := <[g := Parked containerID]> (goroutines a) |}
  else {| busyContainerIDs := {[containerID]} ∪ busyContainerIDs a;
          goroutines := <[g := Holder containerID]> (goroutines a) |}.

(** [cond.Broadcast()]: every goroutine blocked in [Wait] is woken. *)
Definition wake (st : goroutine) : goroutine :=
  match st with
  | Parked containerID => Woken containerID
  | _ => st
  end.

Definition Broadcast (gs : gmap nat goroutine) : gmap nat goroutine :=
  wake <$> gs.

(** What the goroutines do to the arbitrator and, while they are at it, to
    the interface store. *)
Inductive call :=
  | lockContainer (g : nat) (containerID : string)
      (* g enters lockContainer and runs the loop test for the first time *)
  | resume (g : nat)
      (* g returns from cond.Wait() with the mutex and runs the loop test again *)
  | unlockContainer (g : nat) (containerID : string)
  | useStore (g : nat) (containerID : string).
      (* g reads or writes the interface store on behalf of containerID *)

(** The effect of a call; [None] when the goroutine cannot make it (it is
    blocked, or it is not waiting for anything). *)
Definition step (c : call) (a : arbitrator) : option arbitrator :=
  match c with
  | lockContainer g containerID =>
      match status a g with
      | Running => Some (loopTest g containerID a)
      | _ => None
      end
  | resume g =>
      match status a g with
      | Woken containerID => Some (loopTest g containerID a)
      | _ => None
      end
  | unlockContainer g containerID =>
      match status a g with
      | Running =>
          Some {| busyContainerIDs := busyContainerIDs a ∖ {[containerID]};
                  goroutines := Broadcast (goroutines a) |}
      | Holder held =>
          Some {| busyContainerIDs := busyContainerIDs a ∖ {[containerID]};
                  goroutines :=
                    Broadcast (if decide (held = containerID)
                               then <[g := Running]> (goroutines a)
                               else goroutines a) |}
      | _ => None
      end
  | useStore g _ =>
      match status a g with
      | Running | Holder _ => Some a
      | _ => None
      end
  end.

Fixpoint run (cs : list call) (a : arbitrator) : option arbitrator :=
  match cs with
  | [] => Some a
  | c :: cs' =>
      match step c a with
      | Some a' => run cs' a'
      | None => None
      end
  end.

(** The discipline the handlers follow: "Every call to lockContainer must be
    followed by a call to unlockContainer on the same containerID", issued by
    the goroutine that locked (a [defer] right after the lock), and the store
    is used between the two only. *)
Definition obeys (c : call) (a : arbitrator) : bool :=
  match c with
  | unlockContainer g containerID => bool_decide (status a g = Holder containerID)
  | useStore g containerID => bool_decide (status a g = Holder containerID)
  | _ => true
  end.

Fixpoint disciplined (cs : list call) (a : arbitrator) : bool :=
  match cs with
  | [] => true
  | c :: cs' =>
      obeys c a &&
      match step c a with
      | Some a' => disciplined cs' a'
      | None => true
      end
  end.

(** [g] holds [containerID]. *)
Definition holds (a : arbitrator) (g : nat) (containerID : string) : Prop :=
  status a g = Holder containerID.

(** The state invariant behind mutual exclusion: a held id is in the busy
    set, and no id has two holders. *)
Definition exclusive (a : arbitrator) : Prop :=
  (∀ g id, holds a g id → id ∈ busyContainerIDs a) ∧
  (∀ g g' id, holds a g id → holds a g' id → g = g').

(** Who holds [id], as the serial log sees it. *)
Definition holderIs (a : arbitrator) (id : string) (h : option nat) : Prop :=
  match h with
  | Some g => holds a g id
  | None => ∀ g, ¬ holds a g id
  end.

(** The lock-held sections of one container id along a run: [(true, g)]
    when lockContainer returns to [g], [(false, g)] when [g] unlocks. *)
Definition sectionEvent (containerID : string) (c : call) (a : arbitrator) : list (bool * nat) :=
  match c with
  | lockContainer g id' =>
      if decide (id' = containerID ∧ containerID ∉ busyContainerIDs a) then [(true, g)] else []
  | resume g =>
      if decide (status a g = Woken containerID ∧ containerID ∉ busyContainerIDs a)
      then [(true, g)] else []
  | unlockContainer g id' =>
      if decide (id' = containerID) then [(false, g)] else []
  | useStore _ _ => []
  end.

Fixpoint sections (containerID : string) (cs : list call) (a : arbitrator) : list (bool * nat) :=
  match cs with
  | [] => []
  | c :: cs' =>
      sectionEvent containerID c a ++
      match step c a with
      | Some a' => sections containerID cs' a'
      | None => []
      end
  end.

(** A log of sections is serial when each section is closed, by the
    goroutine that opened it, before the next one opens. *)
Fixpoint serial (holder : option nat) (log : list (bool * nat)) : bool :=
  match log with
  | [] => true
  | (true, g) :: log' =>
      match holder with
      | None => serial (Some g) log'
      | Some _ => false
      end
  | (false, g) :: log' =>
      match holder with
      | Some h => bool_decide (h = g) && serial None log'
      | None => false
      end
  end.

(** Order of arrival at the arbitrator and order of completion, per id. *)
Definition arrivals (containerID : string) (cs : list call) : list nat :=
  omap (λ c, match c with
             | lockContainer g id' => if decide (id' = containerID) then Some g else None
             | _ => None
             end) cs.

Definition completions (containerID : string) (cs : list call) : list nat :=
  omap (λ c, match c with
             | unlockContainer g id' => if decide (id' = containerID) then Some g else None
             | _ => None
             end) cs.

(** Three requests for container "c": the first is served at once, the
    second and the third wait; after the first unlocks, the third is the one
    that re-takes the mutex first. *)
Definition overtaking : list call :=
  [ lockContainer 1 "c"; lockContainer 2 "c"; lockContainer 3 "c";
    unlockContainer 1 "c"; resume 3; resume 2; unlockContainer 3 "c";
    resume 2; unlockContainer 2 "c" ].

(** "Operations complete in their order of arrival": along every run of
    disciplined handlers, the goroutines that have finished with an id are
    the first of those that asked for it, in the same order. *)
Definition completeInArrivalOrder : Prop :=
  ∀ (cs : list call) (a : arbitrator) (containerID : string),
    run cs newContainerAccessArbitrator = Some a →
    disciplined cs newContainerAccessArbitrator = true →
    completions containerID cs `prefix_of` arrivals containerID cs.

(** A failed ADD for container "c", served by goroutine 1, and another
    request for "c", served by goroutine 2, which arrives while the ADD
    holds the container and wins it when the ADD unlocks after its attempt;
    the rollback of the ADD comes third. *)
Definition rollbackOvertaken : list call :=
  [ lockContainer 1 "c"; lockContainer 2 "c"; unlockContainer 1 "c";
    resume 2; lockContainer 1 "c"; unlockContainer 2 "c";
    resume 1; unlockContainer 1 "c" ].

(** Two requests for container "c" have arrived: goroutine 1 holds it,
    goroutine 2 waits. *)
Definition twoRequests : list call :=
  [ lockContainer 1 "c"; lockContainer 2 "c" ].

Definition oneHoldsOneWaits : arbitrator :=
  {| busyContainerIDs := {["c"]};
     goroutines := <[2%nat := Parked "c"]> (<[1%nat := Holder "c"]> ∅) |}.

End Arbitrator.

(* --------------------------------------------------------------------- *)
(** ** OVSDB bridge client (pkg/ovs/ovsconfig/ovs_client.go)              *)
(* --------------------------------------------------------------------- *)

Module OVSConfig.

(** The [Error] of package ovsconfig, as [NewTransactionError(err, temporary)]
    builds it: a message and whether the failure is temporary. *)
Record Error := NewTransactionError {
  message : string;
  Temporary : bool
}.

(** A column value as the OVSDB JSON encoding delivers it to Go: a string,
    a number (Go decodes it as float64), or one of the tagged arrays
    ["uuid", u], ["set", [...]], ["map", [[k, v], ...]], which Go sees as
    [[]interface{}]. *)
#[local] Unset Elimination Schemes.
Inductive datum :=
  | DString (s : string)
  | DNumber (n : Z)
  | DUUID (u : string)
  | DSet (elems : list datum)
  | DMap (pairs : list (string * string)).
#[local] Set Elimination Schemes.

(** A row, [map[string]interface{}]: column name to value. *)
Abbreviation row := (gmap string datum).

(** A clause of [Where]: column, function, value. *)
Inductive condition := Cond (column : string) (function : string) (value : datum).

(** The operations staged on a transaction by [tx.Wait] and [tx.Select]. *)
Inductive operation :=
  | Select (Table : string) (Columns : list string) (Where : list condition)
  | Wait (Table : string) (Timeout : Z) (Columns : list string) (Until : string)
         (Rows : list (list (string * datum))) (Where : list condition).

(** What [tx.Commit()] hands back: [res, err, temporary].  Each result of a
    select carries its [Rows]. *)
Inductive commitResult :=
  | CommitFailed (err : string) (temporary : bool)
  | Committed (res : list (list row)).

(** The bridge: [ovsdb] is the database behind the connection, seen as what
    it answers to a committed transaction. *)
Record OVSBridge := {
  ovsdb : list operation → commitResult;
  name : string;
  datapathType : string;
  uuid : string
}.

Record OVSPortData := {
  UUID : string;
  Name : string;
  ExternalIDs : gmap string string;
  IFName : string;
  OFPort : Z
}.

(** Go type assertions; [None] is the run-time panic of a failed assertion
    (or of a missing map entry asserted to a concrete type). *)
Definition assertString (d : option datum) : option string :=
  match d with
  | Some (DString s) => Some s
  | _ => None
  end.

(** [x.(float64)] in its two-valued form [v, ok := x.(float64)]. *)
Definition assertFloat64 (d : option datum) : option Z :=
  match d with
  | Some (DNumber n) => Some n
  | _ => None
  end.

(** [x.([]interface{})]: any of the tagged arrays. *)
Definition assertArray (d : option datum) : option datum :=
  match d with
  | Some (DUUID u) => Some (DUUID u)
  | Some (DSet l) => Some (DSet l)
  | Some (DMap m) => Some (DMap m)
  | _ => None
  end.

(** [x.([]interface{})[1].(string)]: the id inside ["uuid", id]. *)
Definition uuidOf (d : option datum) : option string :=
  match assertArray d with
  | Some (DUUID u) => Some u
  | _ => None
  end.

(** [helpers.MakeOVSDBSet(map[string]interface{}{})]: the empty set. *)
Definition emptyOVSDBSet : datum := DSet [].

(** buildMapFromOVSDBMap: when the tag is "map" the pairs are stored one
    after the other, a later pair overwriting an earlier one with the same
    key; any other tagged array gives the empty map. *)
Definition buildMapFromOVSDBMap (data : datum) : gmap string string :=
  match data with
  | DMap pairs => foldl (λ ret pair, <[pair.1 := pair.2]> ret) ∅ pairs
  | _ => ∅
  end.

(** buildPortDataCommon fills Name, ExternalIDs and OFPort of [portData];
    OFPort is 0 when ofport is not a number (not assigned by OVS yet).  The
    conversion [int32(ofPort)] is the identity on the port numbers OVS
    assigns. *)
Definition buildPortDataCommon (port intf : row) (portData : OVSPortData) : option OVSPortData :=
  portName ← assertString (port !! "name");
  extIDs ← assertArray (port !! "external_ids");
  Some {| UUID := UUID portData;
          Name := portName;
          ExternalIDs := buildMapFromOVSDBMap extIDs;
          IFName := IFName portData;
          OFPort := match assertFloat64 (intf !! "ofport") with
                    | Some ofPort => ofPort
                    | None => 0
                    end |}.

(** The transaction GetOFPort commits. *)
Definition GetOFPort_tx (ifName : string) : list operation :=
  [ Wait "Interface" 1000 ["ofport"] "!=" [[("ofport", emptyOVSDBSet)]]
         [Cond "name" "==" (DString ifName)];
    Select "Interface" ["ofport"] [Cond "name" "==" (DString ifName)] ].

(** GetOFPort.  The outer [option] is [None] when the Go code panics
    (an index out of range or a failed type assertion on the result). *)
Definition GetOFPort (br : OVSBridge) (ifName : string) : option (Z * option Error) :=
  match ovsdb br (GetOFPort_tx ifName) with
  | CommitFailed err temporary =>
      (* TODO: differentiate timeout error *)
      Some (0, Some (NewTransactionError err temporary))
  | Committed res =>
      rows ← res !! 1%nat;
      r ← rows !! 0%nat;
      ofport ← assertFloat64 (r !! "ofport");
      Some (ofport, None)
  end.

Section GetPortData.

(** [helpers.GetIdListFromOVSDBSet] of the OVSDB client library: the ids of
    a column holding a set of uuids ([None]: it panics). *)
Variable GetIdListFromOVSDBSet : datum → option (list string).

Definition GetPortData_tx (portUUID ifName : string) : list operation :=
  [ Select "Port" ["name"; "external_ids"; "interfaces"]
           [Cond "_uuid" "==" (DUUID portUUID)];
    Select "Interface" ["_uuid"; "ofport"] [Cond "name" "==" (DString ifName)] ].

(** GetPortData: [(nil, nil)], [(nil, err)] or [(&portData, nil)]; the outer
    [option] is [None] when the Go code panics. *)
Definition GetPortData (br : OVSBridge) (portUUID ifName : string)
  : option (option OVSPortData * option Error) :=
  match ovsdb br (GetPortData_tx portUUID ifName) with
  | CommitFailed err temporary =>
      Some (None, Some (NewTransactionError err temporary))
  | Committed res =>
      rows0 ← res !! 0%nat;
      if decide (length rows0 = 0%nat) then Some (None, None) else
      rows1 ← res !! 1%nat;
      if decide (length rows1 = 0%nat)
      then Some (None, Some (NewTransactionError "Interface not exists" false)) else
      port ← rows0 !! 0%nat;
      intf ← rows1 !! 0%nat;
      ifUUID ← uuidOf (intf !! "_uuid");
      ifaces ← assertArray (port !! "interfaces");
      ifUUIDList ← GetIdListFromOVSDBSet ifaces;
      if bool_decide (ifUUID ∈ ifUUIDList)
      then
        portData ← buildPortDataCommon port intf
          {| UUID := portUUID; Name := ""; ExternalIDs := ∅; IFName := ifName; OFPort := 0 |};
        Some (Some portData, None)
      else Some (None, Some (NewTransactionError "Interface is not attached to the port" false))
  end.

End GetPortData.

(** The id list of a uuid set as the OVSDB encoding has it: a lone
    ["uuid", id] or a ["set", [["uuid", id], ...]]. *)
Definition idListOfSet (data : datum) : option (list string) :=
  match data with
  | DUUID u => Some [u]
  | DSet elems => mapM (λ e, match e with DUUID u => Some u | _ => None end) elems
  | _ => None
  end.

(** A bridge whose database lets the ofport wait of GetOFPort time out and
    reports it, as OVSDB does, by failing the commit with "timed out". *)
Definition waitTimesOut : OVSBridge :=
  {| ovsdb := λ _, CommitFailed "timed out" true;
     name := "br-int"; datapathType := "system"; uuid := "" |}.

(** A bridge whose database answers every transaction with the given
    results. *)
Definition answering (res : list (list row)) : OVSBridge :=
  {| ovsdb := λ _, Committed res;
     name := "br-int"; datapathType := "system"; uuid := "" |}.

Definition portRow : row :=
  <["name" := DString "p1"]>
  (<["external_ids" := DMap [("pod-name", "pod1")]]>
  (<["interfaces" := DUUID "if-1"]> ∅)).

Definition intfRow (ifUUID : string) : row :=
  <["_uuid" := DUUID ifUUID]> (<["ofport" := DNumber 7]> ∅).

End OVSConfig.

(* --------------------------------------------------------------------- *)
(** ** Addresses and CNI results (Go net, CNI types as the server uses them) *)
(* --------------------------------------------------------------------- *)

Module Net.

(** An IPv4 address by its 32-bit value, most significant octet first (what
    [ipToInt] of the CNI plugins library computes); a nil [net.IP] is
    [None] where the code tests for it. *)
Abbreviation IP := Z.

Definition IPv4 (a b c d : Z) : IP :=
  Z.lor (Z.shiftl a 24) (Z.lor (Z.shiftl b 16) (Z.lor (Z.shiftl c 8) d)).

(** A network: an address and a CIDR mask, kept by its prefix length. *)
Record IPNet := {
  ip : IP;
  prefixLen : Z
}.

Definition maskBits (prefix : Z) : Z :=
  Z.shiftl (Z.ones prefix) (32 - prefix).

(** [ip.Mask(mask)]: octet-wise and. *)
Definition Mask (addr : IP) (prefix : Z) : IP :=
  Z.land addr (maskBits prefix).

(** [ip.NextIP] of the CNI plugins library: "NextIP returns IP incremented
    by 1", computed on big integers. *)
Definition NextIP (addr : IP) : IP := addr + 1.

Definition itoa (n : Z) : string :=
  NilZero.string_of_uint (N.to_uint (Z.to_N n)).

Definition octet (addr : IP) (i : Z) : Z :=
  Z.land (Z.shiftr addr (8 * i)) 255.

(** [IP.String()], dotted decimal. *)
Definition IP_String (addr : IP) : string :=
  itoa (octet addr 3) +:+ "." +:+ itoa (octet addr 2) +:+ "." +:+
  itoa (octet addr 1) +:+ "." +:+ itoa (octet addr 0).

(** [IPNet.String()]: address, slash, prefix length. *)
Definition IPNet_String (n : IPNet) : string :=
  IP_String (ip n) +:+ "/" +:+ itoa (prefixLen n).

End Net.

Module CNI.
Import Net.

(** [current.Interface], [current.IPConfig], [types.Route], [types.DNS] and
    [current.Result] of the CNI library. *)
Record Interface := {
  Name : string;
  Mac : string;
  Sandbox : string
}.

Record IPConfig := {
  Version : string;
  Interface_ : option Z;      (* Interface *int: index into Result.Interfaces *)
  Address : IPNet;
  Gateway : option IP         (* nil when the IPAM plugin gave none *)
}.

Record Route := {
  Dst : IPNet;
  GW : option IP
}.

Record DNS := {
  Nameservers : list string;
  Domain : string;
  Search : list string;
  Options : list string
}.

Record Result := {
  CNIVersion : string;
  Interfaces : list Interface;
  IPs : list IPConfig;        (* []*IPConfig: updated in place through the pointers *)
  Routes : option (list Route);  (* None is the nil slice *)
  DNS_ : DNS
}.

Definition noDNS : DNS :=
  {| Nameservers := []; Domain := ""; Search := []; Options := [] |}.

End CNI.

(* --------------------------------------------------------------------- *)
(** ** CNI request server (cniserver, server.go): configuration            *)
(* --------------------------------------------------------------------- *)

Module Server.
Import Net CNI.

(** The error codes of the CNI RPC that the server names. *)
Inductive ErrorCode :=
  | DECODING_FAILURE
  | INCOMPATIBLE_CNI_VERSION
  | UNSUPPORTED_FIELD
  | UNKNOWN_CONTAINER
  | TRY_AGAIN_LATER
  | IPAM_FAILURE
  | CONFIG_INTERFACE_FAILURE
  | CHECK_INTERFACE_FAILURE
  | INVALID_NETWORK_CONFIG.

#[global] Instance ErrorCode_eq_dec : EqDecision ErrorCode.
Proof. solve_decision. Defined.

Record Error := {
  Code : ErrorCode;
  Message : string
}.

(** [cnipb.CniCmdResponse]: the encoded CNI result or an error. *)
Record CniCmdResponse := {
  CniResult : string;
  Error_ : option Error
}.

(** [cnipb.CniCmdArgs], the payload of a request.  The handlers reach it
    through the pointer [request.CniArgs]; what they write to it is seen by
    whoever uses the request afterwards. *)
Record CniCmdArgs := {
  ContainerId : string;
  Netns : string;
  Ifname : string;
  Args : string;
  Path : string;
  NetworkConfiguration : string    (* []byte: the network configuration JSON *)
}.

Record k8sArgs := {
  K8S_POD_NAME : string;
  K8S_POD_NAMESPACE : string;
  K8S_POD_INFRA_CONTAINER_ID : string
}.

(** [ipam.IPAMConfig]: type, subnet and gateway; [Rest] stands for whatever
    else the object carries. *)
Record IPAMConfig := {
  Type_ : string;
  Subnet : string;
  Gateway_ : string;
  Rest : string
}.

Record NetworkConfig := {
  NC_CNIVersion : string;
  NC_Name : string;
  NC_Type : string;
  MTU : Z;
  NC_DNS : DNS;
  IPAM : IPAMConfig;
  RawPrevResult : option string;    (* map[string]interface{}, nil when absent *)
  PrevResult : option Result        (* json:"-", filled by parsePrevResult *)
}.

(** [CNIConfig] embeds the three pointers. *)
Record CNIConfig := {
  networkConfig : NetworkConfig;
  cniCmdArgs : CniCmdArgs;
  k8sArgs_ : k8sArgs
}.

(** [agent.Gateway] and [agent.NodeConfig]. *)
Record AgentGateway := {
  GatewayIP : IP;
  GatewayMAC : string;
  GatewayName : string
}.

Record NodeConfig := {
  Bridge : string;
  NodeName : string;
  PodCIDR : IPNet;
  NodeGateway : AgentGateway
}.

(** The fields of [CNIServer] that are plain data.  The collaborators
    (ovsBridgeClient, ifaceStore, ofClient, kubeClient) and the arbitrator
    are in the state the handlers run on. *)
Record CNIServer := {
  cniSocket : string;
  supportedCNIVersions : gset string;
  serverVersion : string;
  nodeConfig : NodeConfig;
  hostProcPathPrefix : string;
  defaultMTU : Z
}.

(** [buildVersionSet("0.1.0,0.2.0,0.3.0,0.3.1,0.4.0")]. *)
Definition supportedCNIVersionSet : gset string :=
  {[ "0.1.0"; "0.2.0"; "0.3.0"; "0.3.1"; "0.4.0" ]}.

(** updateResultIfaceConfig, the body of the loop over [result.IPs]. *)
Definition updateIPConfig (ipc : IPConfig) : IPConfig :=
  {| Version := Version ipc;
     (* result.Interfaces[0] is host interface, and result.Interfaces[1] is container interface *)
     Interface_ := Some 1;
     Address := Address ipc;
     Gateway := match Gateway ipc with
                | None =>
                    let ipn := Address ipc in
                    let netID := Mask (ip ipn) (prefixLen ipn) in
                    Some (NextIP netID)
                | Some gw => Some gw
                end |}.

Definition defaultRouteDst : string := "0.0.0.0/0".

(** [net.ParseCIDR(defaultRouteDst)]. *)
Definition defaultRouteDstNet : IPNet := {| ip := 0; prefixLen := 0 |}.

Definition updateResultIfaceConfig (result : Result) (defaultV4Gateway : option IP) : Result :=
  let ips := map updateIPConfig (IPs result) in
  let foundDefaultRoute :=
    match Routes result with
    | Some routes =>
        existsb (λ route, bool_decide (IPNet_String (Dst route) = defaultRouteDst)) routes
    | None => false
    end in
  let routes := default [] (Routes result) in
  {| CNIVersion := CNIVersion result;
     Interfaces := Interfaces result;
     IPs := ips;
     Routes := Some (if foundDefaultRoute then routes
                     else routes ++ [{| Dst := defaultRouteDstNet; GW := defaultV4Gateway |}]);
     DNS_ := DNS_ result |}.

(** [agent.InterfaceConfig], the record the interface store keeps for an
    attached interface; IP and MAC are kept in their textual form. *)
Record InterfaceConfig := {
  ID : string;
  IfaceName : string;
  IC_IP : string;
  MAC : string;
  PortUUID : string;
  OFPort : Z;
  PodName : string;
  PodNamespace : string;
  NetNS : string
}.

(** What reconcile reads of a [corev1.Pod]. *)
Record Pod := {
  PodMetaName : string;
  PodMetaNamespace : string;
  HostNetwork : bool
}.

(** The collaborators of the server: the libraries it calls (encoding/json,
    the CNI library), package ipam, the helpers of package cniserver that
    live in other files (parsePrevResult, configureInterface,
    removeInterfaces, checkInterfaces), and the interfaces
    [agent.InterfaceStore], [openflow.Client] and the Kubernetes client.
    [W] is the state they keep: IPAM allocations, network namespaces and
    links, OVSDB, the interface store, the OpenFlow tables.  An error is its
    message; [None] or [inl] is Go's non-nil [err].

    [json_Unmarshal] is the decoding of a network configuration that names
    at least one key of [NetworkConfig], which makes encoding/json allocate
    the embedded pointer, and no key of the embedded [CniCmdArgs].  A
    document that names none of the former leaves the pointer nil, and
    updateLocalIPAMSubnet then panics before any container is locked; such a
    request is not among the runs described here. *)
Record Collaborators (W : Type) := {
  json_Unmarshal : string → option NetworkConfig;
  json_Marshal : NetworkConfig → string;
  LoadArgs : string → option k8sArgs;
  GreaterThanOrEqualTo : string → string → bool;
  PrintTo : Result → string;
  Sprint : option Result → string;
  IsIPAMTypeValid : string → bool;
  ExecIPAMAdd : CniCmdArgs → string → W → W * (string + Result);
  ExecIPAMDelete : CniCmdArgs → string → W → W * option string;
  ExecIPAMCheck : CniCmdArgs → string → W → W * option string;
  parsePrevResult : NetworkConfig → option NetworkConfig;
  NewResultFromResult : option Result → option Result;
  configureInterface :
    AgentGateway → string → string → string → string → string → Z → Result →
    W → W * (string + Result);
  removeInterfaces : string → string → string → string → string → W → W * option string;
  checkInterfaces : string → string → Interface → Interface → string → Result → W → option string;
  GenerateContainerInterfaceName : string → string → string;
  GetInterfaceIDs : W → list string;
  GetContainerInterface : string → string → W → option InterfaceConfig;
  GetInterface : string → W → option InterfaceConfig;
  InstallPodFlows : string → string → string → string → Z → W → W * option string;
  ListPods : string → W → string + list Pod
}.

Arguments json_Unmarshal {W}.
Arguments json_Marshal {W}.
Arguments LoadArgs {W}.
Arguments GreaterThanOrEqualTo {W}.
Arguments PrintTo {W}.
Arguments Sprint {W}.
Arguments IsIPAMTypeValid {W}.
Arguments ExecIPAMAdd {W}.
Arguments ExecIPAMDelete {W}.
Arguments ExecIPAMCheck {W}.
Arguments parsePrevResult {W}.
Arguments NewResultFromResult {W}.
Arguments configureInterface {W}.
Arguments removeInterfaces {W}.
Arguments checkInterfaces {W}.
Arguments GenerateContainerInterfaceName {W}.
Arguments GetInterfaceIDs {W}.
Arguments GetContainerInterface {W}.
Arguments GetInterface {W}.
Arguments InstallPodFlows {W}.
Arguments ListPods {W}.

(** klog levels that report trouble; Info lines are not recorded. *)
Inductive severity := Warning | Errorf.

(** What a run leaves behind for an observer: the warnings and errors
    logged (by their format string) and the calls the handlers and the
    reconciliation make to the collaborators that work on the node (the
    IPAM plugin, configureInterface, removeInterfaces, checkInterfaces and
    the flow installation). *)
Inductive event :=
  | Logged (level : severity) (format : string)
  | IPAMAdd (args : CniCmdArgs) (ipamType : string)
  | IPAMDelete (args : CniCmdArgs) (ipamType : string)
  | IPAMCheck (args : CniCmdArgs) (ipamType : string)
  | ConfigureInterface (podName podNamespace containerID netNS ifname : string) (mtu : Z)
  | RemoveInterfaces (podName podNamespace containerID netNS ifname : string)
  | CheckInterfaces (containerID netNS hostVethName : string)
  | InstallFlows (ifaceName : string) (ofport : Z).

(** The state a handler runs on: the busy set of the arbitrator, the state
    of the collaborators, and the journal of events so far. *)
Record state (W : Type) := {
  busyContainerIDs : gset string;
  world : W;
  journal : list event
}.

Arguments busyContainerIDs {W}.
Arguments world {W}.
Arguments journal {W}.

(** A hand-over to the caller: [(response, err)]. *)
Abbreviation reply := (CniCmdResponse * option string)%type.

Section Handlers.

Context {W : Type} (E : Collaborators W) (s : CNIServer).

Definition klog (level : severity) (format : string) (st : state W) : state W :=
  {| busyContainerIDs := busyContainerIDs st;
     world := world st;
     journal := journal st ++ [Logged level format] |}.

Definition record (e : event) (w : W) (st : state W) : state W :=
  {| busyContainerIDs := busyContainerIDs st;
     world := w;
     journal := journal st ++ [e] |}.

(** lockContainer as a handler running on its own goes through it: the
    loop is left at once when the id is free; when it is busy the handler
    waits for an unlock that, with nobody else running, never comes
    ([None]). *)
Definition lockContainer (containerID : string) (st : state W) : option (state W) :=
  if decide (containerID ∈ busyContainerIDs st) then None
  else Some {| busyContainerIDs := {[containerID]} ∪ busyContainerIDs st;
               world := world st;
               journal := journal st |}.

Definition unlockContainer (containerID : string) (st : state W) : state W :=
  {| busyContainerIDs := busyContainerIDs st ∖ {[containerID]};
     world := world st;
     journal := journal st |}.

Definition generateCNIErrorResponse (cniErrorCode : ErrorCode) (cniErrorMsg : string)
  : CniCmdResponse :=
  {| CniResult := "";
     Error_ := Some {| Code := cniErrorCode; Message := cniErrorMsg |} |}.

Definition supportedCNIVersionsText : string := "0.1.0,0.2.0,0.3.0,0.3.1,0.4.0".

Definition decodingFailureResponse (what : string) : CniCmdResponse :=
  generateCNIErrorResponse DECODING_FAILURE ("Failed to decode " +:+ what).

Definition incompatibleCniVersionResponse (cniVersion : string) : CniCmdResponse :=
  generateCNIErrorResponse INCOMPATIBLE_CNI_VERSION
    ("Unsupported CNI version [" +:+ cniVersion +:+ "], supported versions ["
     +:+ supportedCNIVersionsText +:+ "]").

Definition unsupportedFieldResponse (key value : string) : CniCmdResponse :=
  generateCNIErrorResponse UNSUPPORTED_FIELD
    ("Network configuration does not support key " +:+ key +:+ " and value " +:+ value).

Definition ipamFailureResponse (err : string) : CniCmdResponse :=
  generateCNIErrorResponse IPAM_FAILURE err.

Definition configInterfaceFailureResponse (err : string) : CniCmdResponse :=
  generateCNIErrorResponse CONFIG_INTERFACE_FAILURE err.

Definition checkInterfaceFailureResponse (err : string) : CniCmdResponse :=
  generateCNIErrorResponse CHECK_INTERFACE_FAILURE err.

Definition invalidNetworkConfigResponse (msg : string) : CniCmdResponse :=
  generateCNIErrorResponse INVALID_NETWORK_CONFIG msg.

(** The success response [&cnipb.CniCmdResponse{CniResult: ...}]. *)
Definition resultResponse (bytes : string) : CniCmdResponse :=
  {| CniResult := bytes; Error_ := None |}.

Definition hostNetNsPath (netNS : string) : string :=
  if decide (netNS = "") then "" else hostProcPathPrefix s +:+ netNS.

(** updateLocalIPAMSubnet writes the node's gateway and pod CIDR over the
    ipam fields and stores the re-encoded configuration in
    [cniConfig.NetworkConfiguration], that is in the request's own
    [CniArgs]. *)
Definition updateLocalIPAMSubnet (cniConfig : CNIConfig) : CNIConfig :=
  let nc := networkConfig cniConfig in
  let nc' :=
    {| NC_CNIVersion := NC_CNIVersion nc; NC_Name := NC_Name nc; NC_Type := NC_Type nc;
       MTU := MTU nc; NC_DNS := NC_DNS nc;
       IPAM := {| Type_ := Type_ (IPAM nc);
                  Subnet := IPNet_String (PodCIDR (nodeConfig s));
                  Gateway_ := IP_String (GatewayIP (NodeGateway (nodeConfig s)));
                  Rest := Rest (IPAM nc) |};
       RawPrevResult := RawPrevResult nc; PrevResult := PrevResult nc |} in
  let args := cniCmdArgs cniConfig in
  {| networkConfig := nc';
     cniCmdArgs := {| ContainerId := ContainerId args; Netns := Netns args;
                      Ifname := Ifname args; Args := Args args; Path := Path args;
                      NetworkConfiguration := json_Marshal E nc' |};
     k8sArgs_ := k8sArgs_ cniConfig |}.

Definition withMTU (cniConfig : CNIConfig) (mtu : Z) : CNIConfig :=
  let nc := networkConfig cniConfig in
  {| networkConfig :=
       {| NC_CNIVersion := NC_CNIVersion nc; NC_Name := NC_Name nc; NC_Type := NC_Type nc;
          MTU := mtu; NC_DNS := NC_DNS nc; IPAM := IPAM nc;
          RawPrevResult := RawPrevResult nc; PrevResult := PrevResult nc |};
     cniCmdArgs := cniCmdArgs cniConfig;
     k8sArgs_ := k8sArgs_ cniConfig |}.

(** loadNetworkConfig; [None] is the non-nil [err] (its only caller drops
    the half-filled configuration returned with it). *)
Definition loadNetworkConfig (args : CniCmdArgs) : option CNIConfig :=
  nc ← json_Unmarshal E (NetworkConfiguration args);
  k8s ← LoadArgs E (Args args);
  let cniConfig :=
    updateLocalIPAMSubnet {| networkConfig := nc; cniCmdArgs := args; k8sArgs_ := k8s |} in
  Some (if decide (MTU (networkConfig cniConfig) = 0)
        then withMTU cniConfig (defaultMTU s) else cniConfig).

Definition isCNIVersionSupported (reqVersion : string) : bool :=
  bool_decide (reqVersion ∈ supportedCNIVersions s).

(** checkRequestMessage: the configuration, or the response that ends the
    request. *)
Definition checkRequestMessage (args : CniCmdArgs) (st : state W)
  : state W * (CNIConfig + CniCmdResponse) :=
  match loadNetworkConfig args with
  | None =>
      (klog Errorf "Failed to parse network configuration: %v" st,
       inr (decodingFailureResponse "network config"))
  | Some cniConfig =>
      let cniVersion := NC_CNIVersion (networkConfig cniConfig) in
      if negb (isCNIVersionSupported cniVersion)
      then (klog Errorf "Unsupported CNI version [%s], supported CNI versions [%s]" st,
            inr (incompatibleCniVersionResponse cniVersion))
      else
        let ipamType := Type_ (IPAM (networkConfig cniConfig)) in
        if negb (IsIPAMTypeValid E ipamType)
        then (klog Errorf "Unsupported IPAM type %s" st,
              inr (unsupportedFieldResponse "ipam/type" ipamType))
        else (st, inl cniConfig)
  end.

(** parsePrevResultFromRequest: the previous result, or the response that
    ends the request. *)
Definition parsePrevResultFromRequest (nc : NetworkConfig) (st : state W)
  : state W * (Result + CniCmdResponse) :=
  match PrevResult nc, RawPrevResult nc with
  | None, None =>
      (klog Errorf "Previous network configuration not specified" st,
       inr (unsupportedFieldResponse "prevResult" ""))
  | _, _ =>
      match parsePrevResult E nc with
      | None =>
          (klog Errorf "Failed to parse previous network configuration" st,
           inr (decodingFailureResponse "prevResult"))
      | Some nc' =>
          match NewResultFromResult E (PrevResult nc') with
          | None =>
              (klog Errorf "Failed to construct prevResult using previous network configuration" st,
               inr (unsupportedFieldResponse "prevResult" (Sprint E (PrevResult nc'))))
          | Some prevResult => (st, inl prevResult)
          end
      end
  end.

(** The loop of validatePrevResult over [prevResult.Interfaces]: the
    [switch] tries the container name first; a later interface of the same
    name replaces an earlier one. *)
Definition findInterfaces (ifname hostVethName : string) (interfaces : list Interface)
    (st : state W) : state W * (option Interface * option Interface) :=
  foldl (λ acc intf,
           let '(st, (containerIntf, hostIntf)) := acc in
           if decide (Name intf = ifname) then (st, (Some intf, hostIntf))
           else if decide (Name intf = hostVethName) then (st, (containerIntf, Some intf))
           else (klog Errorf "Unknown interface name %s" st, (containerIntf, hostIntf)))
        (st, (None, None)) interfaces.

Definition validatePrevResult (cfgArgs : CniCmdArgs) (k8sCNIArgs : k8sArgs)
    (prevResult : Result) (st : state W) : state W * reply :=
  let hostVethName :=
    GenerateContainerInterfaceName E (K8S_POD_NAME k8sCNIArgs) (K8S_POD_NAMESPACE k8sCNIArgs) in
  let containerID := ContainerId cfgArgs in
  let netNS := hostNetNsPath (Netns cfgArgs) in
  let '(st, (containerIntf, hostIntf)) :=
    findInterfaces (Ifname cfgArgs) hostVethName (Interfaces prevResult) st in
  match containerIntf with
  | None =>
      (klog Errorf "Failed to find interface %s of container %s" st,
       (invalidNetworkConfigResponse "prevResult does not match network configuration", None))
  | Some containerIntf =>
      match hostIntf with
      | None =>
          (klog Errorf "Failed to find host interface peer %s for container %s" st,
           (invalidNetworkConfigResponse "prevResult does not match network configuration", None))
      | Some hostIntf =>
          let checked :=
            checkInterfaces E containerID netNS containerIntf hostIntf hostVethName
              prevResult (world st) in
          let st := record (CheckInterfaces containerID netNS hostVethName) (world st) st in
          match checked with
          | Some err => (st, (checkInterfaceFailureResponse err, None))
          | None => (st, (resultResponse "", None))
          end
      end
  end.

(** CmdDel.  [None]: the handler never gets the container. *)
Definition CmdDel (args : CniCmdArgs) (st : state W) : option (state W * reply) :=
  match checkRequestMessage args st with
  | (st, inr response) => Some (st, (response, None))
  | (st, inl cniConfig) =>
      let cniArgs := cniCmdArgs cniConfig in
      st ← lockContainer (ContainerId cniArgs) st;
      let ipamType := Type_ (IPAM (networkConfig cniConfig)) in
      (* Release IP to IPAM driver *)
      let '(w, err) := ExecIPAMDelete E cniArgs ipamType (world st) in
      let st := record (IPAMDelete cniArgs ipamType) w st in
      let '(st, response) :=
        match err with
        | Some err =>
            (klog Errorf "Failed to delete IP addresses by IPAM driver: %v" st,
             ipamFailureResponse err)
        | None =>
            (* Remove host interface and OVS configuration *)
            let podName := K8S_POD_NAME (k8sArgs_ cniConfig) in
            let podNamespace := K8S_POD_NAMESPACE (k8sArgs_ cniConfig) in
            let netNS := hostNetNsPath (Netns cniArgs) in
            let '(w, err) :=
              removeInterfaces E podName podNamespace (ContainerId cniArgs) netNS
                (Ifname cniArgs) (world st) in
            let st :=
              record (RemoveInterfaces podName podNamespace (ContainerId cniArgs) netNS
                        (Ifname cniArgs)) w st in
            match err with
            | Some err =>
                (klog Errorf "Failed to remove container %s interface configuration: %v" st,
                 configInterfaceFailureResponse err)
            | None => (st, resultResponse "")
            end
        end in
      (* defer unlockContainer *)
      Some (unlockContainer (ContainerId cniArgs) st, (response, None))
  end.

(** The part of CmdAdd between taking the container and returning: the
    state, whether [success] was set, and the response. *)
Definition addInterface (cniConfig : CNIConfig) (st : state W)
  : state W * bool * CniCmdResponse :=
  let cniArgs := cniCmdArgs cniConfig in
  let nc := networkConfig cniConfig in
  let result :=
    {| CNIVersion := NC_CNIVersion nc; Interfaces := []; IPs := []; Routes := None;
       DNS_ := noDNS |} in
  let netNS := hostNetNsPath (Netns cniArgs) in
  (* Request IP Address from IPAM driver *)
  let '(w, ipamResult) := ExecIPAMAdd E cniArgs (Type_ (IPAM nc)) (world st) in
  let st := record (IPAMAdd cniArgs (Type_ (IPAM nc))) w st in
  match ipamResult with
  | inl err =>
      (klog Errorf "Failed to add ip addresses from IPAM driver: %v" st, false,
       ipamFailureResponse err)
  | inr ipamResult =>
      let result :=
        {| CNIVersion := CNIVersion result; Interfaces := Interfaces result;
           IPs := IPs ipamResult; Routes := Routes ipamResult; DNS_ := DNS_ result |} in
      let result :=
        updateResultIfaceConfig result (Some (GatewayIP (NodeGateway (nodeConfig s)))) in
      (* Setup pod interfaces and connect to ovs bridge *)
      let podName := K8S_POD_NAME (k8sArgs_ cniConfig) in
      let podNamespace := K8S_POD_NAMESPACE (k8sArgs_ cniConfig) in
      let '(w, configured) :=
        configureInterface E (NodeGateway (nodeConfig s)) podName podNamespace
          (ContainerId cniArgs) netNS (Ifname cniArgs) (MTU nc) result (world st) in
      let st :=
        record (ConfigureInterface podName podNamespace (ContainerId cniArgs) netNS
                  (Ifname cniArgs) (MTU nc)) w st in
      match configured with
      | inl err =>
          (klog Errorf "Failed to configure container %s interface: %v" st, false,
           configInterfaceFailureResponse err)
      | inr result =>
          let result :=
            {| CNIVersion := CNIVersion result; Interfaces := Interfaces result;
               IPs := IPs result; Routes := Routes result; DNS_ := NC_DNS nc |} in
          (* mark success as true to avoid rollback *)
          (st, true, resultResponse (PrintTo E result))
      end
  end.

(** CmdAdd.  The deferred calls run last in, first out: the container is
    unlocked first, then, "once ADD is failure", the rollback calls CmdDel
    with the request, whose [CniArgs] are those checkRequestMessage left. *)
Definition CmdAdd (args : CniCmdArgs) (st : state W) : option (state W * reply) :=
  match checkRequestMessage args st with
  | (st, inr response) => Some (st, (response, None))
  | (st, inl cniConfig) =>
      let containerID := ContainerId (cniCmdArgs cniConfig) in
      st ← lockContainer containerID st;
      let '(st, success, response) := addInterface cniConfig st in
      let st := unlockContainer containerID st in
      if success : bool then Some (st, (response, None))
      else
        let st := klog Warning "CmdAdd has failed, and try to rollback" st in
        '(st, (_, err)) ← CmdDel (cniCmdArgs cniConfig) st;
        let st :=
          match err with
          | Some _ => klog Warning "Failed to rollback after CNI add failure: %v" st
          | None => st
          end in
        Some (st, (response, None))
  end.

(** CmdCheck. *)
Definition CmdCheck (args : CniCmdArgs) (st : state W) : option (state W * reply) :=
  match checkRequestMessage args st with
  | (st, inr response) => Some (st, (response, None))
  | (st, inl cniConfig) =>
      let cniArgs := cniCmdArgs cniConfig in
      let nc := networkConfig cniConfig in
      st ← lockContainer (ContainerId cniArgs) st;
      let '(w, err) := ExecIPAMCheck E cniArgs (Type_ (IPAM nc)) (world st) in
      let st := record (IPAMCheck cniArgs (Type_ (IPAM nc))) w st in
      let '(st, answer) :=
        match err with
        | Some err =>
            (klog Errorf "Failed to check IPAM configuration: %v" st,
             (ipamFailureResponse err, None))
        | None =>
            let succeed := (st, (resultResponse "", None)) in
            if GreaterThanOrEqualTo E (NC_CNIVersion nc) "0.4.0"
            then
              match parsePrevResultFromRequest nc st with
              | (st, inr response) => (st, (response, None))
              | (st, inl prevResult) =>
                  let '(st, (response, err)) :=
                    validatePrevResult cniArgs (k8sArgs_ cniConfig) prevResult st in
                  match err with
                  | Some err => (st, (response, Some err))
                  | None => (st, (resultResponse "", None))
                  end
              end
            else succeed
        end in
      Some (unlockContainer (ContainerId cniArgs) st, answer)
  end.

(** reconcile, first loop: one Pod of the list. *)
Definition syncPod (acc : state W * gset string) (pod : Pod) : state W * gset string :=
  let '(st, desiredInterfaces) := acc in
  (* Skip Pods for which we are not in charge of the networking. *)
  if HostNetwork pod then acc else
  match GetContainerInterface E (PodMetaName pod) (PodMetaNamespace pod) (world st) with
  | None =>
      (klog Warning "Interface for Pod %s/%s not found in the interface store" st,
       desiredInterfaces)
  | Some containerConfig =>
      let ofport := OFPort containerConfig mod 2 ^ 32 in
      let '(w, err) :=
        InstallPodFlows E (IfaceName containerConfig) (IC_IP containerConfig)
          (MAC containerConfig) (GatewayMAC (NodeGateway (nodeConfig s))) ofport (world st) in
      let st := record (InstallFlows (IfaceName containerConfig) ofport) w st in
      match err with
      | Some _ =>
          (klog Errorf "Error when re-installing flows for Pod %s/%s" st, desiredInterfaces)
      | None => (st, {[IfaceName containerConfig]} ∪ desiredInterfaces)
      end
  end.

(** reconcile, second loop: one known interface. *)
Definition cleanInterface (desiredInterfaces : gset string) (st : state W) (ifaceID : string)
  : state W :=
  if decide (ifaceID ∈ desiredInterfaces) then st (* this interface matches an existing Pod. *)
  else
    match GetInterface E ifaceID (world st) with
    | None => klog Errorf "Interface %s can no longer be found in the interface store" st
    | Some containerConfig =>
        if decide (PodName containerConfig = "") then st (* not a container interface, skipping. *)
        else
          (* ignore error, removeInterfaces already log them *)
          let '(w, _) :=
            removeInterfaces E (PodName containerConfig) (PodNamespace containerConfig)
              (ID containerConfig) "" "" (world st) in
          record (RemoveInterfaces (PodName containerConfig) (PodNamespace containerConfig)
                    (ID containerConfig) "" "") w st
    end.

(** reconcile: the state it leaves and the error it returns. *)
Definition reconcile (st : state W) : state W * option string :=
  match ListPods E ("spec.nodeName=" +:+ NodeName (nodeConfig s)) (world st) with
  | inl err =>
      (st, Some ("failed to list Pods running on Node " +:+ NodeName (nodeConfig s)
                 +:+ ": " +:+ err))
  | inr pods =>
      let knownInterfaces := GetInterfaceIDs E (world st) in
      let '(st, desiredInterfaces) := foldl syncPod (st, ∅) pods in
      (foldl (cleanInterface desiredInterfaces) st knownInterfaces, None)
  end.

End Handlers.

(** Two network configurations that differ at most in ipam.subnet and
    ipam.gateway, and two requests that differ at most in their network
    configuration. *)
Definition sameButSubnetAndGateway (a b : NetworkConfig) : Prop :=
  NC_CNIVersion a = NC_CNIVersion b ∧ NC_Name a = NC_Name b ∧ NC_Type a = NC_Type b
  ∧ MTU a = MTU b ∧ NC_DNS a = NC_DNS b
  ∧ Type_ (IPAM a) = Type_ (IPAM b) ∧ Rest (IPAM a) = Rest (IPAM b)
  ∧ RawPrevResult a = RawPrevResult b ∧ PrevResult a = PrevResult b.

Definition sameButNetworkConfiguration (a b : CniCmdArgs) : Prop :=
  ContainerId a = ContainerId b ∧ Netns a = Netns b ∧ Ifname a = Ifname b
  ∧ Args a = Args b ∧ Path a = Path b.

(** 10.1.2.100/24 without a gateway, and one route that is not the default
    route. *)
Definition sampleResult : Result :=
  {| CNIVersion := "0.4.0";
     Interfaces := [];
     IPs := [ {| Version := "4"; Interface_ := None;
                 Address := {| ip := IPv4 10 1 2 100; prefixLen := 24 |};
                 Gateway := None |} ];
     Routes := Some [ {| Dst := {| ip := IPv4 10 0 0 0; prefixLen := 8 |};
                         GW := Some (IPv4 10 1 2 1) |} ];
     DNS_ := noDNS |}.

End Server.

(* --------------------------------------------------------------------- *)
(** ** Interface store                                                    *)
(* --------------------------------------------------------------------- *)

Module InterfaceStore.
Import Server.

Section Initialize.

(** The keys of the port external-IDs ([OVSExternalIDContainerID] and its
    siblings, named by TestInitCache; their values are declared with the
    store). *)
Variables OVSExternalIDContainerID OVSExternalIDMAC OVSExternalIDIP
          OVSExternalIDPodName OVSExternalIDPodNamespace : string.

(** Modelled from the spec: the interface store ([NewInterfaceStore] and its
    methods are not among the sources, only the test TestInitCache is).  "A
    mapping from interface name → container interface record." *)
Definition NewInterfaceStore : gmap string InterfaceConfig := ∅.

Definition Len (cache : gmap string InterfaceConfig) : nat := size cache.

Definition GetInterface (cache : gmap string InterfaceConfig) (ifaceName : string)
  : option InterfaceConfig := cache !! ifaceName.

(** Modelled from the spec: the record rebuilt from a port row, for a row
    "whose external-IDs contain a non-empty container-id": "pod identity,
    MAC, and IP are read from external-IDs; OFPort and UUID are taken from
    the row; host-side interface name is derived" (TestInitCache finds the
    record of port "p1" under the name "p1"). *)
Definition recordOfPort (port : OVSConfig.OVSPortData) : option InterfaceConfig :=
  let externalIDs := OVSConfig.ExternalIDs port in
  match externalIDs !! OVSExternalIDContainerID with
  | None => None
  | Some containerID =>
      if decide (containerID = "") then None
      else Some {| ID := containerID;
                   IfaceName := OVSConfig.Name port;
                   IC_IP := default "" (externalIDs !! OVSExternalIDIP);
                   MAC := default "" (externalIDs !! OVSExternalIDMAC);
                   PortUUID := OVSConfig.UUID port;
                   OFPort := OVSConfig.OFPort port;
                   PodName := default "" (externalIDs !! OVSExternalIDPodName);
                   PodNamespace := default "" (externalIDs !! OVSExternalIDPodNamespace);
                   NetNS := "" |}
  end.

Definition loadPort (cache : gmap string InterfaceConfig) (port : OVSConfig.OVSPortData)
  : gmap string InterfaceConfig :=
  match recordOfPort port with
  | Some config => <[IfaceName config := config]> cache
  | None => cache
  end.

(** Modelled from the spec: Initialize(ovsClient, uplinkIfName,
    gatewayIfName), given what [ovsClient.GetPortList()] returned.  "If A
    returns any error, the store is emptied and the error is propagated.
    Otherwise, the store is emptied, then for each port data row [...] a
    record is reconstructed."  "Rows without the container-id marker
    (gateway, tunnel, uplink) are ignored", so the two interface names play
    no part. *)
Definition Initialize (ovsPorts : list OVSConfig.OVSPortData) (err : option OVSConfig.Error)
    (uplinkIfName gatewayIfName : string) (cache : gmap string InterfaceConfig)
  : gmap string InterfaceConfig * option OVSConfig.Error :=
  match err with
  | Some err => (∅, Some err)
  | None => (foldl loadPort ∅ ovsPorts, None)
  end.

Definition tagged (port : OVSConfig.OVSPortData) : bool :=
  bool_decide (is_Some (recordOfPort port)).

End Initialize.

(** The two ports of TestInitCache, and a gateway port without container
    id. *)
Definition testPort (uuid name : string) (ofport : Z) (containerID mac ip pod : string)
  : OVSConfig.OVSPortData :=
  {| OVSConfig.UUID := uuid; OVSConfig.Name := name;
     OVSConfig.ExternalIDs :=
       <["container-id" := containerID]> (<["mac" := mac]> (<["ip" := ip]>
       (<["pod-name" := pod]> (<["pod-namespace" := "test"]> ∅))));
     OVSConfig.IFName := name; OVSConfig.OFPort := ofport |}.

Definition ovsPort1 := testPort "uuid-p1" "p1" 1 "c1" "11:22:33:44:55:66" "1.1.1.1" "pod1".
Definition ovsPort2 := testPort "uuid-p2" "p2" 2 "c2" "11:22:33:44:55:77" "1.1.1.2" "pod2".

Definition gatewayPort : OVSConfig.OVSPortData :=
  {| OVSConfig.UUID := "uuid-gw"; OVSConfig.Name := "gw0"; OVSConfig.ExternalIDs := ∅;
     OVSConfig.IFName := "gw0"; OVSConfig.OFPort := 3 |}.

Definition testInitialize :=
  Initialize "container-id" "mac" "ip" "pod-name" "pod-namespace".

End InterfaceStore.

(* --------------------------------------------------------------------- *)
(** ** A node to run the handlers on                                      *)
(* --------------------------------------------------------------------- *)

Module Node.
Import Net CNI Server.

(** What the collaborators keep on a node, reduced to what the spec says
    an attach creates: the IPAM allocation, the OVS port, the store entry,
    the pod flows.  [failing] names the collaborator calls that return an
    error. *)
Record node := {
  allocations : gset string;                 (* container ids holding an address *)
  ports : gset string;                       (* uuids of the OVS ports *)
  store : gmap string InterfaceConfig;       (* interface store, by interface name *)
  flows : gset string;                       (* interfaces whose pod flows are installed *)
  podList : list Pod;                        (* the Pods the API server lists *)
  failing : gset string
}.

Definition fails (op : string) (w : node) : bool := bool_decide (op ∈ failing w).

Definition hostName (podName podNamespace : string) : string :=
  podName +:+ "." +:+ podNamespace.

Definition sentConfig : NetworkConfig :=
  {| NC_CNIVersion := "0.4.0"; NC_Name := "testConfig"; NC_Type := "antrea"; MTU := 0;
     NC_DNS := noDNS;
     IPAM := {| Type_ := "mock"; Subnet := "10.1.2.0/24"; Gateway_ := "10.1.2.1"; Rest := "" |};
     RawPrevResult := None; PrevResult := None |}.

Definition withIPAM (nc : NetworkConfig) (subnet gateway : string) : NetworkConfig :=
  {| NC_CNIVersion := NC_CNIVersion nc; NC_Name := NC_Name nc; NC_Type := NC_Type nc;
     MTU := MTU nc; NC_DNS := NC_DNS nc;
     IPAM := {| Type_ := Type_ (IPAM nc); Subnet := subnet; Gateway_ := gateway;
                Rest := Rest (IPAM nc) |};
     RawPrevResult := RawPrevResult nc; PrevResult := PrevResult nc |}.

Definition withPrevResult (nc : NetworkConfig) (raw : string) : NetworkConfig :=
  {| NC_CNIVersion := NC_CNIVersion nc; NC_Name := NC_Name nc; NC_Type := NC_Type nc;
     MTU := MTU nc; NC_DNS := NC_DNS nc; IPAM := IPAM nc;
     RawPrevResult := Some raw; PrevResult := None |}.

(** The previous result of a CHECK that names no interface at all. *)
Definition prevWithoutInterfaces : Result :=
  {| CNIVersion := "0.4.0"; Interfaces := []; IPs := []; Routes := None; DNS_ := noDNS |}.

(** A stand-in for the JSON codec: a handful of documents, by name. *)
Definition documents : list (string * NetworkConfig) :=
  [ ("sent", sentConfig);
    ("sent-other-subnet", withIPAM sentConfig "172.16.0.0/16" "172.16.0.1");
    ("rewritten", withIPAM sentConfig "192.168.1.0/24" "192.168.1.1");
    ("check", withPrevResult sentConfig "prev");
    ("check-rewritten",
     withPrevResult (withIPAM sentConfig "192.168.1.0/24" "192.168.1.1") "prev") ].

Definition unmarshal (data : string) : option NetworkConfig :=
  snd <$> find (λ doc : string * NetworkConfig, bool_decide (doc.1 = data)) documents.

Definition marshal (nc : NetworkConfig) : string :=
  match RawPrevResult nc with
  | Some _ => "check-rewritten"
  | None => if decide (Subnet (IPAM nc) = "192.168.1.0/24") then "rewritten" else "sent"
  end.

(** Modelled from the spec: configureInterface, ADD steps 3 to 7: the veth
    pair, "create an OVS port bound to the host-side veth", "Ask A for the
    OFPort", "Insert the record into B", "install per-pod flows". *)
Definition configure (gw : AgentGateway) (podName podNamespace containerID netNS ifname : string)
    (mtu : Z) (result : Result) (w : node) : node * (string + Result) :=
  let host := hostName podName podNamespace in
  if fails "CreatePort" w then (w, inl "failed to add OVS port") else
  let portUUID := "port-" +:+ host in
  let w1 := {| allocations := allocations w; ports := {[portUUID]} ∪ ports w;
               store := store w; flows := flows w; podList := podList w;
               failing := failing w |} in
  if fails "GetOFPort" w then (w1, inl "failed to get of_port") else
  let config := {| ID := containerID; IfaceName := host; IC_IP := ""; MAC := "";
                   PortUUID := portUUID; OFPort := 10; PodName := podName;
                   PodNamespace := podNamespace; NetNS := netNS |} in
  let w2 := {| allocations := allocations w1; ports := ports w1;
               store := <[host := config]> (store w1); flows := flows w1;
               podList := podList w1; failing := failing w1 |} in
  if fails "InstallPodFlows" w then (w2, inl "failed to add Openflow entries") else
  ({| allocations := allocations w2; ports := ports w2; store := store w2;
      flows := {[host]} ∪ flows w2; podList := podList w2; failing := failing w2 |},
   inr {| CNIVersion := CNIVersion result;
          Interfaces := [ {| Name := host; Mac := ""; Sandbox := "" |};
                          {| Name := ifname; Mac := ""; Sandbox := netNS |} ];
          IPs := IPs result; Routes := Routes result; DNS_ := DNS_ result |}).

(** Modelled from the spec: removeInterfaces, DEL step 2: "delete flows,
    delete OVS port by UUID, delete host-side veth; remove the B entry". *)
Definition remove (podName podNamespace containerID netNS ifname : string) (w : node)
  : node * option string :=
  match store w !! hostName podName podNamespace with
  | None => (w, None)
  | Some config =>
      if fails "UninstallPodFlows" w then (w, Some "failed to delete Openflow entries") else
      let w1 := {| allocations := allocations w; ports := ports w; store := store w;
                   flows := flows w ∖ {[IfaceName config]}; podList := podList w;
                   failing := failing w |} in
      if fails "DeletePort" w then (w1, Some "failed to delete OVS port") else
      ({| allocations := allocations w1; ports := ports w1 ∖ {[PortUUID config]};
          store := delete (IfaceName config) (store w1); flows := flows w1;
          podList := podList w1; failing := failing w1 |}, None)
  end.

Definition ipamAdd (args : CniCmdArgs) (ipamType : string) (w : node) : node * (string + Result) :=
  if fails "ExecIPAMAdd" w then (w, inl "IPAM add failed") else
  ({| allocations := {[ContainerId args]} ∪ allocations w; ports := ports w; store := store w;
      flows := flows w; podList := podList w; failing := failing w |},
   inr sampleResult).

Definition ipamDelete (args : CniCmdArgs) (ipamType : string) (w : node) : node * option string :=
  if fails "ExecIPAMDelete" w then (w, Some "IPAM delete failed") else
  ({| allocations := allocations w ∖ {[ContainerId args]}; ports := ports w; store := store w;
      flows := flows w; podList := podList w; failing := failing w |}, None).

Definition installFlows (ifaceName ip mac gwMAC : string) (ofport : Z) (w : node)
  : node * option string :=
  if fails "InstallPodFlows" w then (w, Some "failed to add Openflow entries") else
  ({| allocations := allocations w; ports := ports w; store := store w;
      flows := {[ifaceName]} ∪ flows w; podList := podList w; failing := failing w |}, None).

Definition collaborators : Collaborators node :=
  {| json_Unmarshal := unmarshal;
     json_Marshal := marshal;
     LoadArgs := λ args, Some {| K8S_POD_NAME := "test-1"; K8S_POD_NAMESPACE := "t1";
                                 K8S_POD_INFRA_CONTAINER_ID := args |};
     GreaterThanOrEqualTo := λ v w, bool_decide (v = "0.4.0");
     PrintTo := λ result, "result";
     Sprint := λ result, "";
     IsIPAMTypeValid := λ ipamType, bool_decide (ipamType = "mock");
     ExecIPAMAdd := ipamAdd;
     ExecIPAMDelete := ipamDelete;
     ExecIPAMCheck := λ args ipamType w, (w, None);
     parsePrevResult := λ nc,
       Some {| NC_CNIVersion := NC_CNIVersion nc; NC_Name := NC_Name nc;
               NC_Type := NC_Type nc; MTU := MTU nc; NC_DNS := NC_DNS nc; IPAM := IPAM nc;
               RawPrevResult := RawPrevResult nc;
               PrevResult := Some prevWithoutInterfaces |};
     NewResultFromResult := λ prev, prev;
     configureInterface := configure;
     removeInterfaces := remove;
     checkInterfaces := λ containerID netNS containerIntf hostIntf hostVethName prev w, None;
     GenerateContainerInterfaceName := hostName;
     GetInterfaceIDs := λ w, (map_to_list (store w)).*1;
     GetContainerInterface := λ podName podNamespace w, store w !! hostName podName podNamespace;
     GetInterface := λ ifaceName w, store w !! ifaceName;
     InstallPodFlows := installFlows;
     ListPods := λ selector w, inr (podList w) |}.

(** The node and server of the server tests: gateway 192.168.1.1, pod CIDR
    192.168.1.0/24, default MTU 1450. *)
Definition server : CNIServer :=
  {| cniSocket := "/tmp/test.sock";
     supportedCNIVersions := supportedCNIVersionSet;
     serverVersion := "";
     nodeConfig := {| Bridge := "br0"; NodeName := "node1";
                      PodCIDR := {| ip := IPv4 192 168 1 0; prefixLen := 24 |};
                      NodeGateway := {| GatewayIP := IPv4 192 168 1 1;
                                        GatewayMAC := "11:11:11:11:11:11";
                                        GatewayName := "gw" |} |};
     hostProcPathPrefix := "";
     defaultMTU := 1450 |}.

Definition emptyNode (failing : gset string) : node :=
  {| allocations := ∅; ports := ∅; store := ∅; flows := ∅; podList := []; failing := failing |}.

Definition start (w : node) : state node :=
  {| busyContainerIDs := ∅; world := w; journal := [] |}.

Definition request (document : string) : CniCmdArgs :=
  {| ContainerId := "dummy-0"; Netns := "/proc/1/ns/net"; Ifname := "eth0";
     Args := "test-111111"; Path := ""; NetworkConfiguration := document |}.

(** The configuration checkRequestMessage derives from [request "sent"],
    and the state in which CmdAdd, on a node whose flow installation fails,
    has taken the container. *)
Definition sentCniConfig : CNIConfig :=
  {| networkConfig :=
       {| NC_CNIVersion := "0.4.0"; NC_Name := "testConfig"; NC_Type := "antrea";
          MTU := 1450; NC_DNS := noDNS;
          IPAM := {| Type_ := "mock"; Subnet := "192.168.1.0/24";
                     Gateway_ := "192.168.1.1"; Rest := "" |};
          RawPrevResult := None; PrevResult := None |};
     cniCmdArgs := request "rewritten";
     k8sArgs_ := {| K8S_POD_NAME := "test-1"; K8S_POD_NAMESPACE := "t1";
                    K8S_POD_INFRA_CONTAINER_ID := "test-111111" |} |}.

Definition flowsFail : state node := start (emptyNode {["InstallPodFlows"]}).

Definition failedAttempt : state node * bool * CniCmdResponse :=
  addInterface collaborators server sentCniConfig
    {| busyContainerIDs := {["dummy-0"]} ∪ busyContainerIDs flowsFail;
       world := world flowsFail; journal := journal flowsFail |}.

(** "No IPAM allocation, OVS port, store entry, or installed flows remain"
    for the container and its Pod. *)
Definition clean (containerID podName podNamespace : string) (w : node) : Prop :=
  let host := hostName podName podNamespace in
  (containerID ∉ allocations w)
  ∧ (("port-" +:+ host) ∉ ports w)
  ∧ store w !! host = None
  ∧ (host ∉ flows w).

(** A node after a restart: the store holds the interface of Pod pod1/test,
    which is still running, and the gateway port. *)
Definition pod1Config : InterfaceConfig :=
  {| ID := "c1"; IfaceName := "pod1.test"; IC_IP := "1.1.1.1"; MAC := "11:22:33:44:55:66";
     PortUUID := "port-pod1.test"; OFPort := 1; PodName := "pod1"; PodNamespace := "test";
     NetNS := "" |}.

Definition gatewayConfig : InterfaceConfig :=
  {| ID := ""; IfaceName := "gw"; IC_IP := "192.168.1.1"; MAC := "11:11:11:11:11:11";
     PortUUID := "port-gw"; OFPort := 2; PodName := ""; PodNamespace := ""; NetNS := "" |}.

Definition restarted (failing : gset string) : node :=
  {| allocations := {["c1"]}; ports := {["port-pod1.test"; "port-gw"]};
     store := <["pod1.test" := pod1Config]> (<["gw" := gatewayConfig]> ∅);
     flows := ∅;
     podList := [ {| PodMetaName := "pod1"; PodMetaNamespace := "test"; HostNetwork := false |} ];
     failing := failing |}.

End Node.

(* --------------------------------------------------------------------- *)
(** ** OVS bridge client (ovsconfig, ovs_client.go): the other reads       *)
(* --------------------------------------------------------------------- *)

Module OVSBridgeReads.
Import OVSConfig.

Definition lookupByName_tx (br : OVSBridge) : list operation :=
  [ Select "Bridge" ["_uuid"] [Cond "name" "==" (DString (name br))] ].

(** lookupByName: [(exists, err)], and the bridge, whose [uuid] is written
    when the bridge is found.  The outer [option] is [None] when the Go code
    panics. *)
Definition lookupByName (br : OVSBridge) : option (OVSBridge * (bool * option Error)) :=
  match ovsdb br (lookupByName_tx br) with
  | CommitFailed err temporary => Some (br, (false, Some (NewTransactionError err temporary)))
  | Committed res =>
      rows ← res !! 0%nat;
      if decide (length rows = 0%nat) then Some (br, (false, None)) else
      r ← rows !! 0%nat;
      id ← uuidOf (r !! "_uuid");
      Some ({| ovsdb := ovsdb br; name := name br; datapathType := datapathType br;
               uuid := id |}, (true, None))
  end.

Definition GetExternalIDs_tx (br : OVSBridge) : list operation :=
  [ Select "Bridge" ["external_ids"] [Cond "name" "==" (DString (name br))] ].

(** GetExternalIDs: [(nil, err)] or [(ids, nil)]. *)
Definition GetExternalIDs (br : OVSBridge)
  : option (option (gmap string string) * option Error) :=
  match ovsdb br (GetExternalIDs_tx br) with
  | CommitFailed err temporary => Some (None, Some (NewTransactionError err temporary))
  | Committed res =>
      rows ← res !! 0%nat;
      r ← rows !! 0%nat;
      extIDRes ← assertArray (r !! "external_ids");
      Some (Some (buildMapFromOVSDBMap extIDRes), None)
  end.

Section GetPortList.

Variable GetIdListFromOVSDBSet : datum → option (list string).

Definition GetPortUUIDList_tx (br : OVSBridge) : list operation :=
  [ Select "Bridge" ["ports"] [Cond "name" "==" (DString (name br))] ].

(** GetPortUUIDList: [(nil, err)] or [(uuids, nil)]. *)
Definition GetPortUUIDList (br : OVSBridge) : option (option (list string) * option Error) :=
  match ovsdb br (GetPortUUIDList_tx br) with
  | CommitFailed err temporary => Some (None, Some (NewTransactionError err temporary))
  | Committed res =>
      rows ← res !! 0%nat;
      r ← rows !! 0%nat;
      portRes ← assertArray (r !! "ports");
      uuids ← GetIdListFromOVSDBSet portRes;
      Some (Some uuids, None)
  end.

(** The two selects without [Where] read the whole table. *)
Definition GetPortList_tx (br : OVSBridge) : list operation :=
  [ Select "Bridge" ["ports"] [Cond "name" "==" (DString (name br))];
    Select "Port" ["_uuid"; "name"; "external_ids"; "interfaces"] [];
    Select "Interface" ["_uuid"; "name"; "ofport"] [] ].

(** The loops that fill [portMap] and [ifMap]: the rows by their uuid, a
    later row replacing an earlier one with the same uuid. *)
Definition rowsByUUID (rows : list row) : option (gmap string row) :=
  foldl (λ acc r, m ← acc; id ← uuidOf (r !! "_uuid"); Some (<[id := r]> m)) (Some ∅) rows.

(** The body of the loop over [portUUIDList].  A uuid without a row gives
    the nil map, whose columns are all nil. *)
Definition portOf (portMap ifMap : gmap string row) (id : string) : option OVSPortData :=
  let port := default ∅ (portMap !! id) in
  ifaces ← assertArray (port !! "interfaces");
  ifUUIDList ← GetIdListFromOVSDBSet ifaces;
  (* Port should have one interface *)
  ifUUID ← ifUUIDList !! 0%nat;
  let intf := default ∅ (ifMap !! ifUUID) in
  ifName ← assertString (intf !! "name");
  buildPortDataCommon port intf
    {| UUID := id; Name := ""; ExternalIDs := ∅; IFName := ifName; OFPort := 0 |}.

(** GetPortList: [(nil, err)], [([]OVSPortData{}, nil)] or
    [(portList, nil)]; the nil slice is [None]. *)
Definition GetPortList (br : OVSBridge)
  : option (option (list OVSPortData) * option Error) :=
  match ovsdb br (GetPortList_tx br) with
  | CommitFailed err temporary => Some (None, Some (NewTransactionError err temporary))
  | Committed res =>
      rows0 ← res !! 0%nat;
      if decide (length rows0 = 0%nat) then Some (Some [], None) else
      bridge ← rows0 !! 0%nat;
      ports ← assertArray (bridge !! "ports");
      portUUIDList ← GetIdListFromOVSDBSet ports;
      rows1 ← res !! 1%nat;
      portMap ← rowsByUUID rows1;
      rows2 ← res !! 2%nat;
      ifMap ← rowsByUUID rows2;
      portList ← mapM (portOf portMap ifMap) portUUIDList;
      Some (Some portList, None)
  end.

(** What GetPortList reports of a port is what these rows hold: the Port
    row of that uuid and the Interface row of the port's first interface. *)
Definition backedBy (ports interfaces : list row) (pd : OVSPortData) : Prop :=
  ∃ port intf ifaces ifUUIDList ifUUID extIDs,
    port ∈ ports ∧ uuidOf (port !! "_uuid") = Some (UUID pd)
    ∧ assertArray (port !! "interfaces") = Some ifaces
    ∧ GetIdListFromOVSDBSet ifaces = Some ifUUIDList
    ∧ ifUUIDList !! 0%nat = Some ifUUID
    ∧ intf ∈ interfaces ∧ uuidOf (intf !! "_uuid") = Some ifUUID
    ∧ port !! "name" = Some (DString (Name pd))
    ∧ intf !! "name" = Some (DString (IFName pd))
    ∧ assertArray (port !! "external_ids") = Some extIDs
    ∧ ExternalIDs pd = buildMapFromOVSDBMap extIDs
    ∧ OFPort pd = match intf !! "ofport" with
                  | Some (DNumber ofPort) => ofPort
                  | _ => 0
                  end.

End GetPortList.

(** A database with one bridge that has one port with one interface; the
    Port table also holds a port of another bridge. *)
Definition oneBridge : OVSBridge :=
  answering
    [ [ <["ports" := DUUID "port-1"]> ∅ ];
      [ <["_uuid" := DUUID "port-1"]> portRow;
        <["_uuid" := DUUID "port-2"]> portRow ];
      [ <["name" := DString "eth0"]> (intfRow "if-1") ] ].

Definition onePort : list OVSPortData :=
  [ {| UUID := "port-1"; Name := "p1"; ExternalIDs := {["pod-name" := "pod1"]};
       IFName := "eth0"; OFPort := 7 |} ].

(** A database that knows no bridge of that name. *)
Definition noBridge : OVSBridge := answering [ []; []; [] ].

End OVSBridgeReads.

(* --------------------------------------------------------------------- *)
(** ** CNI request server: the rest of server.go                          *)
(* --------------------------------------------------------------------- *)

Module ServerExtras.
Import Net CNI Server.

(** The two response builders no handler calls. *)
Definition unknownContainerResponse (containerID : string) : CniCmdResponse :=
  generateCNIErrorResponse UNKNOWN_CONTAINER
    ("Container id  " +:+ containerID +:+ " is unknown or non-existent").

Definition tryAgainLaterResponse : CniCmdResponse :=
  generateCNIErrorResponse TRY_AGAIN_LATER "Server is busy, please retry later".

(** The error code a response carries, if any. *)
Definition codeOf (response : CniCmdResponse) : option ErrorCode :=
  Code <$> Error_ response.

(** [strings.Split(s, sep)] for a one-character separator: the pieces
    between the separators, one more than there are separators. *)
Fixpoint Split (sep : Ascii.ascii) (s : string) : list string :=
  match s with
  | EmptyString => [""]
  | String c rest =>
      if decide (c = sep) then "" :: Split sep rest
      else match Split sep rest with
           | piece :: pieces => String c piece :: pieces
           | [] => [String c ""]
           end
  end.

(** [strings.Trim(s, cutset)] for a one-character cutset. *)
Fixpoint TrimLeft (c : Ascii.ascii) (s : string) : string :=
  match s with
  | EmptyString => ""
  | String c' rest => if decide (c' = c) then TrimLeft c rest else s
  end.

Fixpoint TrimRight (c : Ascii.ascii) (s : string) : string :=
  match s with
  | EmptyString => ""
  | String c' rest =>
      match TrimRight c rest with
      | EmptyString => if decide (c' = c) then "" else String c' ""
      | kept => String c' kept
      end
  end.

Definition Trim (c : Ascii.ascii) (s : string) : string := TrimRight c (TrimLeft c s).

(** buildVersionSet. *)
Definition buildVersionSet (versions : string) : gset string :=
  foldl (λ versionSet ver, {[Trim " "%char ver]} ∪ versionSet) ∅ (Split ","%char versions).

Fixpoint contains (c : Ascii.ascii) (s : string) : bool :=
  match s with
  | EmptyString => false
  | String c' rest => bool_decide (c' = c) || contains c rest
  end.

(** The calls to the collaborators that a journal records, by kind and in
    order; the log lines are dropped. *)
Inductive collaboratorCall :=
  | CallIPAMAdd
  | CallIPAMDelete
  | CallIPAMCheck
  | CallConfigureInterface
  | CallRemoveInterfaces
  | CallCheckInterfaces
  | CallInstallPodFlows.

Definition callOf (e : event) : option collaboratorCall :=
  match e with
  | Logged _ _ => None
  | IPAMAdd _ _ => Some CallIPAMAdd
  | IPAMDelete _ _ => Some CallIPAMDelete
  | IPAMCheck _ _ => Some CallIPAMCheck
  | ConfigureInterface _ _ _ _ _ _ => Some CallConfigureInterface
  | RemoveInterfaces _ _ _ _ _ => Some CallRemoveInterfaces
  | CheckInterfaces _ _ _ => Some CallCheckInterfaces
  | InstallFlows _ _ => Some CallInstallPodFlows
  end.

Definition calls (events : list event) : list collaboratorCall := omap callOf events.

(** What the second loop of reconcile may leave in the journal: a log line,
    or the removal of the interfaces of a Pod, which names neither a
    namespace path nor an interface. *)
Definition cleanup (e : event) : Prop :=
  match e with
  | Logged _ _ => True
  | RemoveInterfaces podName _ _ netNS ifname => podName ≠ "" ∧ netNS = "" ∧ ifname = ""
  | _ => False
  end.

(** The collaborators, with an API server that lists [pods]. *)
Definition listing {W : Type} (pods : list Pod) (E : Collaborators W) : Collaborators W :=
  {| json_Unmarshal := json_Unmarshal E;
     json_Marshal := json_Marshal E;
     LoadArgs := LoadArgs E;
     GreaterThanOrEqualTo := GreaterThanOrEqualTo E;
     PrintTo := PrintTo E;
     Sprint := Sprint E;
     IsIPAMTypeValid := IsIPAMTypeValid E;
     ExecIPAMAdd := ExecIPAMAdd E;
     ExecIPAMDelete := ExecIPAMDelete E;
     ExecIPAMCheck := ExecIPAMCheck E;
     parsePrevResult := parsePrevResult E;
     NewResultFromResult := NewResultFromResult E;
     configureInterface := configureInterface E;
     removeInterfaces := removeInterfaces E;
     checkInterfaces := checkInterfaces E;
     GenerateContainerInterfaceName := GenerateContainerInterfaceName E;
     GetInterfaceIDs := GetInterfaceIDs E;
     GetContainerInterface := GetContainerInterface E;
     GetInterface := GetInterface E;
     InstallPodFlows := InstallPodFlows E;
     ListPods := λ _ _, inr pods |}.

Section Initialize.

Context {W : Type} (E : Collaborators W) (s : CNIServer).

(** [CNIServer.Initialize]: reconcile, its error wrapped. *)
Definition Initialize (st : state W) : state W * option string :=
  match reconcile E s st with
  | (st', Some err) =>
      (st', Some ("error during initial reconciliation for CNI server: " +:+ err))
  | (st', None) => (st', None)
  end.

End Initialize.

Section Rollback.

Context {W : Type} (E : Collaborators W) (s : CNIServer).

(** CmdAdd as far as its deferred unlockContainer: the response and, when
    [success] was not set, the request that is still to be rolled back. *)
Definition CmdAdd_locked (args : CniCmdArgs) (st : state W)
  : option (state W * (CniCmdResponse * option CniCmdArgs)) :=
  match checkRequestMessage E s args st with
  | (st, inr response) => Some (st, (response, None))
  | (st, inl cniConfig) =>
      let containerID := ContainerId (cniCmdArgs cniConfig) in
      st ← lockContainer containerID st;
      let '(st, success, response) := addInterface E s cniConfig st in
      let st := unlockContainer containerID st in
      Some (st, (response, if success : bool then None else Some (cniCmdArgs cniConfig)))
  end.

(** The deferred function of CmdAdd that was registered first and so runs
    last, with the container unlocked: "Rollback to delete configurations
    once ADD is failure". *)
Definition CmdAdd_rollback (request : CniCmdArgs) (st : state W) : option (state W) :=
  let st := klog Warning "CmdAdd has failed, and try to rollback" st in
  '(st, (_, err)) ← CmdDel E s request st;
  Some match err with
       | Some _ => klog Warning "Failed to rollback after CNI add failure: %v" st
       | None => st
       end.

End Rollback.

(** "Operations never observe each other's partial state": while an ADD
    that has failed is still to be rolled back, a request for the same
    container gets nothing done: its handler waits, or returns without a
    call to a collaborator. *)
Definition operationsAreAtomic : Prop :=
  ∀ (W : Type) (E : Collaborators W) (s : CNIServer) (args other request : CniCmdArgs)
    (st mid : state W) (response : CniCmdResponse),
    CmdAdd_locked E s args st = Some (mid, (response, Some request)) →
    ContainerId other = ContainerId request →
    ∀ handler, handler ∈ [CmdAdd E s; CmdDel E s; CmdCheck E s] →
      match handler other mid with
      | Some (st', _) => calls (drop (length (journal mid)) (journal st')) = []
      | None => True
      end.

(** [New]: the server with the supported versions of [init()];
    [AntreaCNIVersion] is the constant of package cni. *)
Definition New (AntreaCNIVersion cniSocket hostProcPathPrefix : string) (defaultMTU : Z)
    (nodeConfig : NodeConfig) : CNIServer :=
  {| Server.cniSocket := cniSocket;
     supportedCNIVersions := buildVersionSet supportedCNIVersionsText;
     serverVersion := AntreaCNIVersion;
     Server.nodeConfig := nodeConfig;
     Server.hostProcPathPrefix := hostProcPathPrefix;
     Server.defaultMTU := defaultMTU |}.

End ServerExtras.

(* ===================================================================== *)
(** * Part II: theorems                                                   *)
(* ===================================================================== *)

Section ArbitratorFacts.
Import Arbitrator.

Lemma status_insert_eq a g st bs :
  status {| busyContainerIDs := bs; goroutines := <[g := st]> (goroutines a) |} g = st.
Proof. unfold status; simpl. by rewrite lookup_insert_eq. Qed.

Lemma status_insert_ne a g g' st bs :
  g ≠ g' →
  status {| busyContainerIDs := bs; goroutines := <[g := st]> (goroutines a) |} g' = status a g'.
Proof. intros Hne. unfold status; simpl. by rewrite lookup_insert_ne. Qed.

Lemma status_Broadcast bs gs g :
  status {| busyContainerIDs := bs; goroutines := Broadcast gs |} g
  = wake (default Running (gs !! g)).
Proof.
  unfold status, Broadcast; simpl. rewrite lookup_fmap.
  by destruct (gs !! g).
Qed.

Lemma status_loopTest_same a g id :
  status (loopTest g id a) g
  = if decide (id ∈ busyContainerIDs a) then Parked id else Holder id.
Proof. unfold loopTest. case_decide; apply status_insert_eq. Qed.

Lemma status_loopTest_other a g g' id :
  g ≠ g' → status (loopTest g id a) g' = status a g'.
Proof. intros Hne. unfold loopTest. case_decide; by apply status_insert_ne. Qed.

Lemma busy_loopTest a g id :
  busyContainerIDs (loopTest g id a)
  = if decide (id ∈ busyContainerIDs a) then busyContainerIDs a
    else {[id]} ∪ busyContainerIDs a.
Proof. unfold loopTest. by case_decide. Qed.

Lemma wake_Holder st id : wake st = Holder id → st = Holder id.
Proof. destruct st; simpl; congruence. Qed.

Lemma Holder_wake st id : st = Holder id → wake st = Holder id.
Proof. by intros ->. Qed.

Lemma exclusive_new : exclusive newContainerAccessArbitrator.
Proof. split; intros *; unfold holds, status; simpl; rewrite lookup_empty; done. Qed.

Lemma exclusive_loopTest a g id :
  (∀ id', ¬ holds a g id') → exclusive a → exclusive (loopTest g id a).
Proof.
  intros Hfree [Hbusy Huniq]. split.
  - intros g0 id0 Hh. unfold holds in *. rewrite busy_loopTest.
    destruct (decide (g = g0)) as [<-|Hne].
    + rewrite status_loopTest_same in Hh. case_decide; [done|].
      injection Hh as <-. set_solver.
    + rewrite status_loopTest_other in Hh by done.
      apply Hbusy in Hh. case_decide; set_solver.
  - intros g1 g2 id0 H1 H2. unfold holds in *.
    destruct (decide (g = g1)) as [<-|Hne1], (decide (g = g2)) as [<-|Hne2]; [done| | |].
    + rewrite status_loopTest_same in H1. rewrite status_loopTest_other in H2 by done.
      case_decide as Hin; [done|]. injection H1 as <-. by apply Hbusy in H2.
    + rewrite status_loopTest_same in H2. rewrite status_loopTest_other in H1 by done.
      case_decide as Hin; [done|]. injection H2 as <-. by apply Hbusy in H1.
    + rewrite status_loopTest_other in H1, H2 by done. eauto.
Qed.

Lemma status_unlock_holder a g g' id :
  status {| busyContainerIDs := busyContainerIDs a ∖ {[id]};
            goroutines := Broadcast (<[g := Running]> (goroutines a)) |} g'
  = if decide (g = g') then Running else wake (status a g').
Proof.
  rewrite status_Broadcast. case_decide as Hg.
  - subst. by rewrite lookup_insert_eq.
  - by rewrite lookup_insert_ne.
Qed.

Lemma step_exclusive c a a' :
  exclusive a → obeys c a = true → step c a = Some a' → exclusive a'.
Proof.
  intros Hex Hob Hstep. destruct c as [g id|g|g id|g id]; simpl in *.
  - destruct (status a g) eqn:Hst; try done. injection Hstep as <-.
    apply exclusive_loopTest; [|done]. intros id'. unfold holds. congruence.
  - destruct (status a g) eqn:Hst; try done. injection Hstep as <-.
    apply exclusive_loopTest; [|done]. intros id'. unfold holds. congruence.
  - apply bool_decide_eq_true in Hob. rewrite Hob in Hstep.
    rewrite decide_True in Hstep by done. injection Hstep as <-.
    destruct Hex as [Hbusy Huniq]. split.
    + intros g0 id0 Hh. unfold holds in *. rewrite status_unlock_holder in Hh.
      case_decide as Hg; [done|]. apply wake_Holder in Hh. simpl.
      apply elem_of_difference. split; [by apply (Hbusy g0)|].
      intros ->%elem_of_singleton. apply Hg. eauto.
    + intros g1 g2 id0 H1 H2. unfold holds in *.
      rewrite status_unlock_holder in H1, H2.
      repeat case_decide; try done.
      apply wake_Holder in H1, H2. eauto.
  - destruct (status a g); try done; by injection Hstep as <-.
Qed.

Lemma run_exclusive cs : ∀ a a',
  exclusive a → disciplined cs a = true → run cs a = Some a' → exclusive a'.
Proof.
  induction cs as [|c cs IH]; intros a a' Hex Hd Hrun; simpl in *.
  - by injection Hrun as <-.
  - apply andb_true_iff in Hd as [Hob Hd].
    destruct (step c a) as [a1|] eqn:Hstep; [|done].
    eapply IH; [|done..]. by eapply step_exclusive.
Qed.

Lemma loopTest_sections a g id0 id h :
  exclusive a → (∀ id', ¬ holds a g id') → holderIs a id h →
  ∃ h', holderIs (loopTest g id0 a) id h' ∧
        ∀ rest, serial h' rest = true →
          serial h ((if decide (id0 = id ∧ id ∉ busyContainerIDs a)
                     then [(true, g)] else []) ++ rest) = true.
Proof.
  intros [Hbusy Huniq] Hfree Hh.
  destruct (decide (id0 = id ∧ id ∉ busyContainerIDs a)) as [[-> Hnin]|Hno].
  - exists (Some g). split.
    + simpl. unfold holds. rewrite status_loopTest_same. by rewrite decide_False.
    + intros rest Hrest. destruct h as [g0|]; simpl in *; [|done].
      by apply Hbusy in Hh.
  - exists h. split; [|done].
    destruct h as [g0|]; simpl in *; unfold holds in *.
    + rewrite status_loopTest_other; [done|]. intros <-. by eapply Hfree.
    + intros g1. destruct (decide (g = g1)) as [<-|Hne].
      * rewrite status_loopTest_same. case_decide as Hin; [done|].
        intros [= ->]. apply Hno. done.
      * rewrite status_loopTest_other by done. apply Hh.
Qed.

Lemma run_sections_serial id cs : ∀ a a' h,
  exclusive a → holderIs a id h →
  disciplined cs a = true → run cs a = Some a' →
  serial h (sections id cs a) = true.
Proof.
  induction cs as [|c cs IH]; intros a a' h Hex Hh Hd Hrun; simpl in *; [done|].
  apply andb_true_iff in Hd as [Hob Hd].
  destruct (step c a) as [a1|] eqn:Hstep; [|done].
  pose proof (step_exclusive _ _ _ Hex Hob Hstep) as Hex1.
  destruct c as [g id0|g|g id0|g id0]; simpl in *.
  - destruct (status a g) eqn:Hst; try done. injection Hstep as <-.
    destruct (loopTest_sections a g id0 id h) as (h' & Hh' & Hser); [done| |done|].
    { intros id'. unfold holds. congruence. }
    apply Hser. by eapply IH.
  - destruct (status a g) as [| |id0|] eqn:Hst; try done. injection Hstep as <-.
    destruct (loopTest_sections a g id0 id h) as (h' & Hh' & Hser); [done| |done|].
    { intros id'. unfold holds. congruence. }
    assert (Heq : (if decide (Woken id0 = Woken id ∧ id ∉ busyContainerIDs a)
                   then [(true, g)] else [])
                  = if decide (id0 = id ∧ id ∉ busyContainerIDs a)
                    then [(true, g)] else []).
    { destruct (decide (id0 = id ∧ id ∉ busyContainerIDs a)) as [[-> ?]|Hno].
      - by rewrite decide_True.
      - rewrite decide_False; [done|]. intros [[= ->] ?]. by apply Hno. }
    rewrite Heq. apply Hser. by eapply IH.
  - apply bool_decide_eq_true in Hob. rewrite Hob in Hstep.
    rewrite decide_True in Hstep by done. injection Hstep as <-.
    destruct Hex as [Hbusy Huniq].
    destruct (decide (id0 = id)) as [->|Hne]; simpl.
    + destruct h as [g0|]; simpl in Hh; [|by apply Hh in Hob].
      assert (g0 = g) as -> by eauto.
      rewrite bool_decide_eq_true_2 by done. simpl.
      eapply IH; [done| |done..]. simpl. intros g1. unfold holds.
      rewrite status_unlock_holder. case_decide as Hg; [done|].
      intros Hw%wake_Holder. apply Hg. eauto.
    + eapply IH; [done| |done..].
      destruct h as [g0|]; simpl in *; unfold holds in *.
      * rewrite status_unlock_holder. case_decide as Hg.
        { subst. congruence. }
        by apply Holder_wake.
      * intros g1. rewrite status_unlock_holder. case_decide; [done|].
        intros Hw%wake_Holder. by eapply Hh.
  - assert (a1 = a) as ->.
    { destruct (status a g); try done; by injection Hstep as <-. }
    by eapply IH.
Qed.



(** With [overtaking], three requests for "c" arrive in the order 1, 2, 3
    and complete in the order 1, 3, 2. *)
Lemma overtaking_breaks_arrival_order : ¬ completeInArrivalOrder.
Proof.
  intros Hclaim.
  destruct (run overtaking newContainerAccessArbitrator) as [a|] eqn:Hrun;
    [|by vm_compute in Hrun].
  assert (Hd : disciplined overtaking newContainerAccessArbitrator = true)
    by (vm_compute; reflexivity).
  destruct (Hclaim overtaking a "c" Hrun Hd) as [k Hk].
  vm_compute in Hk. discriminate Hk.
Qed.

(** The arbitrator lets a request in between the two sections of a failed
    ADD: [rollbackOvertaken] is a run of disciplined handlers, and its
    sections for "c" are those of goroutines 1, 2 and 1 again. *)
Example rollback_can_be_overtaken :
  is_Some (run rollbackOvertaken newContainerAccessArbitrator)
  ∧ disciplined rollbackOvertaken newContainerAccessArbitrator = true
  ∧ sections "c" rollbackOvertaken newContainerAccessArbitrator
    = [ (true, 1%nat); (false, 1%nat); (true, 2%nat); (false, 2%nat);
        (true, 1%nat); (false, 1%nat) ].
Proof.
  split; [|split]; [|vm_compute; reflexivity..].
  destruct (run rollbackOvertaken newContainerAccessArbitrator) eqn:Hrun; [done|].
  by vm_compute in Hrun.
Qed.

(** C5, amended. Along every run of disciplined handlers and for every
    container id, the lock-held sections for that id are serial: each is
    closed by the goroutine that opened it before the next one opens.  The
    order of the sections is the order in which the lock is won. *)
Theorem sections_are_serial (cs : list call) (a : arbitrator) (id : string) :
  run cs newContainerAccessArbitrator = Some a →
  disciplined cs newContainerAccessArbitrator = true →
  serial None (sections id cs newContainerAccessArbitrator) = true.
Proof.
  intros Hrun Hd.
  eapply run_sections_serial; [apply exclusive_new| |done..].
  simpl. intros g. unfold holds, status. simpl. by rewrite lookup_empty.
Qed.

Lemma sections_are_serial_witness :
  run twoRequests newContainerAccessArbitrator = Some oneHoldsOneWaits
  ∧ disciplined twoRequests newContainerAccessArbitrator = true
  ∧ serial None (sections "c" twoRequests newContainerAccessArbitrator) = true.
Proof.
  assert (H1 : run twoRequests newContainerAccessArbitrator = Some oneHoldsOneWaits)
    by (vm_compute; reflexivity).
  assert (H2 : disciplined twoRequests newContainerAccessArbitrator = true)
    by (vm_compute; reflexivity).
  split; [exact H1|]. split; [exact H2|].
  exact (sections_are_serial _ _ "c" H1 H2).
Defined.

End ArbitratorFacts.

Section OVSConfigFacts.
Import OVSConfig.

Example GetOFPort_materialized :
  GetOFPort (answering [[]; [intfRow "if-1"]]) "p1" = Some (7, None).
Proof. reflexivity. Qed.

Example GetPortData_found :
  ∃ portData,
    GetPortData idListOfSet (answering [[portRow]; [intfRow "if-1"]]) "port-1" "p1"
    = Some (Some portData, None)
    ∧ Name portData = "p1" ∧ IFName portData = "p1" ∧ UUID portData = "port-1"
    ∧ OFPort portData = 7 ∧ ExternalIDs portData !! "pod-name" = Some "pod1".
Proof. eexists. split; [vm_compute; reflexivity|]. by vm_compute. Qed.

Example GetPortData_port_missing :
  GetPortData idListOfSet (answering [[]; [intfRow "if-1"]]) "port-1" "p1" = Some (None, None).
Proof. reflexivity. Qed.

Example GetPortData_port_and_interface_missing :
  GetPortData idListOfSet (answering [[]; []]) "port-1" "p1" = Some (None, None).
Proof. reflexivity. Qed.

(** C3, as stated, fails: when the ofport wait times out GetOFPort returns 0
    together with a transaction error, not 0 with a nil error. *)
Lemma GetOFPort_timeout_counterexample :
  GetOFPort waitTimesOut "p1" = Some (0, Some (NewTransactionError "timed out" true))
  ∧ GetOFPort waitTimesOut "p1" ≠ Some (0, None).
Proof. split; [reflexivity|discriminate]. Qed.

(** C3, amended. For every interface name GetOFPort commits one transaction
    of two operations, a wait on the ofport column of the Interface rows
    named ifName (timeout 1000 ms, until "!=" the empty set) followed by a
    select of that column.  Whenever the commit fails, a timed out wait
    included, it returns 0 together with the transaction error carrying the
    commit's temporary flag.  It returns a value with a nil error only when
    the commit succeeded and the first selected row carries that number. *)
Theorem GetOFPort_wait_then_select (br : OVSBridge) (ifName : string) :
  GetOFPort_tx ifName
  = [ Wait "Interface" 1000 ["ofport"] "!=" [[("ofport", DSet [])]]
           [Cond "name" "==" (DString ifName)];
      Select "Interface" ["ofport"] [Cond "name" "==" (DString ifName)] ]
  ∧ (∀ err temporary,
       ovsdb br (GetOFPort_tx ifName) = CommitFailed err temporary →
       GetOFPort br ifName = Some (0, Some (NewTransactionError err temporary)))
  ∧ (∀ ofport,
       GetOFPort br ifName = Some (ofport, None) →
       ∃ res rows r,
         ovsdb br (GetOFPort_tx ifName) = Committed res
         ∧ res !! 1%nat = Some rows ∧ rows !! 0%nat = Some r
         ∧ r !! "ofport" = Some (DNumber ofport)).
Proof.
  split; [reflexivity|]. split.
  - intros err temporary Hc. unfold GetOFPort. by rewrite Hc.
  - intros ofport Hg. unfold GetOFPort in Hg.
    destruct (ovsdb br (GetOFPort_tx ifName)) as [err t|res]; [done|].
    destruct (res !! 1%nat) as [rows|] eqn:Hrows; [|done]. simpl in Hg.
    destruct (rows !! 0%nat) as [r|] eqn:Hr; [|done]. simpl in Hg.
    destruct (r !! "ofport") as [[]|] eqn:Hof; simpl in Hg; try done.
    injection Hg as ->. eauto 10.
Qed.

(** C10. GetPortData treats its two lookups differently.  Once the commit
    has succeeded: if the Port select is empty it returns (nil, nil),
    whatever the Interface select holds; if the Port select is not empty
    and the Interface select is, or if the interface found is not among the
    port's interfaces, it returns nil with a permanent error
    (temporary = false).  Port data is only ever returned with a nil error,
    so a nil error alone does not tell "port missing" from success. *)
Theorem GetPortData_asymmetric
    (ids : datum → option (list string)) (br : OVSBridge) (portUUID ifName : string) :
  (∀ res,
     ovsdb br (GetPortData_tx portUUID ifName) = Committed (([] : list row) :: res) →
     GetPortData ids br portUUID ifName = Some (None, None))
  ∧ (∀ res port rows0,
       ovsdb br (GetPortData_tx portUUID ifName) = Committed ((port :: rows0) :: [] :: res) →
       ∃ e, GetPortData ids br portUUID ifName = Some (None, Some e) ∧ Temporary e = false)
  ∧ (∀ res port rows0 intf rows1 ifUUID ifaces ifUUIDList,
       ovsdb br (GetPortData_tx portUUID ifName)
         = Committed ((port :: rows0) :: (intf :: rows1) :: res) →
       uuidOf (intf !! "_uuid") = Some ifUUID →
       assertArray (port !! "interfaces") = Some ifaces →
       ids ifaces = Some ifUUIDList →
       ifUUID ∉ ifUUIDList →
       ∃ e, GetPortData ids br portUUID ifName = Some (None, Some e) ∧ Temporary e = false)
  ∧ (∀ portData e,
       GetPortData ids br portUUID ifName = Some (Some portData, e) → e = None).
Proof.
  unfold GetPortData. repeat split.
  - intros res ->. reflexivity.
  - intros res port rows0 ->. simpl. eexists. split; reflexivity.
  - intros res port rows0 intf rows1 ifUUID ifaces ifUUIDList -> Hu Ha Hi Hnin.
    simpl. rewrite Hu. simpl. rewrite Ha. simpl. rewrite Hi. simpl.
    rewrite bool_decide_eq_false_2 by done. eexists. split; reflexivity.
  - intros portData e Hg.
    destruct (ovsdb br (GetPortData_tx portUUID ifName)) as [err t|res]; [done|].
    repeat first
      [ done
      | match type of Hg with
        | context [decide ?P] => destruct (decide P)
        | context [bool_decide ?P] => destruct (bool_decide P)
        | context [mbind _ ?o] => destruct o; simpl in Hg
        end ].
    by injection Hg as _ <-.
Qed.

End OVSConfigFacts.

Section ResultFacts.
Import Net CNI Server.

Example updateResultIfaceConfig_sample :
  updateResultIfaceConfig sampleResult (Some (IPv4 192 168 1 1))
  = {| CNIVersion := "0.4.0";
       Interfaces := [];
       IPs := [ {| Version := "4"; Interface_ := Some 1;
                   Address := {| ip := IPv4 10 1 2 100; prefixLen := 24 |};
                   Gateway := Some (IPv4 10 1 2 1) |} ];
       Routes := Some [ {| Dst := {| ip := IPv4 10 0 0 0; prefixLen := 8 |};
                           GW := Some (IPv4 10 1 2 1) |};
                        {| Dst := {| ip := 0; prefixLen := 0 |};
                           GW := Some (IPv4 192 168 1 1) |} ];
       DNS_ := noDNS |}.
Proof. vm_compute. reflexivity. Qed.

Lemma foundDefaultRoute_false (routes : list Route) :
  existsb (λ route, bool_decide (IPNet_String (Dst route) = defaultRouteDst)) routes = false
  ↔ ∀ r, r ∈ routes → IPNet_String (Dst r) ≠ defaultRouteDst.
Proof.
  induction routes as [|r0 routes IH]; cbn [existsb].
  - split; [|done]. intros _ r Hr. by apply elem_of_nil in Hr.
  - rewrite orb_false_iff, IH, bool_decide_eq_false. split.
    + intros [H0 Hrest] r Hr. apply elem_of_cons in Hr as [->|Hr]; [exact H0|by apply Hrest].
    + intros Hall. split; [apply Hall; by left|intros r Hr; apply Hall; by right].
Qed.

(** C7. updateResultIfaceConfig keeps the addresses in place and, for each
    of them, sets the interface pointer to 1 and leaves version and address
    alone; a nil gateway becomes the network address (address and mask) plus
    one, a given gateway is kept.  If no route prints as "0.0.0.0/0" exactly
    one route is appended after the existing ones, to 0.0.0.0/0 via the
    gateway passed in; if one does, the routes are unchanged.  Version,
    interfaces and DNS of the result are untouched. *)
Theorem updateResultIfaceConfig_normalizes (result : Result) (defaultV4Gateway : option IP) :
  let result' := updateResultIfaceConfig result defaultV4Gateway in
  let routes := default [] (Routes result) in
  length (IPs result') = length (IPs result)
  ∧ (∀ (i : nat) ipc, IPs result !! i = Some ipc →
       ∃ ipc', IPs result' !! i = Some ipc'
         ∧ Interface_ ipc' = Some 1
         ∧ Version ipc' = Version ipc ∧ Address ipc' = Address ipc
         ∧ Gateway ipc' =
             match Gateway ipc with
             | None => Some (Z.land (ip (Address ipc)) (maskBits (prefixLen (Address ipc))) + 1)
             | Some gw => Some gw
             end)
  ∧ ((∀ r, r ∈ routes → IPNet_String (Dst r) ≠ "0.0.0.0/0") →
       Routes result'
       = Some (routes ++ [{| Dst := {| ip := 0; prefixLen := 0 |}; GW := defaultV4Gateway |}]))
  ∧ ((∃ r, r ∈ routes ∧ IPNet_String (Dst r) = "0.0.0.0/0") → Routes result' = Some routes)
  ∧ IPNet_String {| ip := 0; prefixLen := 0 |} = "0.0.0.0/0"
  ∧ CNIVersion result' = CNIVersion result
  ∧ Interfaces result' = Interfaces result
  ∧ DNS_ result' = DNS_ result.
Proof.
  intros result' routes. subst result' routes.
  unfold updateResultIfaceConfig. cbn [IPs Routes CNIVersion Interfaces DNS_].
  split; [by rewrite length_map|]. split.
  { intros i ipc Hi. exists (updateIPConfig ipc). split.
    - by rewrite list_lookup_fmap, Hi.
    - unfold updateIPConfig, Mask, NextIP.
      cbn [Interface_ Version Address Gateway]. by destruct (Gateway ipc). }
  split; [|split; [|split; [vm_compute; reflexivity|tauto]]].
  - intros Hnone. apply foundDefaultRoute_false in Hnone.
    destruct (Routes result) as [rs|];
      cbv beta iota delta [default from_option id] in *; [by rewrite Hnone|reflexivity].
  - intros (r & Hr & Hdst).
    destruct (Routes result) as [rs|];
      cbv beta iota delta [default from_option id] in *; [|by apply elem_of_nil in Hr].
    destruct (existsb _ rs) eqn:Hex; [reflexivity|].
    pose proof (proj1 (foundDefaultRoute_false rs) Hex) as Hall.
    by apply Hall in Hr.
Qed.

End ResultFacts.

Section InterfaceStoreFacts.
Import Server InterfaceStore.

Variables kContainerID kMAC kIP kPodName kPodNamespace : string.

Abbreviation recordOf := (recordOfPort kContainerID kMAC kIP kPodName kPodNamespace).
Abbreviation load := (loadPort kContainerID kMAC kIP kPodName kPodNamespace).
Abbreviation isTagged := (tagged kContainerID kMAC kIP kPodName kPodNamespace).

Lemma recordOf_name port config :
  recordOf port = Some config → IfaceName config = OVSConfig.Name port.
Proof.
  unfold recordOfPort. destruct (_ !! kContainerID); [|done].
  case_decide; [done|]. by intros [= <-].
Qed.

Lemma tagged_true port : isTagged port = true ↔ is_Some (recordOf port).
Proof. unfold tagged. apply bool_decide_eq_true. Qed.

Lemma filter_tagged_snoc ports port :
  filter (λ p, isTagged p = true) (ports ++ [port])
  = filter (λ p, isTagged p = true) ports
    ++ (if isTagged port then [port] else []).
Proof.
  rewrite filter_app. f_equal. rewrite filter_cons, filter_nil.
  destruct (isTagged port); by case_decide.
Qed.

Lemma loaded_from_row ports : ∀ name config,
  foldl load ∅ ports !! name = Some config →
  ∃ port, port ∈ ports ∧ recordOf port = Some config ∧ OVSConfig.Name port = name.
Proof.
  induction ports as [|port ports IH] using rev_ind; intros name config.
  - simpl. by rewrite lookup_empty.
  - rewrite foldl_snoc. unfold loadPort at 1.
    destruct (recordOf port) as [c|] eqn:Hrec.
    + pose proof (recordOf_name _ _ Hrec) as Hname.
      destruct (decide (IfaceName c = name)) as [<-|Hne].
      * rewrite lookup_insert_eq. intros [= <-]. exists port.
        split; [apply elem_of_app; right; by apply list_elem_of_singleton|done].
      * rewrite lookup_insert_ne by done. intros (p & Hp & ?)%IH.
        exists p. split; [apply elem_of_app; by left|done].
    + intros (p & Hp & ?)%IH. exists p. split; [apply elem_of_app; by left|done].
Qed.

Lemma loaded_one_per_row ports :
  NoDup (OVSConfig.Name <$> filter (λ p, isTagged p = true) ports) →
  size (foldl load ∅ ports) = length (filter (λ p, isTagged p = true) ports)
  ∧ ∀ port config, port ∈ ports → recordOf port = Some config →
      foldl load ∅ ports !! OVSConfig.Name port = Some config.
Proof.
  induction ports as [|port ports IH] using rev_ind.
  - intros _. split; [done|]. intros port config Hin. by apply elem_of_nil in Hin.
  - rewrite filter_tagged_snoc, fmap_app, foldl_snoc. intros Hnd.
    apply NoDup_app in Hnd as (Hnd & Hfresh & _).
    destruct (IH Hnd) as [Hsize Hall]. unfold loadPort at 1 3.
    destruct (recordOf port) as [c|] eqn:Hrec.
    + pose proof (recordOf_name _ _ Hrec) as Hname.
      assert (Htag : isTagged port = true) by (apply tagged_true; by rewrite Hrec).
      rewrite Htag in *. simpl in Hfresh.
      assert (Hnone : foldl load ∅ ports !! IfaceName c = None).
      { destruct (foldl load ∅ ports !! IfaceName c) as [c'|] eqn:Hl; [|done].
        apply loaded_from_row in Hl as (p & Hp & Hrp & Hnp).
        exfalso. apply (Hfresh (OVSConfig.Name p)).
        - apply list_elem_of_fmap. exists p. split; [done|].
          apply list_elem_of_filter. split; [|done]. apply tagged_true. by rewrite Hrp.
        - rewrite Hnp, Hname. by apply list_elem_of_singleton. }
      split.
      * rewrite map_size_insert_None by done. rewrite length_app, Hsize. simpl. lia.
      * intros p config [Hp|Hp%list_elem_of_singleton]%elem_of_app Hrp.
        -- rewrite lookup_insert_ne; [by apply Hall|].
           intros Heq. apply (Hfresh (OVSConfig.Name p)).
           ++ apply list_elem_of_fmap. exists p. split; [done|].
              apply list_elem_of_filter. split; [|done]. apply tagged_true. by rewrite Hrp.
           ++ rewrite <- Heq, Hname. by apply list_elem_of_singleton.
        -- subst p. rewrite Hrec in Hrp. injection Hrp as <-.
           rewrite <- Hname. apply lookup_insert_eq.
    + assert (Htag : isTagged port = false).
      { destruct (isTagged port) eqn:Ht; [|done].
        apply tagged_true in Ht. rewrite Hrec in Ht. by destruct Ht. }
      rewrite Htag. split.
      * rewrite length_app, Hsize. simpl. lia.
      * intros p config [Hp|Hp%list_elem_of_singleton]%elem_of_app Hrp; [by apply Hall|].
        subst p. congruence.
Qed.

(** C6. Initialize, on what the port list call returned.  With an error the
    store ends empty (Len 0) and the error is returned, whatever ports came
    with it and whatever the store held.  Without one the result does not
    depend on what the store held (it is emptied first) and no error is
    returned; every record in it was rebuilt from a port row carrying a
    non-empty container id and sits under that row's name; and, the names of
    such rows being distinct, there are exactly as many records as such
    rows, each row's record being found under its name.  A row yields a
    record exactly when its external-IDs hold a non-empty container id; the
    record takes container id, pod name, pod namespace, MAC and IP from the
    external-IDs and OFPort and UUID from the row. *)
Theorem Initialize_rebuilds_store
    (ovsPorts : list OVSConfig.OVSPortData) (uplinkIfName gatewayIfName : string)
    (cache : gmap string InterfaceConfig) :
  let Init := λ ports err,
    Initialize kContainerID kMAC kIP kPodName kPodNamespace ports err uplinkIfName gatewayIfName in
  let rows := filter (λ p, isTagged p = true) ovsPorts in
  (∀ err, Init ovsPorts (Some err) cache = (∅, Some err) ∧ Len (Init ovsPorts (Some err) cache).1 = 0%nat)
  ∧ Init ovsPorts None cache = Init ovsPorts None ∅
  ∧ (Init ovsPorts None cache).2 = None
  ∧ (∀ name config,
       GetInterface (Init ovsPorts None cache).1 name = Some config →
       ∃ port, port ∈ rows ∧ recordOf port = Some config ∧ OVSConfig.Name port = name)
  ∧ (NoDup (OVSConfig.Name <$> rows) →
       Len (Init ovsPorts None cache).1 = length rows
       ∧ ∀ port, port ∈ rows →
           ∃ config, recordOf port = Some config
             ∧ GetInterface (Init ovsPorts None cache).1 (OVSConfig.Name port) = Some config)
  ∧ (∀ port, port ∈ rows ↔
       port ∈ ovsPorts ∧ ∃ containerID,
         OVSConfig.ExternalIDs port !! kContainerID = Some containerID ∧ containerID ≠ "")
  ∧ (∀ port config, recordOf port = Some config →
       OVSConfig.ExternalIDs port !! kContainerID = Some (ID config)
       ∧ PodName config = default "" (OVSConfig.ExternalIDs port !! kPodName)
       ∧ PodNamespace config = default "" (OVSConfig.ExternalIDs port !! kPodNamespace)
       ∧ MAC config = default "" (OVSConfig.ExternalIDs port !! kMAC)
       ∧ IC_IP config = default "" (OVSConfig.ExternalIDs port !! kIP)
       ∧ OFPort config = OVSConfig.OFPort port
       ∧ PortUUID config = OVSConfig.UUID port).
Proof.
  intros Init rows. subst Init rows. unfold Initialize, Len, GetInterface. simpl.
  assert (Hrows : ∀ port, isTagged port = true ↔
            ∃ containerID, OVSConfig.ExternalIDs port !! kContainerID = Some containerID
                           ∧ containerID ≠ "").
  { intros port. rewrite tagged_true. unfold recordOfPort.
    destruct (_ !! kContainerID) as [cid|].
    - case_decide as Hc.
      + split; [by intros [? ?]|]. intros (c & [= <-] & Hne). by destruct Hne.
      + split; [intros _; eauto|]. intros _. eauto.
    - split; [by intros [? ?]|]. by intros (c & ? & _). }
  split; [intros err; split; [done|apply map_size_empty]|].
  split; [done|]. split; [done|]. split; [|split; [|split]].
  - intros name config Hl. apply loaded_from_row in Hl as (port & Hp & Hrec & Hn).
    exists port. split; [|done]. apply list_elem_of_filter. split; [|done].
    apply tagged_true. by rewrite Hrec.
  - intros Hnd. destruct (loaded_one_per_row ovsPorts Hnd) as [Hsize Hall].
    split; [done|]. intros port [Ht Hp]%list_elem_of_filter.
    apply tagged_true in Ht as [config Hrec]. exists config. split; [done|]. by apply Hall.
  - intros port. rewrite list_elem_of_filter, Hrows. tauto.
  - intros port config. unfold recordOfPort.
    destruct (_ !! kContainerID) as [cid|]; [|done].
    case_decide; [done|]. intros [= <-]. simpl. tauto.
Qed.

Example Initialize_with_error :
  testInitialize [ovsPort1; ovsPort2]
    (Some (OVSConfig.NewTransactionError "Failed to list OVS ports" true)) "" "" NewInterfaceStore
  = (∅, Some (OVSConfig.NewTransactionError "Failed to list OVS ports" true)).
Proof. reflexivity. Qed.

Example Initialize_with_two_ports :
  let cache := (testInitialize [ovsPort1; gatewayPort; ovsPort2] None "" "" NewInterfaceStore).1 in
  Len cache = 2%nat
  ∧ GetInterface cache "gw0" = None
  ∧ GetInterface cache "p1"
    = Some {| ID := "c1"; IfaceName := "p1"; IC_IP := "1.1.1.1"; MAC := "11:22:33:44:55:66";
              PortUUID := "uuid-p1"; OFPort := 1; PodName := "pod1"; PodNamespace := "test";
              NetNS := "" |}.
Proof. vm_compute. done. Qed.

End InterfaceStoreFacts.

Lemma busy_released (id : string) (busy : gset string) :
  id ∉ busy → ({[id]} ∪ busy) ∖ {[id]} = busy.
Proof.
  intros Hfree. apply set_eq. intros x.
  rewrite elem_of_difference, elem_of_union, elem_of_singleton.
  split; [tauto|]. intros Hx. split; [tauto|congruence].
Qed.

Lemma not_busy_released (id : string) (busy : gset string) :
  id ∉ ({[id]} ∪ busy) ∖ {[id]}.
Proof. rewrite elem_of_difference, elem_of_singleton. tauto. Qed.

Section ServerFacts.
Import Net CNI Server.

Context {W : Type} (E : Collaborators W) (s : CNIServer).

Lemma updateLocalIPAMSubnet_erases (nc1 nc2 : NetworkConfig) (args1 args2 : CniCmdArgs)
    (k8s : k8sArgs) :
  sameButSubnetAndGateway nc1 nc2 →
  sameButNetworkConfiguration args1 args2 →
  updateLocalIPAMSubnet E s {| networkConfig := nc1; cniCmdArgs := args1; k8sArgs_ := k8s |}
  = updateLocalIPAMSubnet E s {| networkConfig := nc2; cniCmdArgs := args2; k8sArgs_ := k8s |}.
Proof.
  intros (Hv & Hn & Ht & Hm & Hd & Hty & Hr & Hraw & Hprev) (Hc & Hns & Hif & Ha & Hp).
  unfold updateLocalIPAMSubnet. cbn [networkConfig cniCmdArgs k8sArgs_].
  by rewrite Hv, Hn, Ht, Hm, Hd, Hty, Hr, Hraw, Hprev, Hc, Hns, Hif, Ha, Hp.
Qed.

Lemma handlers_read_loaded_config (args1 args2 : CniCmdArgs) :
  loadNetworkConfig E s args1 = loadNetworkConfig E s args2 →
  ∀ st, CmdAdd E s args1 st = CmdAdd E s args2 st
        ∧ CmdDel E s args1 st = CmdDel E s args2 st
        ∧ CmdCheck E s args1 st = CmdCheck E s args2 st.
Proof.
  intros Hload st. unfold CmdAdd, CmdDel, CmdCheck, checkRequestMessage.
  by rewrite Hload.
Qed.

(** C9. Two requests that are the same but for the ipam.subnet and
    ipam.gateway of their network configuration load to the same
    configuration, with the same re-encoded bytes in the arguments that are
    passed to the IPAM driver, and ADD, DEL and CHECK run identically on
    them.  In whatever loads, ipam.subnet is the node's pod CIDR and
    ipam.gateway the node's gateway IP, and the arguments carry the encoding
    of that configuration (before the default MTU is filled in). *)
Theorem ipam_subnet_and_gateway_overwritten
    (args1 args2 : CniCmdArgs) (nc1 nc2 : NetworkConfig) :
  sameButNetworkConfiguration args1 args2 →
  json_Unmarshal E (NetworkConfiguration args1) = Some nc1 →
  json_Unmarshal E (NetworkConfiguration args2) = Some nc2 →
  sameButSubnetAndGateway nc1 nc2 →
  loadNetworkConfig E s args1 = loadNetworkConfig E s args2
  ∧ (∀ st, CmdAdd E s args1 st = CmdAdd E s args2 st
           ∧ CmdDel E s args1 st = CmdDel E s args2 st
           ∧ CmdCheck E s args1 st = CmdCheck E s args2 st)
  ∧ (∀ cniConfig, loadNetworkConfig E s args1 = Some cniConfig →
       Subnet (IPAM (networkConfig cniConfig)) = IPNet_String (PodCIDR (nodeConfig s))
       ∧ Gateway_ (IPAM (networkConfig cniConfig))
         = IP_String (GatewayIP (NodeGateway (nodeConfig s)))
       ∧ ∃ nc, NetworkConfiguration (cniCmdArgs cniConfig) = json_Marshal E nc
           ∧ Subnet (IPAM nc) = IPNet_String (PodCIDR (nodeConfig s))
           ∧ Gateway_ (IPAM nc) = IP_String (GatewayIP (NodeGateway (nodeConfig s)))
           ∧ sameButSubnetAndGateway nc nc1).
Proof.
  intros Hargs Hu1 Hu2 Hnc.
  assert (Hload : loadNetworkConfig E s args1 = loadNetworkConfig E s args2).
  { unfold loadNetworkConfig. rewrite Hu1, Hu2. cbn [mbind option_bind].
    destruct Hargs as (Hc & Hns & Hif & Ha & Hp). rewrite Ha.
    destruct (LoadArgs E (Args args2)) as [k8s|]; [|done]. cbn [mbind option_bind].
    by rewrite (updateLocalIPAMSubnet_erases nc1 nc2 args1 args2 k8s). }
  split; [done|]. split; [by apply handlers_read_loaded_config|].
  intros cniConfig. unfold loadNetworkConfig. rewrite Hu1. cbn [mbind option_bind].
  destruct (LoadArgs E (Args args1)) as [k8s|]; [|done]. cbn [mbind option_bind].
  intros [= <-].
  assert (Hsame : sameButSubnetAndGateway
            (networkConfig (updateLocalIPAMSubnet E s
               {| networkConfig := nc1; cniCmdArgs := args1; k8sArgs_ := k8s |})) nc1).
  { unfold updateLocalIPAMSubnet, sameButSubnetAndGateway.
    cbn [networkConfig NC_CNIVersion NC_Name NC_Type MTU NC_DNS IPAM Type_ Rest
         RawPrevResult PrevResult]. tauto. }
  case_decide; unfold withMTU, updateLocalIPAMSubnet in *;
    cbn [networkConfig cniCmdArgs IPAM Subnet Gateway_ NetworkConfiguration] in *;
    (split; [done|]); (split; [done|]); eexists; (split; [reflexivity|]);
    cbn [IPAM Subnet Gateway_]; done.
Qed.

Lemma klog_world level format (st : state W) : world (klog level format st) = world st.
Proof. reflexivity. Qed.

Lemma findInterfaces_last (ifname hostVethName : string) (interfaces : list Interface)
    (st : state W) :
  ∃ st',
    findInterfaces ifname hostVethName interfaces st
    = (st', (last (filter (λ intf, Name intf = ifname) interfaces),
             last (filter (λ intf, Name intf ≠ ifname ∧ Name intf = hostVethName) interfaces)))
    ∧ world st' = world st.
Proof.
  unfold findInterfaces.
  induction interfaces as [|intf interfaces IH] using rev_ind.
  - exists st. by rewrite !filter_nil.
  - destruct IH as (st' & IH & Hw). rewrite foldl_snoc, IH, !filter_app.
    rewrite !filter_cons, !filter_nil.
    destruct (decide (Name intf = ifname)) as [Hc|Hc].
    + exists st'. split; [|done]. rewrite last_snoc.
      rewrite decide_False by tauto. by rewrite app_nil_r.
    + destruct (decide (Name intf = hostVethName)) as [Hh|Hh].
      * exists st'. split; [|done]. rewrite decide_True by tauto.
        by rewrite last_snoc, app_nil_r.
      * eexists. split; [|by rewrite klog_world].
        rewrite decide_False by tauto. by rewrite !app_nil_r.
Qed.

(** C4, amended. validatePrevResult, which CHECK runs on a parsed prevResult
    when the CNI version is at least 0.4.0, takes as container interface
    the last interface of prevResult named ifname and as host interface the
    last one with the deterministic host name (and another name than
    ifname).  If either is missing its response carries
    INVALID_NETWORK_CONFIG; if both are there and checkInterfaces reports a
    disagreement with the store, it carries CHECK_INTERFACE_FAILURE with
    that error; otherwise it is the empty success.  The Go error it returns
    is always nil. *)
Theorem validatePrevResult_codes
    (cfgArgs : CniCmdArgs) (k8sCNIArgs : k8sArgs) (prevResult : Result) (st : state W) :
  let hostVethName :=
    GenerateContainerInterfaceName E (K8S_POD_NAME k8sCNIArgs) (K8S_POD_NAMESPACE k8sCNIArgs) in
  let containerIntf :=
    last (filter (λ intf, Name intf = Ifname cfgArgs) (Interfaces prevResult)) in
  let hostIntf :=
    last (filter (λ intf, Name intf ≠ Ifname cfgArgs ∧ Name intf = hostVethName)
            (Interfaces prevResult)) in
  let answer := (validatePrevResult E s cfgArgs k8sCNIArgs prevResult st).2 in
  answer.2 = None
  ∧ match containerIntf, hostIntf with
    | Some containerIntf, Some hostIntf =>
        match checkInterfaces E (ContainerId cfgArgs) (hostNetNsPath s (Netns cfgArgs))
                containerIntf hostIntf hostVethName prevResult (world st) with
        | Some err =>
            answer.1 = checkInterfaceFailureResponse err
            ∧ Code <$> Error_ answer.1 = Some CHECK_INTERFACE_FAILURE
        | None => answer.1 = resultResponse ""
        end
    | _, _ =>
        answer.1 = invalidNetworkConfigResponse "prevResult does not match network configuration"
        ∧ Code <$> Error_ answer.1 = Some INVALID_NETWORK_CONFIG
    end.
Proof.
  intros hostVethName containerIntf hostIntf answer.
  subst answer containerIntf hostIntf. unfold validatePrevResult.
  fold hostVethName.
  destruct (findInterfaces_last (Ifname cfgArgs) hostVethName (Interfaces prevResult) st)
    as (st' & -> & Hw).
  destruct (last (filter (λ intf, Name intf = Ifname cfgArgs) (Interfaces prevResult)))
    as [c|]; [|done].
  destruct (last (filter (λ intf, Name intf ≠ Ifname cfgArgs ∧ Name intf = hostVethName)
                    (Interfaces prevResult))) as [h|]; [|done].
  rewrite Hw.
  by destruct (checkInterfaces E _ _ c h hostVethName prevResult (world st)).
Qed.

Lemma checkRequestMessage_passes (args : CniCmdArgs) (cniConfig : CNIConfig) :
  loadNetworkConfig E s args = Some cniConfig →
  isCNIVersionSupported s (NC_CNIVersion (networkConfig cniConfig)) = true →
  IsIPAMTypeValid E (Type_ (IPAM (networkConfig cniConfig))) = true →
  ∀ st : state W, checkRequestMessage E s args st = (st, inl cniConfig).
Proof.
  intros Hload Hv Hi st. unfold checkRequestMessage. by rewrite Hload, Hv, Hi.
Qed.

Lemma addInterface_outcome (cniConfig : CNIConfig) (st st1 : state W) success response :
  addInterface E s cniConfig st = (st1, success, response) →
  busyContainerIDs st1 = busyContainerIDs st
  ∧ (success = false →
       ∃ err, response = ipamFailureResponse err ∨ response = configInterfaceFailureResponse err).
Proof.
  unfold addInterface.
  destruct (ExecIPAMAdd E _ _ _) as [w [err|ipamResult]].
  - intros [= <- <- <-]. split; [done|]. intros _. exists err. by left.
  - destruct (configureInterface E _ _ _ _ _ _ _ _ _) as [w' [err|result]].
    + intros [= <- <- <-]. split; [done|]. intros _. exists err. by right.
    + intros [= <- <- <-]. split; [done|]. done.
Qed.

(** C1, amended. An ADD that passes validation (its request still does
    once checkRequestMessage has rewritten it), gets the container, and
    then fails at the IPAM add or while configuring the interface: CmdAdd
    returns, with a nil Go error, the response of the failure, which carries
    IPAM_FAILURE or CONFIG_INTERFACE_FAILURE with the original error.
    Before that it has released the container and run CmdDel on the request:
    a warning is logged, the IPAM delete is called and, only if it
    succeeds, removeInterfaces is called with the Pod, container,
    namespace path and interface of the request.  An error of either is
    logged and ends the rollback; the state the collaborators are left in is
    the one these calls produce, and the container is free again. *)
Theorem CmdAdd_rolls_back
    (args : CniCmdArgs) (cniConfig : CNIConfig) (st st1 : state W) (response : CniCmdResponse) :
  let cniArgs := cniCmdArgs cniConfig in
  let containerID := ContainerId cniArgs in
  let ipamType := Type_ (IPAM (networkConfig cniConfig)) in
  let podName := K8S_POD_NAME (k8sArgs_ cniConfig) in
  let podNamespace := K8S_POD_NAMESPACE (k8sArgs_ cniConfig) in
  let netNS := hostNetNsPath s (Netns cniArgs) in
  loadNetworkConfig E s args = Some cniConfig →
  loadNetworkConfig E s cniArgs = Some cniConfig →
  isCNIVersionSupported s (NC_CNIVersion (networkConfig cniConfig)) = true →
  IsIPAMTypeValid E ipamType = true →
  containerID ∉ busyContainerIDs st →
  addInterface E s cniConfig
    {| busyContainerIDs := {[containerID]} ∪ busyContainerIDs st;
       world := world st; journal := journal st |} = (st1, false, response) →
  ∃ st',
    CmdAdd E s args st = Some (st', (response, None))
    ∧ (∃ err, response = ipamFailureResponse err ∨ response = configInterfaceFailureResponse err)
    ∧ busyContainerIDs st' = busyContainerIDs st
    ∧ let released := ExecIPAMDelete E cniArgs ipamType (world st1) in
      let rollback :=
        journal st1 ++ [ Logged Warning "CmdAdd has failed, and try to rollback";
                         IPAMDelete cniArgs ipamType ] in
      match released.2 with
      | Some _ =>
          world st' = released.1
          ∧ journal st'
            = rollback ++ [Logged Errorf "Failed to delete IP addresses by IPAM driver: %v"]
      | None =>
          let removed :=
            removeInterfaces E podName podNamespace containerID netNS (Ifname cniArgs)
              released.1 in
          world st' = removed.1
          ∧ journal st'
            = rollback
              ++ [RemoveInterfaces podName podNamespace containerID netNS (Ifname cniArgs)]
              ++ match removed.2 with
                 | Some _ =>
                     [Logged Errorf "Failed to remove container %s interface configuration: %v"]
                 | None => []
                 end
      end.
Proof.
  intros cniArgs containerID ipamType podName podNamespace netNS
    Hload Hload' Hv Hi Hfree Hadd.
  destruct (addInterface_outcome _ _ _ _ _ Hadd) as [Hbusy Hresp].
  cbn [busyContainerIDs] in Hbusy.
  unfold CmdAdd. rewrite (checkRequestMessage_passes _ _ Hload Hv Hi).
  fold cniArgs containerID. unfold lockContainer at 1.
  rewrite decide_False by done. cbn [mbind option_bind]. rewrite Hadd.
  unfold CmdDel. rewrite (checkRequestMessage_passes _ _ Hload' Hv Hi).
  fold cniArgs containerID ipamType podName podNamespace netNS.
  unfold lockContainer. cbn [klog unlockContainer busyContainerIDs world journal].
  rewrite decide_False by (rewrite Hbusy; apply not_busy_released).
  cbn [mbind option_bind busyContainerIDs world journal].
  assert (Hback : ({[containerID]} ∪ busyContainerIDs st1 ∖ {[containerID]}) ∖ {[containerID]}
                  = busyContainerIDs st).
  { rewrite Hbusy. by rewrite !busy_released by (done || apply not_busy_released). }
  destruct (ExecIPAMDelete E cniArgs ipamType (world st1)) as [w1 [err1|]] eqn:Hdel;
    cbn [fst snd].
  - eexists. split; [reflexivity|]. split; [exact (Hresp eq_refl)|].
    cbn [klog record unlockContainer busyContainerIDs world journal].
    split; [exact Hback|]. split; [done|]. by rewrite <- !app_assoc.
  - cbn [record world].
    destruct (removeInterfaces E podName podNamespace containerID netNS (Ifname cniArgs) w1)
      as [w2 [err2|]] eqn:Hrem; cbn [fst snd].
    + eexists. split; [reflexivity|]. split; [exact (Hresp eq_refl)|].
      cbn [klog record unlockContainer busyContainerIDs world journal].
      split; [exact Hback|]. split; [done|]. by rewrite <- !app_assoc.
    + eexists. split; [reflexivity|]. split; [exact (Hresp eq_refl)|].
      cbn [klog record unlockContainer busyContainerIDs world journal].
      split; [exact Hback|]. split; [done|].
      by rewrite <- !app_assoc, app_nil_r.
Qed.

Lemma validatePrevResult_err_nil
    (cfgArgs : CniCmdArgs) (k8sCNIArgs : k8sArgs) (prevResult : Result) (st : state W) :
  (validatePrevResult E s cfgArgs k8sCNIArgs prevResult st).2.2 = None.
Proof.
  unfold validatePrevResult.
  destruct (findInterfaces _ _ _ st) as [st' [[c|] [h|]]]; try done.
  by destruct (checkInterfaces E _ _ c h _ prevResult (world st')).
Qed.

(** What CmdCheck makes of validatePrevResult: it tests the Go error, which
    is always nil, so whatever response validatePrevResult computed, the
    request is answered with the empty success. *)
Lemma CmdCheck_drops_validation (args : CniCmdArgs) (cniConfig : CNIConfig)
    (st : state W) (prevResult : Result) :
  let cniArgs := cniCmdArgs cniConfig in
  let nc := networkConfig cniConfig in
  loadNetworkConfig E s args = Some cniConfig →
  isCNIVersionSupported s (NC_CNIVersion nc) = true →
  IsIPAMTypeValid E (Type_ (IPAM nc)) = true →
  ContainerId cniArgs ∉ busyContainerIDs st →
  (ExecIPAMCheck E cniArgs (Type_ (IPAM nc)) (world st)).2 = None →
  GreaterThanOrEqualTo E (NC_CNIVersion nc) "0.4.0" = true →
  (∀ st', (parsePrevResultFromRequest E nc st').2 = inl prevResult) →
  ∃ st', CmdCheck E s args st = Some (st', (resultResponse "", None)).
Proof.
  intros cniArgs nc Hload Hv Hi Hfree Hcheck Hge Hprev.
  unfold CmdCheck. rewrite (checkRequestMessage_passes _ _ Hload Hv Hi).
  fold cniArgs nc. unfold lockContainer. rewrite decide_False by done.
  cbn [mbind option_bind world].
  destruct (ExecIPAMCheck E cniArgs (Type_ (IPAM nc)) (world st)) as [w err].
  cbn [snd] in Hcheck. subst err. rewrite Hge.
  match goal with
  | |- context [parsePrevResultFromRequest E nc ?st0] =>
      pose proof (Hprev st0) as Hp;
      destruct (parsePrevResultFromRequest E nc st0) as [st1 parsed]
  end.
  cbn [snd] in Hp. subst parsed.
  pose proof (validatePrevResult_err_nil cniArgs (k8sArgs_ cniConfig) prevResult st1) as Hnil.
  destruct (validatePrevResult E s cniArgs (k8sArgs_ cniConfig) prevResult st1)
    as [st2 [response err]].
  cbn [fst snd] in Hnil. subst err. by eexists.
Qed.

(** reconcile returns an error exactly when listing the Pods fails, and then
    leaves the state as it found it. *)
Lemma reconcile_error (st : state W) :
  match ListPods E ("spec.nodeName=" +:+ NodeName (nodeConfig s)) (world st) with
  | inl err => ∃ msg, reconcile E s st = (st, Some msg)
  | inr pods => (reconcile E s st).2 = None
  end.
Proof.
  unfold reconcile. destruct (ListPods E _ _) as [err|pods]; [by eexists|].
  by destruct (foldl _ _ pods).
Qed.

(** The second loop of reconcile calls removeInterfaces for an interface
    exactly when it is not desired and its record, as the store has it at
    that moment, carries a Pod name; the error of the call is dropped. *)
Lemma cleanInterface_detaches (desiredInterfaces : gset string) (st : state W) (ifaceID : string) :
  cleanInterface E desiredInterfaces st ifaceID
  = match GetInterface E ifaceID (world st) with
    | Some containerConfig =>
        if decide ((ifaceID ∉ desiredInterfaces) ∧ PodName containerConfig ≠ "")
        then record (RemoveInterfaces (PodName containerConfig) (PodNamespace containerConfig)
                       (ID containerConfig) "" "")
               (removeInterfaces E (PodName containerConfig) (PodNamespace containerConfig)
                  (ID containerConfig) "" "" (world st)).1 st
        else st
    | None =>
        if decide (ifaceID ∈ desiredInterfaces) then st
        else klog Errorf "Interface %s can no longer be found in the interface store" st
    end.
Proof.
  unfold cleanInterface.
  destruct (decide (ifaceID ∈ desiredInterfaces)) as [Hin|Hnin].
  - destruct (GetInterface E ifaceID (world st)); [|done].
    rewrite decide_False; [done|]. tauto.
  - destruct (GetInterface E ifaceID (world st)) as [c|]; [|done].
    destruct (decide (PodName c = "")) as [Hp|Hp].
    + rewrite decide_False; [done|]. tauto.
    + rewrite decide_True by tauto. by destruct (removeInterfaces E _ _ _ _ _ _).
Qed.

End ServerFacts.

Section NodeFacts.
Import Net CNI Server Node.

(** Decide a closed proposition by evaluation. *)
Ltac by_evaluation := apply (bool_decide_unpack _); vm_compute; exact I.

Lemma ipam_subnet_and_gateway_overwritten_witness :
  sameButNetworkConfiguration (request "sent") (request "sent-other-subnet")
  ∧ json_Unmarshal collaborators (NetworkConfiguration (request "sent")) = Some sentConfig
  ∧ json_Unmarshal collaborators (NetworkConfiguration (request "sent-other-subnet"))
    = Some (withIPAM sentConfig "172.16.0.0/16" "172.16.0.1")
  ∧ sameButSubnetAndGateway sentConfig (withIPAM sentConfig "172.16.0.0/16" "172.16.0.1")
  ∧ loadNetworkConfig collaborators server (request "sent")
    = loadNetworkConfig collaborators server (request "sent-other-subnet").
Proof.
  assert (H1 : sameButNetworkConfiguration (request "sent") (request "sent-other-subnet"))
    by (repeat split).
  assert (H2 : json_Unmarshal collaborators (NetworkConfiguration (request "sent"))
               = Some sentConfig) by (vm_compute; reflexivity).
  assert (H3 : json_Unmarshal collaborators (NetworkConfiguration (request "sent-other-subnet"))
               = Some (withIPAM sentConfig "172.16.0.0/16" "172.16.0.1"))
    by (vm_compute; reflexivity).
  assert (H4 : sameButSubnetAndGateway sentConfig
                 (withIPAM sentConfig "172.16.0.0/16" "172.16.0.1")) by (repeat split).
  split; [exact H1|]. split; [exact H2|]. split; [exact H3|]. split; [exact H4|].
  exact (proj1 (ipam_subnet_and_gateway_overwritten collaborators server _ _ _ _ H1 H2 H3 H4)).
Defined.

(** C4, as stated, fails.  A CHECK with CNI version 0.4.0 whose prevResult
    parses and names no interface: validatePrevResult answers
    INVALID_NETWORK_CONFIG, and the response of CmdCheck carries no error at
    all, in particular not CHECK_INTERFACE_FAILURE. *)
Lemma check_missing_interface_counterexample :
  NC_CNIVersion (withPrevResult sentConfig "prev") = "0.4.0"
  ∧ json_Unmarshal collaborators (NetworkConfiguration (request "check"))
    = Some (withPrevResult sentConfig "prev")
  ∧ (∃ nc st, (parsePrevResultFromRequest collaborators nc st).2 = inl prevWithoutInterfaces
       ∧ loadNetworkConfig collaborators server (request "check")
         = Some {| networkConfig := nc; cniCmdArgs := request "check-rewritten";
                   k8sArgs_ := k8sArgs_ sentCniConfig |})
  ∧ Interfaces prevWithoutInterfaces = []
  ∧ Code <$> Error_ (validatePrevResult collaborators server (request "check-rewritten")
                       (k8sArgs_ sentCniConfig) prevWithoutInterfaces
                       (start (emptyNode ∅))).2.1
    = Some INVALID_NETWORK_CONFIG
  ∧ (∃ st, CmdCheck collaborators server (request "check") (start (emptyNode ∅))
           = Some (st, (resultResponse "", None)))
  ∧ Code <$> Error_ (resultResponse "") ≠ Some CHECK_INTERFACE_FAILURE.
Proof.
  split; [reflexivity|]. split; [vm_compute; reflexivity|]. split.
  { eexists _, (start (emptyNode ∅)). split; [|vm_compute; reflexivity].
    vm_compute. reflexivity. }
  split; [reflexivity|]. split; [vm_compute; reflexivity|]. split; [|discriminate].
  eexists. vm_compute. reflexivity.
Qed.

Lemma CmdAdd_rolls_back_witness :
  loadNetworkConfig collaborators server (request "sent") = Some sentCniConfig
  ∧ loadNetworkConfig collaborators server (cniCmdArgs sentCniConfig) = Some sentCniConfig
  ∧ isCNIVersionSupported server (NC_CNIVersion (networkConfig sentCniConfig)) = true
  ∧ IsIPAMTypeValid collaborators (Type_ (IPAM (networkConfig sentCniConfig))) = true
  ∧ (ContainerId (cniCmdArgs sentCniConfig) ∉ busyContainerIDs flowsFail)
  ∧ failedAttempt = (failedAttempt.1.1, false, failedAttempt.2)
  ∧ ∃ st', CmdAdd collaborators server (request "sent") flowsFail
           = Some (st', (failedAttempt.2, None))
      ∧ busyContainerIDs st' = busyContainerIDs flowsFail.
Proof.
  assert (H1 : loadNetworkConfig collaborators server (request "sent") = Some sentCniConfig)
    by (vm_compute; reflexivity).
  assert (H2 : loadNetworkConfig collaborators server (cniCmdArgs sentCniConfig)
               = Some sentCniConfig) by (vm_compute; reflexivity).
  assert (H3 : isCNIVersionSupported server (NC_CNIVersion (networkConfig sentCniConfig))
               = true) by (vm_compute; reflexivity).
  assert (H4 : IsIPAMTypeValid collaborators (Type_ (IPAM (networkConfig sentCniConfig)))
               = true) by (vm_compute; reflexivity).
  assert (H5 : ContainerId (cniCmdArgs sentCniConfig) ∉ busyContainerIDs flowsFail)
    by by_evaluation.
  assert (H6 : failedAttempt = (failedAttempt.1.1, false, failedAttempt.2))
    by (vm_compute; reflexivity).
  split; [exact H1|]. split; [exact H2|]. split; [exact H3|]. split; [exact H4|].
  split; [exact H5|]. split; [exact H6|].
  destruct (CmdAdd_rolls_back collaborators server (request "sent") sentCniConfig flowsFail
              failedAttempt.1.1 failedAttempt.2 H1 H2 H3 H4 H5 H6)
    as (st' & Hadd & _ & Hbusy & _).
  exists st'. split; [exact Hadd|exact Hbusy].
Defined.

(** C1, as stated, fails.  On a node where installing the flows fails and
    the IPAM delete of the rollback fails too, CmdAdd answers
    CONFIG_INTERFACE_FAILURE and leaves the IPAM allocation, the OVS port
    and the store entry behind: CmdDel stops at the failed IPAM delete and
    removeInterfaces is never called. *)
Lemma rollback_counterexample :
  ∃ st' err,
    CmdAdd collaborators server (request "sent")
      (start (emptyNode {["InstallPodFlows"; "ExecIPAMDelete"]}))
    = Some (st', (configInterfaceFailureResponse err, None))
    ∧ "dummy-0" ∈ allocations (world st')
    ∧ "port-test-1.t1" ∈ ports (world st')
    ∧ is_Some (store (world st') !! "test-1.t1")
    ∧ (∀ e, e ∈ journal st' → ∀ a b c d f, e ≠ RemoveInterfaces a b c d f)
    ∧ ¬ clean "dummy-0" "test-1" "t1" (world st').
Proof.
  eexists _, _. split; [vm_compute; reflexivity|].
  split; [by_evaluation|].
  split; [by_evaluation|].
  split; [vm_compute; eauto|]. split.
  - intros e He a b c d f ->. cbn [journal] in He.
    repeat (apply elem_of_cons in He as [He|He]; [discriminate He|]).
    by apply elem_of_nil in He.
  - intros (Hno & _). apply Hno. by_evaluation.
Qed.

Example rollback_cleans_when_it_succeeds :
  ∃ st' err,
    CmdAdd collaborators server (request "sent") flowsFail
    = Some (st', (configInterfaceFailureResponse err, None))
    ∧ clean "dummy-0" "test-1" "t1" (world st').
Proof.
  eexists _, _. split; [vm_compute; reflexivity|].
  repeat split; first [by_evaluation | vm_compute; reflexivity].
Qed.

(** C8, at its failing input.  After a restart the store holds the interface
    of Pod pod1/test, the Pod is listed (and is not host-network), and
    re-installing its flows fails: reconcile returns nil, logs the error,
    and then calls removeInterfaces for that Pod; its OVS port and store
    entry are gone, the gateway's record (empty Pod name) is kept. *)
Theorem reconcile_detaches_listed_pod :
  let node := restarted {["InstallPodFlows"]} in
  let out := reconcile collaborators server (start node) in
  podList node = [ {| PodMetaName := "pod1"; PodMetaNamespace := "test"; HostNetwork := false |} ]
  ∧ GetContainerInterface collaborators "pod1" "test" node = Some pod1Config
  ∧ out.2 = None
  ∧ journal out.1
    = [ InstallFlows "pod1.test" 1;
        Logged Errorf "Error when re-installing flows for Pod %s/%s";
        RemoveInterfaces "pod1" "test" "c1" "" "" ]
  ∧ store (world out.1) !! "pod1.test" = None
  ∧ ("port-pod1.test" ∉ ports (world out.1))
  ∧ store (world out.1) !! "gw" = Some gatewayConfig.
Proof.
  cbv zeta. split; [reflexivity|]. split; [vm_compute; reflexivity|].
  split; [vm_compute; reflexivity|]. split; [vm_compute; reflexivity|].
  split; [vm_compute; reflexivity|]. split; [|vm_compute; reflexivity].
  by_evaluation.
Qed.

Example reconcile_keeps_pod_when_flows_install :
  let out := reconcile collaborators server (start (restarted ∅)) in
  out.2 = None
  ∧ journal out.1 = [ InstallFlows "pod1.test" 1 ]
  ∧ store (world out.1) !! "pod1.test" = Some pod1Config.
Proof. cbv zeta. repeat split; vm_compute; reflexivity. Qed.

Example loaded_sent_config :
  loadNetworkConfig collaborators server (request "sent") = Some sentCniConfig.
Proof. vm_compute. reflexivity. Qed.

End NodeFacts.

(* --------------------------------------------------------------------- *)
(** ** More about the arbitrator                                          *)
(* --------------------------------------------------------------------- *)

Section ArbitratorMore.
Import Arbitrator.

Lemma status_Broadcast_not_Parked bs gs g id :
  status {| busyContainerIDs := bs; goroutines := Broadcast gs |} g ≠ Parked id.
Proof. rewrite status_Broadcast. by destruct (default Running (gs !! g)). Qed.

Lemma step_keeps_waiters_busy c a a' :
  (∀ g id, status a g = Parked id → id ∈ busyContainerIDs a) →
  step c a = Some a' →
  ∀ g id, status a' g = Parked id → id ∈ busyContainerIDs a'.
Proof.
  intros Hinv Hstep g0 id0 Hp.
  assert (Hloop : ∀ g id, (∀ id', status a g ≠ Parked id') →
            status (loopTest g id a) g0 = Parked id0 →
            id0 ∈ busyContainerIDs (loopTest g id a)).
  { intros g id Hg Hp'. rewrite busy_loopTest.
    destruct (decide (g = g0)) as [<-|Hne].
    - rewrite status_loopTest_same in Hp'.
      destruct (decide (id ∈ busyContainerIDs a)); [|done]. by injection Hp' as <-.
    - rewrite status_loopTest_other in Hp' by done. apply Hinv in Hp'.
      destruct (decide (id ∈ busyContainerIDs a)); [done|].
      apply elem_of_union. by right. }
  destruct c as [g id|g|g id|g id]; simpl in Hstep.
  - destruct (status a g) eqn:Hst; try done. injection Hstep as <-.
    apply (Hloop g id); [congruence|done].
  - destruct (status a g) eqn:Hst; try done. injection Hstep as <-.
    eapply Hloop; [congruence|done].
  - destruct (status a g) eqn:Hst; try done; injection Hstep as <-;
      by apply status_Broadcast_not_Parked in Hp.
  - destruct (status a g); try done; injection Hstep as <-; by apply (Hinv g0).
Qed.

(** X1. No wake-up is lost.  Along every run from a fresh arbitrator,
    disciplined or not, a goroutine blocked in cond.Wait() for an id finds
    that id in the busy set; so when an id is free every goroutine that
    waited for it has been woken, and the first of them to resume gets it. *)
Theorem no_lost_wakeup (cs : list call) (a : arbitrator) :
  run cs newContainerAccessArbitrator = Some a →
  (∀ g id, status a g = Parked id → id ∈ busyContainerIDs a)
  ∧ (∀ g id, status a g = Woken id → id ∉ busyContainerIDs a →
       ∃ a', step (resume g) a = Some a' ∧ holds a' g id
             ∧ busyContainerIDs a' = {[id]} ∪ busyContainerIDs a).
Proof.
  intros Hrun. split.
  - revert a Hrun.
    assert (Hgen : ∀ a0 a, (∀ g id, status a0 g = Parked id → id ∈ busyContainerIDs a0) →
              run cs a0 = Some a →
              ∀ g id, status a g = Parked id → id ∈ busyContainerIDs a).
    { induction cs as [|c cs IH]; intros a0 a Hinv Hrun; simpl in Hrun.
      - by injection Hrun as <-.
      - destruct (step c a0) as [a1|] eqn:Hstep; [|done].
        eapply IH; [|done]. by eapply step_keeps_waiters_busy. }
    intros a Hrun. eapply Hgen; [|done].
    intros g id. unfold status. simpl. by rewrite lookup_empty.
  - intros g id Hw Hfree. exists (loopTest g id a). split; [simpl; by rewrite Hw|].
    unfold holds. rewrite status_loopTest_same, busy_loopTest.
    by rewrite !decide_False by done.
Qed.

Lemma no_lost_wakeup_witness :
  run twoRequests newContainerAccessArbitrator = Some oneHoldsOneWaits
  ∧ ∀ g id, status oneHoldsOneWaits g = Parked id → id ∈ busyContainerIDs oneHoldsOneWaits.
Proof.
  assert (H1 : run twoRequests newContainerAccessArbitrator = Some oneHoldsOneWaits)
    by (vm_compute; reflexivity).
  split; [exact H1|]. exact (proj1 (no_lost_wakeup _ _ H1)).
Defined.

Lemma step_keeps_busy_held c a a' :
  exclusive a →
  (∀ id, id ∈ busyContainerIDs a → ∃ g, holds a g id) →
  obeys c a = true → step c a = Some a' →
  ∀ id, id ∈ busyContainerIDs a' → ∃ g, holds a' g id.
Proof.
  intros [Hbusy Huniq] Hinv Hob Hstep id0 Hin.
  assert (Hloop : ∀ g id, (∀ id', ¬ holds a g id') →
            id0 ∈ busyContainerIDs (loopTest g id a) →
            ∃ g', holds (loopTest g id a) g' id0).
  { intros g id Hg Hin'. rewrite busy_loopTest in Hin'. unfold holds.
    assert (Hold : id0 ∈ busyContainerIDs a → ∃ g', status (loopTest g id a) g' = Holder id0).
    { intros (g' & Hg')%Hinv. exists g'. rewrite status_loopTest_other; [done|].
      intros <-. by eapply Hg. }
    destruct (decide (id ∈ busyContainerIDs a)) as [Hb|Hb]; [by apply Hold|].
    apply elem_of_union in Hin' as [->%elem_of_singleton|Hin']; [|by apply Hold].
    exists g. rewrite status_loopTest_same. by rewrite decide_False. }
  destruct c as [g id|g|g id|g id]; simpl in *.
  - destruct (status a g) eqn:Hst; try done. injection Hstep as <-.
    apply (Hloop g id); [|done]. intros id'. unfold holds. congruence.
  - destruct (status a g) eqn:Hst; try done. injection Hstep as <-.
    eapply Hloop; [|done]. intros id'. unfold holds. congruence.
  - apply bool_decide_eq_true in Hob. rewrite Hob in Hstep.
    rewrite decide_True in Hstep by done. injection Hstep as <-. simpl in Hin.
    apply elem_of_difference in Hin as [Hin Hne].
    destruct (Hinv _ Hin) as [g' Hg']. exists g'. unfold holds in *.
    rewrite status_unlock_holder. case_decide as Heq.
    + subst g'. rewrite Hob in Hg'. injection Hg' as ->.
      exfalso. apply Hne. by apply elem_of_singleton.
    + by apply Holder_wake.
  - assert (a' = a) as ->; [|by apply Hinv].
    destruct (status a g); try done; by injection Hstep as <-.
Qed.

(** X2. No busy id is leaked.  Along every run of handlers that follow the
    lock/unlock discipline, the busy set is exactly the set of ids that some
    goroutine holds: an id is busy if and only if a handler is between its
    lockContainer and its unlockContainer for it. *)
Theorem busy_iff_held (cs : list call) (a : arbitrator) :
  run cs newContainerAccessArbitrator = Some a →
  disciplined cs newContainerAccessArbitrator = true →
  ∀ id, id ∈ busyContainerIDs a ↔ ∃ g, holds a g id.
Proof.
  intros Hrun Hd id. split.
  - revert id.
    assert (Hgen : ∀ a0 a, exclusive a0 →
              (∀ id, id ∈ busyContainerIDs a0 → ∃ g, holds a0 g id) →
              disciplined cs a0 = true → run cs a0 = Some a →
              ∀ id, id ∈ busyContainerIDs a → ∃ g, holds a g id).
    { clear. induction cs as [|c cs IH]; intros a0 a Hex Hinv Hd Hrun; simpl in *.
      - by injection Hrun as <-.
      - apply andb_true_iff in Hd as [Hob Hd].
        destruct (step c a0) as [a1|] eqn:Hstep; [|done].
        eapply (IH a1); [by eapply step_exclusive| |done..].
        by eapply step_keeps_busy_held. }
    eapply Hgen; [apply exclusive_new| |done..].
    intros id0 Hin. by apply not_elem_of_empty in Hin.
  - intros [g Hg].
    by apply (proj1 (run_exclusive cs _ _ exclusive_new Hd Hrun) g).
Qed.

Lemma busy_iff_held_witness :
  run twoRequests newContainerAccessArbitrator = Some oneHoldsOneWaits
  ∧ disciplined twoRequests newContainerAccessArbitrator = true
  ∧ ∀ id, id ∈ busyContainerIDs oneHoldsOneWaits ↔ ∃ g, holds oneHoldsOneWaits g id.
Proof.
  assert (H1 : run twoRequests newContainerAccessArbitrator = Some oneHoldsOneWaits)
    by (vm_compute; reflexivity).
  assert (H2 : disciplined twoRequests newContainerAccessArbitrator = true)
    by (vm_compute; reflexivity).
  split; [exact H1|]. split; [exact H2|]. exact (busy_iff_held _ _ H1 H2).
Defined.

End ArbitratorMore.

(* --------------------------------------------------------------------- *)
(** ** More about the handlers                                            *)
(* --------------------------------------------------------------------- *)

Section HandlerFacts.
Import Net CNI Server ServerExtras.

Context {W : Type} (E : Collaborators W) (s : CNIServer).


Lemma checkRequestMessage_cases (args : CniCmdArgs) (st : state W) :
  (∃ cniConfig,
     checkRequestMessage E s args st = (st, inl cniConfig)
     ∧ loadNetworkConfig E s args = Some cniConfig
     ∧ isCNIVersionSupported s (NC_CNIVersion (networkConfig cniConfig)) = true
     ∧ IsIPAMTypeValid E (Type_ (IPAM (networkConfig cniConfig))) = true)
  ∨ (∃ format response,
       checkRequestMessage E s args st = (klog Errorf format st, inr response)
       ∧ (codeOf response = Some DECODING_FAILURE ∧ loadNetworkConfig E s args = None
          ∨ ∃ cniConfig, loadNetworkConfig E s args = Some cniConfig
              ∧ (codeOf response = Some INCOMPATIBLE_CNI_VERSION
                 ∧ isCNIVersionSupported s (NC_CNIVersion (networkConfig cniConfig)) = false
                 ∨ codeOf response = Some UNSUPPORTED_FIELD
                   ∧ isCNIVersionSupported s (NC_CNIVersion (networkConfig cniConfig)) = true
                   ∧ IsIPAMTypeValid E (Type_ (IPAM (networkConfig cniConfig))) = false))).
Proof.
  unfold checkRequestMessage.
  destruct (loadNetworkConfig E s args) as [cniConfig|] eqn:Hload.
  - destruct (isCNIVersionSupported s _) eqn:Hv; cbn [negb].
    + destruct (IsIPAMTypeValid E _) eqn:Hi; cbn [negb].
      * left. by exists cniConfig.
      * right. do 2 eexists. split; [reflexivity|]. right. exists cniConfig.
        split; [done|]. right. done.
    + right. do 2 eexists. split; [reflexivity|]. right. exists cniConfig.
      split; [done|]. left. done.
  - right. do 2 eexists. split; [reflexivity|]. left. done.
Qed.

(** X3. A request that fails validation is answered at once, the same way by
    ADD, DEL and CHECK: the response is that of checkRequestMessage, with a
    nil Go error; the container is not locked, no collaborator is called,
    and the only trace is one error line in the log.  An undecodable
    configuration gives DECODING_FAILURE; a decoded one with an unsupported
    CNI version gives INCOMPATIBLE_CNI_VERSION, whatever its IPAM type; a
    supported version with an unknown IPAM type gives UNSUPPORTED_FIELD.  A
    request that passes leaves the state untouched. *)
Theorem invalid_request_touches_nothing (args : CniCmdArgs) (st : state W) :
  match checkRequestMessage E s args st with
  | (st', inr response) =>
      CmdAdd E s args st = Some (st', (response, None))
      ∧ CmdDel E s args st = Some (st', (response, None))
      ∧ CmdCheck E s args st = Some (st', (response, None))
      ∧ busyContainerIDs st' = busyContainerIDs st
      ∧ world st' = world st
      ∧ (∃ format, journal st' = journal st ++ [Logged Errorf format])
      ∧ (codeOf response = Some DECODING_FAILURE ∧ loadNetworkConfig E s args = None
         ∨ ∃ cniConfig, loadNetworkConfig E s args = Some cniConfig
             ∧ (codeOf response = Some INCOMPATIBLE_CNI_VERSION
                ∧ isCNIVersionSupported s (NC_CNIVersion (networkConfig cniConfig)) = false
                ∨ codeOf response = Some UNSUPPORTED_FIELD
                  ∧ isCNIVersionSupported s (NC_CNIVersion (networkConfig cniConfig)) = true
                  ∧ IsIPAMTypeValid E (Type_ (IPAM (networkConfig cniConfig))) = false))
  | (st', inl cniConfig) =>
      st' = st ∧ loadNetworkConfig E s args = Some cniConfig
      ∧ isCNIVersionSupported s (NC_CNIVersion (networkConfig cniConfig)) = true
      ∧ IsIPAMTypeValid E (Type_ (IPAM (networkConfig cniConfig))) = true
  end.
Proof.
  unfold CmdAdd, CmdDel, CmdCheck.
  destruct (checkRequestMessage_cases args st)
    as [(cniConfig & -> & Hload & Hv & Hi)|(format & response & -> & Hcode)].
  - done.
  - repeat (split; [reflexivity|]). split; [by exists format|done].
Qed.

Lemma parsePrevResultFromRequest_logs (nc : NetworkConfig) (st : state W) :
  busyContainerIDs (parsePrevResultFromRequest E nc st).1 = busyContainerIDs st
  ∧ world (parsePrevResultFromRequest E nc st).1 = world st
  ∧ match (parsePrevResultFromRequest E nc st).2 with
    | inl _ => (parsePrevResultFromRequest E nc st).1 = st
    | inr response =>
        codeOf response = Some UNSUPPORTED_FIELD ∨ codeOf response = Some DECODING_FAILURE
    end.
Proof.
  unfold parsePrevResultFromRequest.
  destruct (PrevResult nc), (RawPrevResult nc);
    try (destruct (parsePrevResult E nc) as [nc'|];
         [destruct (NewResultFromResult E (PrevResult nc'))|]);
    cbn [fst snd klog busyContainerIDs world]; repeat split; tauto.
Qed.



Lemma calls_app (a b : list event) : calls (a ++ b) = calls a ++ calls b.
Proof. apply omap_app. Qed.

Lemma findInterfaces_journal (ifname hostVethName : string) (interfaces : list Interface)
    (st : state W) :
  ∃ logs, journal (findInterfaces ifname hostVethName interfaces st).1 = journal st ++ logs
    ∧ calls logs = [].
Proof.
  unfold findInterfaces.
  induction interfaces as [|intf interfaces IH] using rev_ind.
  - exists []. by rewrite app_nil_r.
  - rewrite foldl_snoc.
    destruct (foldl _ _ interfaces) as [st' [c h]]. cbn [fst] in IH.
    destruct IH as (logs & Hj & Hlogs).
    repeat case_decide; cbn [fst klog journal]; try by exists logs.
    eexists. rewrite Hj, <- app_assoc. split; [reflexivity|].
    unfold calls in *. by rewrite omap_app, Hlogs.
Qed.

Lemma validatePrevResult_journal (cfgArgs : CniCmdArgs) (k8sCNIArgs : k8sArgs)
    (prevResult : Result) (st : state W) :
  ∃ logs, journal (validatePrevResult E s cfgArgs k8sCNIArgs prevResult st).1
          = journal st ++ logs
    ∧ (calls logs = [] ∨ calls logs = [CallCheckInterfaces]).
Proof.
  unfold validatePrevResult.
  destruct (findInterfaces_journal (Ifname cfgArgs)
              (GenerateContainerInterfaceName E (K8S_POD_NAME k8sCNIArgs)
                 (K8S_POD_NAMESPACE k8sCNIArgs)) (Interfaces prevResult) st)
    as (logs & Hj & Hlogs).
  destruct (findInterfaces _ _ _ st) as [st' [[c|] [h|]]]; cbn [fst] in Hj.
  - cbv zeta. destruct (checkInterfaces E _ _ c h _ prevResult (world st'));
      eexists; cbn [fst record journal]; rewrite Hj, <- app_assoc;
      (split; [reflexivity|]); right; rewrite calls_app, Hlogs; reflexivity.
  - eexists. cbn [fst klog journal]. rewrite Hj, <- app_assoc. split; [reflexivity|].
    left. by rewrite calls_app, Hlogs.
  - eexists. cbn [fst klog journal]. rewrite Hj, <- app_assoc. split; [reflexivity|].
    left. by rewrite calls_app, Hlogs.
  - eexists. cbn [fst klog journal]. rewrite Hj, <- app_assoc. split; [reflexivity|].
    left. by rewrite calls_app, Hlogs.
Qed.

Lemma parsePrevResultFromRequest_journal (nc : NetworkConfig) (st : state W) :
  match parsePrevResultFromRequest E nc st with
  | (st', inl _) => st' = st
  | (st', inr response) =>
      (∃ format, st' = klog Errorf format st)
      ∧ (codeOf response = Some UNSUPPORTED_FIELD ∨ codeOf response = Some DECODING_FAILURE)
  end.
Proof.
  unfold parsePrevResultFromRequest.
  destruct (PrevResult nc), (RawPrevResult nc);
    try (destruct (parsePrevResult E nc) as [nc'|];
         [destruct (NewResultFromResult E (PrevResult nc'))|]);
    first [reflexivity | split; [by eexists|]; (by left) || (by right)].
Qed.





(** Membership in a list given by its elements. *)
Ltac listed := repeat first [apply list_elem_of_here | apply list_elem_of_further].

Lemma checkRequestMessage_codes (args : CniCmdArgs) (st : state W) response :
  (checkRequestMessage E s args st).2 = inr response →
  codeOf response ∈ [Some DECODING_FAILURE; Some INCOMPATIBLE_CNI_VERSION;
                     Some UNSUPPORTED_FIELD].
Proof.
  destruct (checkRequestMessage_cases args st)
    as [(cniConfig & -> & _)|(format & r & -> & Hcode)]; [done|].
  intros [= <-].
  destruct Hcode as [[-> _]|(c & _ & [[-> _]|[-> _]])]; listed.
Qed.

Lemma addInterface_codes (cniConfig : CNIConfig) (st : state W) :
  codeOf (addInterface E s cniConfig st).2
  ∈ [None; Some IPAM_FAILURE; Some CONFIG_INTERFACE_FAILURE].
Proof.
  unfold addInterface.
  destruct (ExecIPAMAdd E _ _ _) as [w [err|ipamResult]]; [listed|].
  destruct (configureInterface E _ _ _ _ _ _ _ _ _) as [w' [err|result]]; listed.
Qed.

(** X5. The error codes a handler can answer with.  ADD and DEL answer with
    no error or with one of DECODING_FAILURE, INCOMPATIBLE_CNI_VERSION,
    UNSUPPORTED_FIELD, IPAM_FAILURE and CONFIG_INTERFACE_FAILURE, so never
    with the two codes of validatePrevResult; CHECK answers with no error,
    with one of the first four, or with a code of validatePrevResult, so
    never with CONFIG_INTERFACE_FAILURE.  No handler ever answers
    UNKNOWN_CONTAINER or TRY_AGAIN_LATER, the codes of the two responses
    that are built nowhere. *)
Theorem handler_error_codes (args : CniCmdArgs) (st : state W) :
  let answers := λ (allowed : list (option ErrorCode)) (outcome : option (state W * reply)),
    match outcome with
    | Some (_, (response, _)) => codeOf response ∈ allowed
    | None => True
    end in
  answers [None; Some DECODING_FAILURE; Some INCOMPATIBLE_CNI_VERSION; Some UNSUPPORTED_FIELD;
           Some IPAM_FAILURE; Some CONFIG_INTERFACE_FAILURE] (CmdAdd E s args st)
  ∧ answers [None; Some DECODING_FAILURE; Some INCOMPATIBLE_CNI_VERSION; Some UNSUPPORTED_FIELD;
             Some IPAM_FAILURE; Some CONFIG_INTERFACE_FAILURE] (CmdDel E s args st)
  ∧ answers [None; Some DECODING_FAILURE; Some INCOMPATIBLE_CNI_VERSION; Some UNSUPPORTED_FIELD;
             Some IPAM_FAILURE; Some CHECK_INTERFACE_FAILURE; Some INVALID_NETWORK_CONFIG]
      (CmdCheck E s args st)
  ∧ codeOf (unknownContainerResponse (ContainerId args)) = Some UNKNOWN_CONTAINER
  ∧ codeOf tryAgainLaterResponse = Some TRY_AGAIN_LATER.
Proof.
  cbv zeta. split; [|split; [|split; [|done]]].
  - unfold CmdAdd.
    pose proof (checkRequestMessage_codes args st) as Hc.
    destruct (checkRequestMessage E s args st) as [st0 [cniConfig|response]].
    + destruct (lockContainer _ st0) as [st1|]; [|done]. cbn [mbind option_bind].
      pose proof (addInterface_codes cniConfig st1) as Ha.
      destruct (addInterface E s cniConfig st1) as [[st2 success] response].
      cbn [snd] in Ha.
      assert (Hin : codeOf response ∈ [None; Some DECODING_FAILURE;
                      Some INCOMPATIBLE_CNI_VERSION; Some UNSUPPORTED_FIELD;
                      Some IPAM_FAILURE; Some CONFIG_INTERFACE_FAILURE]).
      { apply elem_of_cons in Ha as [->|Ha]; [listed|].
        apply elem_of_cons in Ha as [->|Ha]; [listed|].
        apply list_elem_of_singleton in Ha as ->. listed. }
      destruct success; [done|].
      destruct (CmdDel E s _ _) as [[st3 [r e]]|]; [|done]. done.
    + specialize (Hc response eq_refl).
      apply elem_of_cons in Hc as [->|Hc]; [listed|].
      apply elem_of_cons in Hc as [->|Hc]; [listed|].
      apply list_elem_of_singleton in Hc as ->. listed.
  - unfold CmdDel.
    pose proof (checkRequestMessage_codes args st) as Hc.
    destruct (checkRequestMessage E s args st) as [st0 [cniConfig|response]].
    + destruct (lockContainer _ st0) as [st1|]; [|done]. cbn [mbind option_bind].
      destruct (ExecIPAMDelete E _ _ _) as [w [err|]]; [listed|].
      destruct (removeInterfaces E _ _ _ _ _ _) as [w' [err|]]; listed.
    + specialize (Hc response eq_refl).
      apply elem_of_cons in Hc as [->|Hc]; [listed|].
      apply elem_of_cons in Hc as [->|Hc]; [listed|].
      apply list_elem_of_singleton in Hc as ->. listed.
  - unfold CmdCheck.
    pose proof (checkRequestMessage_codes args st) as Hc.
    destruct (checkRequestMessage E s args st) as [st0 [cniConfig|response]].
    + destruct (lockContainer _ st0) as [st1|]; [|done]. cbn [mbind option_bind].
      destruct (ExecIPAMCheck E _ _ _) as [w [err|]]; [listed|].
      destruct (GreaterThanOrEqualTo E _ _); [|listed].
      match goal with
      | |- context [parsePrevResultFromRequest E ?nc ?st0] =>
          pose proof (parsePrevResultFromRequest_logs nc st0) as (_ & _ & Hp);
          destruct (parsePrevResultFromRequest E nc st0) as [st2 [prevResult|response]]
      end; cbn [snd] in Hp.
      * pose proof (validatePrevResult_err_nil E s (cniCmdArgs cniConfig)
                      (k8sArgs_ cniConfig) prevResult st2) as Hnil.
        destruct (validatePrevResult E s _ _ prevResult st2) as [st3 [response err]].
        cbn [snd] in Hnil. subst err. listed.
      * destruct Hp as [->| ->]; listed.
    + specialize (Hc response eq_refl).
      apply elem_of_cons in Hc as [->|Hc]; [listed|].
      apply elem_of_cons in Hc as [->|Hc]; [listed|].
      apply list_elem_of_singleton in Hc as ->. listed.
Qed.

Lemma CmdDel_footprint (args : CniCmdArgs) (st : state W) :
  match CmdDel E s args st with
  | Some (st', (response, _)) =>
      ∃ added, journal st' = journal st ++ added
        ∧ calls added
          = match codeOf response with
            | None | Some CONFIG_INTERFACE_FAILURE => [CallIPAMDelete; CallRemoveInterfaces]
            | Some IPAM_FAILURE => [CallIPAMDelete]
            | Some _ => []
            end
  | None => True
  end.
Proof.
  unfold CmdDel.
  destruct (checkRequestMessage_cases args st)
    as [(cniConfig & -> & _)|(format & response & -> & Hcode)].
  - unfold lockContainer. case_decide; [done|]. cbn [mbind option_bind world].
    destruct (ExecIPAMDelete E _ _ _) as [w [err|]].
    + eexists. cbn [klog record unlockContainer journal]. rewrite <- app_assoc.
      split; reflexivity.
    + cbn [record world].
      destruct (removeInterfaces E _ _ _ _ _ _) as [w' [err|]];
        eexists; cbn [klog record unlockContainer journal]; rewrite <- ?app_assoc;
        split; reflexivity.
  - exists [Logged Errorf format]. split; [reflexivity|].
    destruct Hcode as [[-> _]|(c & _ & [[-> _]|[-> _]])]; reflexivity.
Qed.

Lemma addInterface_footprint (cniConfig : CNIConfig) (st : state W) :
  let '(st', success, response) := addInterface E s cniConfig st in
  ∃ added, journal st' = journal st ++ added
    ∧ (if success : bool
       then codeOf response = None ∧ calls added = [CallIPAMAdd; CallConfigureInterface]
       else codeOf response = Some IPAM_FAILURE ∧ calls added = [CallIPAMAdd]
            ∨ codeOf response = Some CONFIG_INTERFACE_FAILURE
              ∧ calls added = [CallIPAMAdd; CallConfigureInterface]).
Proof.
  unfold addInterface.
  destruct (ExecIPAMAdd E _ _ _) as [w [err|ipamResult]].
  - eexists. cbn [klog record journal]. rewrite <- app_assoc. split; [reflexivity|].
    left. split; reflexivity.
  - cbn [record world].
    destruct (configureInterface E _ _ _ _ _ _ _ _ _) as [w' [err|result]];
      eexists; cbn [klog record journal]; rewrite <- ?app_assoc; (split; [reflexivity|]).
    + right. split; reflexivity.
    + split; reflexivity.
Qed.

(** X6. What each handler asks of the collaborators that work on the node,
    and in which order, can be read off its response.  A DEL answered with
    success or
    CONFIG_INTERFACE_FAILURE has released the addresses and then removed the
    interfaces; one answered with IPAM_FAILURE has called the IPAM delete
    only, so the interfaces are left in place.  A successful ADD has called
    the IPAM add and then configureInterface and nothing else; a failed one
    has called the IPAM add, configureInterface unless the IPAM add was the
    failure, and then whatever its rollback DEL called (possibly nothing).
    A CHECK calls the IPAM check and then, at most, checkInterfaces, and
    neither before the request is validated: answered with success it has
    called the IPAM check, answered with IPAM_FAILURE the IPAM check only.
    A request answered with any other code reached none of them in ADD and
    DEL. *)
Theorem handler_footprints (args : CniCmdArgs) (st : state W) :
  let footprint := λ (outcome : option (state W * reply))
                     (expected : option ErrorCode → list collaboratorCall → Prop),
    match outcome with
    | Some (st', (response, _)) =>
        ∃ added, journal st' = journal st ++ added ∧ expected (codeOf response) (calls added)
    | None => True
    end in
  let rollbacks := [[]; [CallIPAMDelete]; [CallIPAMDelete; CallRemoveInterfaces]] in
  footprint (CmdDel E s args st)
    (λ code called,
       called = match code with
                | None | Some CONFIG_INTERFACE_FAILURE => [CallIPAMDelete; CallRemoveInterfaces]
                | Some IPAM_FAILURE => [CallIPAMDelete]
                | Some _ => []
                end)
  ∧ footprint (CmdAdd E s args st)
      (λ code called,
         match code with
         | None => called = [CallIPAMAdd; CallConfigureInterface]
         | Some IPAM_FAILURE =>
             ∃ rollback, called = CallIPAMAdd :: rollback ∧ rollback ∈ rollbacks
         | Some CONFIG_INTERFACE_FAILURE =>
             ∃ rollback, called = CallIPAMAdd :: CallConfigureInterface :: rollback
                         ∧ rollback ∈ rollbacks
         | Some _ => called = []
         end)
  ∧ footprint (CmdCheck E s args st)
      (λ code called,
         match code with
         | None => called = [CallIPAMCheck] ∨ called = [CallIPAMCheck; CallCheckInterfaces]
         | Some IPAM_FAILURE => called = [CallIPAMCheck]
         | Some _ =>
             called ∈ [[]; [CallIPAMCheck]; [CallIPAMCheck; CallCheckInterfaces]]
         end).
Proof.
  cbv zeta. split; [apply CmdDel_footprint|]. split.
  - unfold CmdAdd.
    destruct (checkRequestMessage_cases args st)
      as [(cniConfig & -> & _)|(format & response & -> & Hcode)].
    + unfold lockContainer at 1. case_decide; [done|]. cbn [mbind option_bind].
      match goal with
      | |- context [addInterface E s cniConfig ?st0] =>
          pose proof (addInterface_footprint cniConfig st0) as Ha;
          destruct (addInterface E s cniConfig st0) as [[st2 success] response]
      end.
      destruct Ha as (added & Hj & Ha). cbn [journal] in Hj.
      destruct success.
      * destruct Ha as [-> Hc]. exists added.
        cbn [unlockContainer journal]. by split.
      * match goal with
        | |- context [CmdDel E s ?a ?st0] =>
            pose proof (CmdDel_footprint a st0) as Hd;
            destruct (CmdDel E s a st0) as [[st3 [r e]]|]
        end; [|done].
        destruct Hd as (deleted & Hj' & Hd). cbn [mbind option_bind].
        cbn [klog unlockContainer journal] in Hj'. rewrite Hj, <- !app_assoc in Hj'.
        assert (Hroll : calls deleted
                        ∈ [[]; [CallIPAMDelete]; [CallIPAMDelete; CallRemoveInterfaces]]).
        { rewrite Hd. destruct (codeOf r) as [[]|]; listed. }
        assert (Hcalls : ∀ logs, calls logs = [] →
                  ∃ added', journal st3 ++ logs = journal st ++ added'
                    ∧ calls added' = calls added ++ calls deleted).
        { intros logs Hlogs. eexists. rewrite Hj', <- !app_assoc. split; [reflexivity|].
          rewrite !calls_app, Hlogs, app_nil_r. reflexivity. }
        assert (Hout : ∃ added', journal (match e with
                                          | Some _ =>
                                              klog Warning
                                                "Failed to rollback after CNI add failure: %v" st3
                                          | None => st3
                                          end) = journal st ++ added'
                         ∧ calls added' = calls added ++ calls deleted).
        { destruct e; cbn [klog journal].
          - by apply Hcalls.
          - destruct (Hcalls [] eq_refl) as (added' & Heq & Hc).
            rewrite app_nil_r in Heq. by exists added'. }
        destruct Hout as (added' & Heq & Hc). exists added'. split; [exact Heq|].
        rewrite Hc. destruct Ha as [[-> ->]|[-> ->]]; by eexists.
    + exists [Logged Errorf format]. split; [reflexivity|].
      destruct Hcode as [[-> _]|(c & _ & [[-> _]|[-> _]])]; reflexivity.
  - unfold CmdCheck.
    destruct (checkRequestMessage_cases args st)
      as [(cniConfig & -> & _)|(format & response & -> & Hcode)].
    + unfold lockContainer. case_decide; [done|]. cbn [mbind option_bind world].
      destruct (ExecIPAMCheck E _ _ _) as [w [err|]].
      { eexists. cbn [klog record unlockContainer journal]. rewrite <- app_assoc.
        split; reflexivity. }
      destruct (GreaterThanOrEqualTo E _ _).
      2:{ eexists. cbn [record unlockContainer journal]. split; [reflexivity|].
          by left. }
      match goal with
      | |- context [parsePrevResultFromRequest E ?nc ?st0] =>
          pose proof (parsePrevResultFromRequest_journal nc st0) as Hp;
          destruct (parsePrevResultFromRequest E nc st0) as [st2 [prevResult|response]]
      end.
      * subst st2.
        match goal with
        | |- context [validatePrevResult E s ?a ?k ?p ?st0] =>
            pose proof (validatePrevResult_err_nil E s a k p st0) as Hnil;
            pose proof (validatePrevResult_journal a k p st0) as Hlog;
            destruct (validatePrevResult E s a k p st0) as [st3 [response err]]
        end.
        cbn [fst snd] in Hnil, Hlog. subst err.
        destruct Hlog as (logs & Hj & Hlogs). cbn [record journal] in Hj.
        eexists. cbn [unlockContainer journal]. rewrite Hj, <- app_assoc.
        split; [reflexivity|].
        cbn [codeOf resultResponse Error_ fmap option_fmap option_map].
        rewrite calls_app. destruct Hlogs as [-> | ->]; [by left|by right].
      * destruct Hp as [[format ->] Hcode].
        eexists. cbn [klog record unlockContainer journal]. rewrite <- app_assoc.
        split; [reflexivity|].
        destruct Hcode as [-> | ->]; listed.
    + exists [Logged Errorf format]. split; [reflexivity|].
      destruct Hcode as [[-> _]|(c & _ & [[-> _]|[-> _]])]; listed.
Qed.

(** CmdAdd holds the container for its attempt only: a failed ADD is two
    lock-held sections, the attempt and the rollback, and between them the
    container is free. *)
Lemma CmdAdd_in_two_sections (args : CniCmdArgs) (st : state W) :
  CmdAdd E s args st
  = ('(mid, (response, pending)) ← CmdAdd_locked E s args st;
     match pending with
     | None => Some (mid, (response, None))
     | Some request =>
         st' ← CmdAdd_rollback E s request mid; Some (st', (response, None))
     end)
  ∧ match CmdAdd_locked E s args st with
    | Some (mid, _) => busyContainerIDs mid = busyContainerIDs st
    | None => True
    end.
Proof.
  unfold CmdAdd, CmdAdd_locked, CmdAdd_rollback.
  destruct (checkRequestMessage_cases args st)
    as [(cniConfig & -> & _)|(format & response & -> & _)]; [|done].
  unfold lockContainer. case_decide; [done|]. cbn [mbind option_bind].
  match goal with
  | |- context [addInterface E s cniConfig ?st0] =>
      pose proof (addInterface_outcome E s cniConfig st0) as Hout;
      destruct (addInterface E s cniConfig st0) as [[st1 success] response]
  end.
  destruct (Hout _ _ _ eq_refl) as [Hbusy _]. cbn [busyContainerIDs] in Hbusy.
  split.
  - destruct success; [done|]. cbn [mbind option_bind].
    by destruct (CmdDel E s _ _) as [[st2 [r e]]|].
  - cbn [unlockContainer busyContainerIDs]. rewrite Hbusy. by apply busy_released.
Qed.

(** X7. The request that checkRequestMessage has rewritten loads to the same
    configuration as the request that was sent, provided the JSON codec gives
    back the rewritten configuration it encoded: the arguments are decoded
    again to the same Pod, the node's subnet and gateway are written over
    themselves, and a zero MTU, which the rewritten document still carries,
    is replaced by the default once more.  So validation gives the same
    verdict on both, and DEL and CHECK treat the rewritten request as they
    treat the original (this is the request the rollback of a failed ADD
    hands to CmdDel). *)
Theorem rewritten_request_loads_the_same
    (args : CniCmdArgs) (nc : NetworkConfig) (k8s : k8sArgs) :
  let rewritten :=
    updateLocalIPAMSubnet E s {| networkConfig := nc; cniCmdArgs := args; k8sArgs_ := k8s |} in
  json_Unmarshal E (NetworkConfiguration args) = Some nc →
  LoadArgs E (Args args) = Some k8s →
  json_Unmarshal E (json_Marshal E (networkConfig rewritten)) = Some (networkConfig rewritten) →
  ∃ cniConfig,
    loadNetworkConfig E s args = Some cniConfig
    ∧ cniCmdArgs cniConfig = cniCmdArgs rewritten
    ∧ MTU (networkConfig cniConfig) = (if decide (MTU nc = 0) then defaultMTU s else MTU nc)
    ∧ loadNetworkConfig E s (cniCmdArgs cniConfig) = Some cniConfig
    ∧ (∀ st, checkRequestMessage E s (cniCmdArgs cniConfig) st = checkRequestMessage E s args st)
    ∧ (∀ st, CmdDel E s (cniCmdArgs cniConfig) st = CmdDel E s args st)
    ∧ (∀ st, CmdCheck E s (cniCmdArgs cniConfig) st = CmdCheck E s args st).
Proof.
  intros rewritten Hnc Hk8s Hcodec.
  assert (Hload : loadNetworkConfig E s args
                  = Some (if decide (MTU nc = 0) then withMTU rewritten (defaultMTU s)
                          else rewritten)).
  { unfold loadNetworkConfig. rewrite Hnc. cbn [mbind option_bind]. rewrite Hk8s.
    reflexivity. }
  assert (Hargs : cniCmdArgs (if decide (MTU nc = 0) then withMTU rewritten (defaultMTU s)
                              else rewritten) = cniCmdArgs rewritten) by (by case_decide).
  assert (Hagain : loadNetworkConfig E s (cniCmdArgs rewritten) = loadNetworkConfig E s args).
  { rewrite Hload. unfold loadNetworkConfig.
    change (NetworkConfiguration (cniCmdArgs rewritten))
      with (json_Marshal E (networkConfig rewritten)).
    rewrite Hcodec. cbn [mbind option_bind].
    change (Args (cniCmdArgs rewritten)) with (Args args). rewrite Hk8s.
    reflexivity. }
  eexists. split; [exact Hload|]. rewrite Hargs. split; [reflexivity|].
  split; [by case_decide|]. split; [by rewrite Hagain|].
  assert (Hcheck : ∀ st, checkRequestMessage E s (cniCmdArgs rewritten) st
                         = checkRequestMessage E s args st).
  { intros st. unfold checkRequestMessage. by rewrite Hagain. }
  split; [exact Hcheck|].
  split; intros st; [unfold CmdDel|unfold CmdCheck]; by rewrite Hcheck.
Qed.

Lemma defaultRoute_prints : IPNet_String defaultRouteDstNet = defaultRouteDst.
Proof. vm_compute. reflexivity. Qed.

Lemma updateIPConfig_idempotent (ipc : IPConfig) :
  updateIPConfig (updateIPConfig ipc) = updateIPConfig ipc.
Proof.
  unfold updateIPConfig. cbn [Version Interface_ Address Gateway].
  by destruct (Gateway ipc).
Qed.

Lemma updateResultIfaceConfig_has_default_route (result : Result) (gw : option IP) :
  ∃ routes,
    Routes (updateResultIfaceConfig result gw) = Some routes
    ∧ existsb (λ route, bool_decide (IPNet_String (Dst route) = defaultRouteDst)) routes = true.
Proof.
  unfold updateResultIfaceConfig. cbn [Routes]. eexists. split; [reflexivity|].
  destruct (Routes result) as [rs|]; cbv beta iota delta [default from_option id].
  - destruct (existsb _ rs) eqn:Hex; [exact Hex|].
    rewrite existsb_app, Hex. cbn [existsb Dst orb].
    by rewrite bool_decide_true by apply defaultRoute_prints.
  - cbn [app existsb Dst].
    by rewrite bool_decide_true by apply defaultRoute_prints.
Qed.

(** X8. updateResultIfaceConfig is idempotent, whatever gateway the second
    call is given: a result it has normalized is left as it is, so no second
    default route is appended and no gateway it has filled in is replaced.
    In a normalized result every address points at interface 1 and has a
    gateway, and some route prints as 0.0.0.0/0. *)
Theorem updateResultIfaceConfig_idempotent (result : Result) (gw gw' : option IP) :
  let once := updateResultIfaceConfig result gw in
  updateResultIfaceConfig once gw' = once
  ∧ (∀ ipc, ipc ∈ IPs once → Interface_ ipc = Some 1 ∧ is_Some (Gateway ipc))
  ∧ (∃ routes, Routes once = Some routes
       ∧ ∃ r, r ∈ routes ∧ IPNet_String (Dst r) = "0.0.0.0/0").
Proof.
  intros once. subst once.
  destruct (updateResultIfaceConfig_has_default_route result gw) as (routes & Hr & Hex).
  split; [|split].
  - unfold updateResultIfaceConfig at 1. rewrite Hr.
    cbv beta iota delta [default from_option id]. rewrite Hex.
    unfold updateResultIfaceConfig in Hr |- *.
    cbn [CNIVersion Interfaces IPs Routes DNS_] in Hr |- *. rewrite Hr.
    f_equal. rewrite List.map_map. apply List.map_ext, updateIPConfig_idempotent.
  - unfold updateResultIfaceConfig. cbn [IPs]. intros ipc Hin.
    apply list_elem_of_In, in_map_iff in Hin as (ipc0 & <- & _).
    unfold updateIPConfig. cbn [Interface_ Gateway]. split; [done|].
    by destruct (Gateway ipc0).
  - exists routes. split; [exact Hr|].
    apply existsb_exists in Hex as (r & Hin & Hdst).
    exists r. split; [by apply list_elem_of_In|].
    by apply bool_decide_eq_true in Hdst.
Qed.

Lemma syncPods_footprint (pods : list Pod) (st : state W) (desired : gset string) :
  busyContainerIDs (foldl (syncPod E s) (st, desired) pods).1 = busyContainerIDs st
  ∧ ∃ added, journal (foldl (syncPod E s) (st, desired) pods).1 = journal st ++ added
      ∧ Forall (λ c, c = CallInstallPodFlows) (calls added).
Proof.
  induction pods as [|pod pods IH] using rev_ind.
  - split; [done|]. exists []. split; [by rewrite app_nil_r|constructor].
  - rewrite foldl_snoc.
    destruct (foldl _ _ pods) as [st1 desired1]. cbn [fst] in IH.
    destruct IH as (Hbusy & added & Hj & Hcalls).
    assert (Hlog : ∀ events, Forall (λ c, c = CallInstallPodFlows) (calls events) →
              ∃ added', journal st ++ added ++ events = journal st ++ added'
                ∧ Forall (λ c, c = CallInstallPodFlows) (calls added')).
    { intros events Hev. exists (added ++ events). split; [done|].
      rewrite calls_app. by apply Forall_app. }
    unfold syncPod. destruct (HostNetwork pod); [cbn [fst]; split; [done|by exists added]|].
    destruct (GetContainerInterface E _ _ _) as [containerConfig|].
    + destruct (InstallPodFlows E _ _ _ _ _ _) as [w [err|]];
        cbn [fst klog record busyContainerIDs journal]; (split; [done|]);
        rewrite Hj, <- !app_assoc; apply Hlog; repeat constructor.
    + cbn [fst klog busyContainerIDs journal]. split; [done|].
      rewrite Hj, <- !app_assoc. apply Hlog. constructor.
Qed.

Lemma cleanInterfaces_footprint (desired : gset string) (ids : list string) (st : state W) :
  busyContainerIDs (foldl (cleanInterface E desired) st ids) = busyContainerIDs st
  ∧ ∃ added, journal (foldl (cleanInterface E desired) st ids) = journal st ++ added
      ∧ Forall cleanup added.
Proof.
  induction ids as [|id ids IH] using rev_ind.
  - split; [done|]. exists []. split; [by rewrite app_nil_r|constructor].
  - rewrite foldl_snoc. destruct IH as (Hbusy & added & Hj & Hclean).
    assert (Hlog : ∀ e, cleanup e →
              ∃ added', journal st ++ added ++ [e] = journal st ++ added'
                ∧ Forall cleanup added').
    { intros e He. exists (added ++ [e]). split; [done|].
      apply Forall_app. split; [done|by constructor]. }
    unfold cleanInterface at 1 3. case_decide; [split; [done|by exists added]|].
    destruct (GetInterface E id _) as [containerConfig|].
    + case_decide; [split; [done|by exists added]|].
      destruct (removeInterfaces E _ _ _ _ _ _) as [w err].
      cbn [record busyContainerIDs journal]. split; [done|].
      rewrite Hj, <- !app_assoc. apply Hlog. done.
    + cbn [klog busyContainerIDs journal]. split; [done|].
      rewrite Hj, <- !app_assoc. apply Hlog. done.
Qed.

(** X9. What Initialize, that is reconcile, does to a node.  It fails only
    when the Pods cannot be listed, and then it has touched nothing; errors
    of the flow installation or of a removal never make it fail.  It works
    without taking any container: the busy set is as before.  Its calls come
    in two phases: first nothing but flow installations, then nothing but
    removals, each of them for a record that carries a Pod name and with
    an empty namespace path and interface name; it never calls the IPAM
    plugin or configureInterface. *)
Theorem Initialize_footprint (st : state W) :
  busyContainerIDs (Initialize E s st).1 = busyContainerIDs st
  ∧ (∃ installs removals,
       journal (Initialize E s st).1 = journal st ++ installs ++ removals
       ∧ Forall (λ c, c = CallInstallPodFlows) (calls installs)
       ∧ Forall cleanup removals)
  ∧ match ListPods E ("spec.nodeName=" +:+ NodeName (nodeConfig s)) (world st) with
    | inl err =>
        Initialize E s st
        = (st, Some ("error during initial reconciliation for CNI server: "
                     +:+ "failed to list Pods running on Node " +:+ NodeName (nodeConfig s)
                     +:+ ": " +:+ err))
    | inr _ => (Initialize E s st).2 = None
    end.
Proof.
  unfold Initialize, reconcile.
  destruct (ListPods E _ _) as [err|pods].
  - cbn [fst snd]. split; [done|]. split; [|done].
    exists [], []. split; [by rewrite app_nil_r|]. split; constructor.
  - destruct (syncPods_footprint pods st ∅) as (Hbusy & installs & Hj & Hinst).
    destruct (foldl (syncPod E s) (st, ∅) pods) as [st1 desired]. cbn [fst] in Hbusy, Hj.
    destruct (cleanInterfaces_footprint desired (GetInterfaceIDs E (world st)) st1)
      as (Hbusy' & removals & Hj' & Hrem).
    cbn [fst snd]. split; [by rewrite Hbusy'|]. split; [|done].
    exists installs, removals. by rewrite Hj', Hj, <- app_assoc.
Qed.

(** X10. reconcile skips the Pods that use the host network: it leaves the
    node in the same state, and returns the same, as if the API server had
    not listed them.  Such a Pod gets no flows and desires no interface, so
    an interface the store holds under its name is removed. *)
Theorem hostNetwork_pods_are_skipped (pods : list Pod) (st : state W) :
  reconcile (listing pods E) s st
  = reconcile (listing (filter (λ pod, HostNetwork pod = false) pods) E) s st.
Proof.
  unfold reconcile. cbn [ListPods listing GetInterfaceIDs].
  change (syncPod (listing pods E) s) with (syncPod E s).
  change (syncPod (listing (filter (λ pod, HostNetwork pod = false) pods) E) s)
    with (syncPod E s).
  assert (Hskip : ∀ acc : state W * gset string,
            foldl (syncPod E s) acc pods
            = foldl (syncPod E s) acc (filter (λ pod, HostNetwork pod = false) pods)).
  { induction pods as [|pod pods IH]; [done|]. intros acc.
    cbn [foldl]. destruct (HostNetwork pod) eqn:Hhost.
    - rewrite filter_cons_False by (rewrite Hhost; done).
      rewrite <- IH. f_equal. unfold syncPod. destruct acc. by rewrite Hhost.
    - rewrite filter_cons_True by done. cbn [foldl]. apply IH. }
  rewrite <- Hskip. destruct (foldl (syncPod E s) (st, ∅) pods) as [st1 desired].
  reflexivity.
Qed.

End HandlerFacts.

(* --------------------------------------------------------------------- *)
(** ** The other reads of the OVS bridge client                           *)
(* --------------------------------------------------------------------- *)

Section OVSReadFacts.
Import OVSConfig OVSBridgeReads.

Variable GetIdListFromOVSDBSet : datum → option (list string).

Lemma foldl_insert_list_to_map (pairs : list (string * string)) :
  foldl (λ (ret : gmap string string) pair, <[pair.1 := pair.2]> ret) ∅ pairs
  = list_to_map (reverse pairs).
Proof.
  induction pairs as [|pair pairs IH] using rev_ind; [done|].
  by rewrite foldl_snoc, reverse_snoc, IH.
Qed.

(** X11. buildMapFromOVSDBMap keeps, for every key, the value of the last
    pair that has it: the map is the one built from the pairs taken last to
    first, a key is bound exactly when some pair has it, and a pair after
    which the key does not occur again decides its value.  A tagged array
    that is not a map gives the empty map. *)
Theorem buildMapFromOVSDBMap_last_pair_wins (pairs : list (string * string)) :
  buildMapFromOVSDBMap (DMap pairs) = list_to_map (reverse pairs)
  ∧ (∀ k v more, k ∉ more.*1 →
       buildMapFromOVSDBMap (DMap (pairs ++ (k, v) :: more)) !! k = Some v)
  ∧ (∀ k, is_Some (buildMapFromOVSDBMap (DMap pairs) !! k) ↔ k ∈ pairs.*1)
  ∧ (∀ elems, buildMapFromOVSDBMap (DSet elems) = ∅)
  ∧ (∀ u, buildMapFromOVSDBMap (DUUID u) = ∅).
Proof.
  unfold buildMapFromOVSDBMap. split; [apply foldl_insert_list_to_map|].
  split; [|split; [|done]].
  - intros k v more Hk.
    rewrite foldl_insert_list_to_map, reverse_app, reverse_cons, <- app_assoc.
    rewrite list_to_map_app, lookup_union_r.
    + cbn [app]. rewrite list_to_map_cons. apply lookup_insert_eq.
    + apply not_elem_of_list_to_map_1. by rewrite fmap_reverse, elem_of_reverse.
  - intros k. rewrite foldl_insert_list_to_map. split.
    + intros Hsome. destruct (decide (k ∈ pairs.*1)) as [Hin|Hnin]; [done|].
      assert (Hnone : (list_to_map (reverse pairs) : gmap string string) !! k = None).
      { apply not_elem_of_list_to_map_1. by rewrite fmap_reverse, elem_of_reverse. }
      rewrite Hnone in Hsome. by destruct Hsome.
    + intros Hin. apply not_eq_None_Some. intros Hnone.
      apply not_elem_of_list_to_map_2 in Hnone. apply Hnone.
      by rewrite fmap_reverse, elem_of_reverse.
Qed.

(** X12. A failed commit is reported by every read in the same way: the
    zero result, and an error that carries the message and the temporary
    flag of the commit unchanged; lookupByName leaves the bridge, and so its
    recorded uuid, as it was. *)
Theorem reads_report_the_commit_error (br : OVSBridge) (err : string) (temporary : bool) :
  (∀ tx, ovsdb br tx = CommitFailed err temporary) →
  lookupByName br = Some (br, (false, Some (NewTransactionError err temporary)))
  ∧ GetExternalIDs br = Some (None, Some (NewTransactionError err temporary))
  ∧ GetPortUUIDList GetIdListFromOVSDBSet br
    = Some (None, Some (NewTransactionError err temporary))
  ∧ GetPortList GetIdListFromOVSDBSet br
    = Some (None, Some (NewTransactionError err temporary)).
Proof.
  intros Hfail.
  unfold lookupByName, GetExternalIDs, GetPortUUIDList, GetPortList.
  by rewrite !Hfail.
Qed.

(** X13. The reads disagree on a bridge that is not in the database, that
    is when the select on the Bridge table by the bridge's name returns no
    row: lookupByName answers false without an error and leaves the bridge
    as it was, GetPortList answers the empty list without an error, and
    GetExternalIDs and GetPortUUIDList index the first row all the same and
    panic. *)
Theorem missing_bridge (br : OVSBridge) :
  (∀ columns more, ∃ rest,
     ovsdb br (Select "Bridge" columns [Cond "name" "==" (DString (name br))] :: more)
     = Committed ([] :: rest)) →
  lookupByName br = Some (br, (false, None))
  ∧ GetPortList GetIdListFromOVSDBSet br = Some (Some [], None)
  ∧ GetExternalIDs br = None
  ∧ GetPortUUIDList GetIdListFromOVSDBSet br = None.
Proof.
  intros Hmissing.
  unfold lookupByName, lookupByName_tx, GetPortList, GetPortList_tx,
    GetExternalIDs, GetExternalIDs_tx, GetPortUUIDList, GetPortUUIDList_tx.
  destruct (Hmissing ["_uuid"] []) as [rest1 ->].
  destruct (Hmissing ["external_ids"] []) as [rest2 ->].
  destruct (Hmissing ["ports"] []) as [rest3 ->].
  destruct (Hmissing ["ports"]
              [ Select "Port" ["_uuid"; "name"; "external_ids"; "interfaces"] [];
                Select "Interface" ["_uuid"; "name"; "ofport"] [] ]) as [rest4 ->].
  repeat split; reflexivity.
Qed.

Lemma assertString_Some (d : option datum) (s : string) :
  assertString d = Some s → d = Some (DString s).
Proof. destruct d as [[]|]; by intros [= ->]. Qed.

Lemma rowsByUUID_Some (rows : list row) : ∀ m,
  rowsByUUID rows = Some m →
  ∀ id r, m !! id = Some r → r ∈ rows ∧ uuidOf (r !! "_uuid") = Some id.
Proof.
  induction rows as [|r0 rows IH] using rev_ind; intros m.
  - intros [= <-] id r Hr. by rewrite lookup_empty in Hr.
  - unfold rowsByUUID. rewrite foldl_snoc. fold (rowsByUUID rows).
    destruct (rowsByUUID rows) as [m0|]; [|done]. cbn [mbind option_bind].
    destruct (uuidOf (r0 !! "_uuid")) as [id0|] eqn:Hid; [|done]. cbn [mbind option_bind].
    intros [= <-] id r Hr.
    apply lookup_insert_Some in Hr as [[<- <-]|[_ Hr]].
    + split; [|exact Hid]. apply elem_of_app. right. apply list_elem_of_here.
    + destruct (IH m0 eq_refl id r Hr) as [Hin Hu]. split; [|exact Hu].
      apply elem_of_app. by left.
Qed.

Lemma portOf_backed (ports interfaces : list row) (portMap ifMap : gmap string row)
    (portUUID : string) (pd : OVSPortData) :
  rowsByUUID ports = Some portMap →
  rowsByUUID interfaces = Some ifMap →
  portOf GetIdListFromOVSDBSet portMap ifMap portUUID = Some pd →
  UUID pd = portUUID ∧ backedBy GetIdListFromOVSDBSet ports interfaces pd.
Proof.
  intros Hports Hifs. unfold portOf. cbv zeta.
  destruct (portMap !! portUUID) as [port|] eqn:Hport;
    cbv beta iota delta [default from_option id];
    [|by rewrite lookup_empty].
  destruct (assertArray (port !! "interfaces")) as [ifaces|] eqn:Hifaces; [|done].
  cbn [mbind option_bind].
  destruct (GetIdListFromOVSDBSet ifaces) as [ifUUIDList|] eqn:Hlist; [|done].
  cbn [mbind option_bind].
  destruct (ifUUIDList !! 0%nat) as [ifUUID|] eqn:Hfirst; [|done].
  cbn [mbind option_bind].
  destruct (ifMap !! ifUUID) as [intf|] eqn:Hintf; [|by rewrite lookup_empty].
  destruct (assertString (intf !! "name")) as [ifName|] eqn:Hname; [|done].
  cbn [mbind option_bind]. unfold buildPortDataCommon.
  destruct (assertString (port !! "name")) as [portName|] eqn:Hpname; [|done].
  cbn [mbind option_bind].
  destruct (assertArray (port !! "external_ids")) as [extIDs|] eqn:Hext; [|done].
  cbn [mbind option_bind]. intros [= <-]. cbn [UUID]. split; [done|].
  destruct (rowsByUUID_Some _ _ Hports _ _ Hport) as [Hin Hu].
  destruct (rowsByUUID_Some _ _ Hifs _ _ Hintf) as [Hin' Hu'].
  exists port, intf, ifaces, ifUUIDList, ifUUID, extIDs.
  cbn [UUID Name IFName ExternalIDs OFPort].
  repeat (split; [done || by apply assertString_Some|]).
  by destruct (intf !! "ofport") as [[]|].
Qed.

(** X14. What GetPortList returns when it returns a list.  The list mirrors
    the ports column of the bridge's row: it has one entry for each uuid in
    it, in the same order and under that uuid, so a Port row of another
    bridge is not reported.  Each entry is read off the Port row that has
    its uuid and off the Interface row of the first interface of that port:
    the names of the port and of the interface, the external ids of the
    port, and the interface's ofport, 0 when it is not a number yet.  When
    the bridge's row is missing the list is empty. *)
Theorem GetPortList_lists_the_bridge_ports (br : OVSBridge) (portList : list OVSPortData) :
  GetPortList GetIdListFromOVSDBSet br = Some (Some portList, None) →
  ∃ res bridges,
    ovsdb br (GetPortList_tx br) = Committed res
    ∧ res !! 0%nat = Some bridges
    ∧ match bridges with
      | [] => portList = []
      | bridge :: _ =>
          ∃ ports interfaces portSet portUUIDList,
            res !! 1%nat = Some ports
            ∧ res !! 2%nat = Some interfaces
            ∧ assertArray (bridge !! "ports") = Some portSet
            ∧ GetIdListFromOVSDBSet portSet = Some portUUIDList
            ∧ Forall2 (λ id pd, UUID pd = id
                                ∧ backedBy GetIdListFromOVSDBSet ports interfaces pd)
                portUUIDList portList
      end.
Proof.
  unfold GetPortList.
  destruct (ovsdb br (GetPortList_tx br)) as [err temporary|res]; [done|].
  destruct (res !! 0%nat) as [bridges|] eqn:Hbridges; [|done]. cbn [mbind option_bind].
  destruct bridges as [|bridge bridges].
  { intros [= <-]. by exists res, []. }
  rewrite decide_False by done. cbn [lookup list_lookup mbind option_bind].
  destruct (assertArray (bridge !! "ports")) as [portSet|] eqn:Hset; [|done].
  cbn [mbind option_bind].
  destruct (GetIdListFromOVSDBSet portSet) as [portUUIDList|] eqn:Hlist; [|done].
  cbn [mbind option_bind].
  destruct (res !! 1%nat) as [ports|] eqn:Hports; [|done]. cbn [mbind option_bind].
  destruct (rowsByUUID ports) as [portMap|] eqn:HportMap; [|done]. cbn [mbind option_bind].
  destruct (res !! 2%nat) as [interfaces|] eqn:Hifs; [|done]. cbn [mbind option_bind].
  destruct (rowsByUUID interfaces) as [ifMap|] eqn:HifMap; [|done]. cbn [mbind option_bind].
  destruct (mapM _ portUUIDList) as [built|] eqn:Hbuilt; [|done]. cbn [mbind option_bind].
  intros [= <-]. exists res, (bridge :: bridges). split; [done|]. split; [done|].
  exists ports, interfaces, portSet, portUUIDList. repeat (split; [done|]).
  apply mapM_Some_1 in Hbuilt. eapply Forall2_impl; [exact Hbuilt|].
  intros id pd Hpd. by apply (portOf_backed ports interfaces portMap ifMap).
Qed.

End OVSReadFacts.

(* --------------------------------------------------------------------- *)
(** ** The supported CNI versions                                         *)
(* --------------------------------------------------------------------- *)

Section VersionFacts.
Import Server ServerExtras.

Lemma Split_without_separator (sep : Ascii.ascii) (v : string) :
  contains sep v = false → Split sep v = [v].
Proof.
  induction v as [|c v IH]; [done|]. cbn [contains Split].
  intros [Hc Hv]%orb_false_iff. apply bool_decide_eq_false in Hc.
  rewrite decide_False by done. by rewrite IH.
Qed.

Lemma Split_append_separator (sep : Ascii.ascii) (v w : string) :
  contains sep v = false → Split sep (v +:+ String sep w) = v :: Split sep w.
Proof.
  induction v as [|c v IH].
  - intros _. change ("" +:+ String sep w) with (String sep w).
    cbn [Split]. by rewrite decide_True.
  - cbn [contains]. intros [Hc Hv]%orb_false_iff. apply bool_decide_eq_false in Hc.
    change (String c v +:+ String sep w) with (String c (v +:+ String sep w)).
    cbn [Split]. rewrite decide_False by done. by rewrite IH.
Qed.

Lemma Split_concat (vs : list string) :
  Forall (λ v, contains ","%char v = false) vs →
  Split ","%char (String.concat "," vs) = match vs with [] => [""] | _ => vs end.
Proof.
  induction vs as [|v vs IH]; [done|].
  intros [Hv Hvs]%Forall_cons. destruct vs as [|v' vs].
  - by apply Split_without_separator.
  - change (String.concat "," (v :: v' :: vs))
      with (v +:+ String ","%char (String.concat "," (v' :: vs))).
    rewrite Split_append_separator by done. by rewrite IH.
Qed.

Lemma foldl_union_list_to_set (f : string → string) (l : list string) : ∀ init : gset string,
  foldl (λ versionSet ver, {[f ver]} ∪ versionSet) init l = list_to_set (f <$> l) ∪ init.
Proof.
  induction l as [|x l IH]; intros init; cbn [foldl fmap list_fmap list_to_set].
  - symmetry. apply (left_id_L ∅ (∪)).
  - rewrite IH. apply set_eq. intros y. rewrite !elem_of_union. tauto.
Qed.

(** X15. buildVersionSet undoes the joining of versions with commas: of a
    string made of versions that hold no comma, put together with commas in
    between, it gives the set of these versions, each with the blanks at
    its two ends cut off; order and repetitions do not matter.  The string
    made of no version at all is the empty string, and for it the set is
    not empty: it holds the empty version. *)
Theorem buildVersionSet_of_joined (vs : list string) :
  Forall (λ v, contains ","%char v = false) vs →
  buildVersionSet (String.concat "," vs)
  = match vs with
    | [] => {[""]}
    | _ => list_to_set (Trim " "%char <$> vs)
    end.
Proof.
  intros Hvs. unfold buildVersionSet.
  rewrite (Split_concat vs Hvs), foldl_union_list_to_set.
  destruct vs as [|v vs]; [|apply (right_id_L ∅ (∪))].
  change (Trim " "%char <$> [""]) with [""]. cbn [list_to_set].
  by rewrite !(right_id_L ∅ (∪)).
Qed.

Example New_supports_the_versions_of_init
    (AntreaCNIVersion cniSocket hostProcPathPrefix : string) (defaultMTU : Z)
    (nodeConfig : NodeConfig) :
  supportedCNIVersions (New AntreaCNIVersion cniSocket hostProcPathPrefix defaultMTU nodeConfig)
  = supportedCNIVersionSet.
Proof.
  cbn [New supportedCNIVersions].
  apply (bool_decide_unpack _). vm_compute. exact I.
Qed.

Lemma buildVersionSet_of_joined_witness :
  Forall (λ v, contains ","%char v = false) ["0.1.0"; "0.2.0"; "0.3.0"; "0.3.1"; "0.4.0"]
  ∧ buildVersionSet (String.concat "," ["0.1.0"; "0.2.0"; "0.3.0"; "0.3.1"; "0.4.0"])
    = list_to_set (Trim " "%char <$> ["0.1.0"; "0.2.0"; "0.3.0"; "0.3.1"; "0.4.0"]).
Proof.
  assert (H1 : Forall (λ v, contains ","%char v = false)
                 ["0.1.0"; "0.2.0"; "0.3.0"; "0.3.1"; "0.4.0"])
    by (repeat constructor).
  split; [exact H1|]. exact (buildVersionSet_of_joined _ H1).
Defined.

End VersionFacts.

(* --------------------------------------------------------------------- *)
(** ** The properties above, on the node of the server tests and on        *)
(** ** sample databases                                                    *)
(* --------------------------------------------------------------------- *)

Section Witnesses.
Import OVSConfig OVSBridgeReads Net CNI Server ServerExtras Node.

(** On a node where the flow installation fails, the attempt of an ADD ends
    with the container free and with the address, the port and the store
    entry in place but no flows: neither all four nor none. *)
Example failed_add_leaves_partial_state :
  match CmdAdd_locked collaborators server (request "sent") flowsFail with
  | Some (mid, (_, pending)) =>
      pending = Some (request "rewritten")
      ∧ busyContainerIDs mid = ∅
      ∧ "dummy-0" ∈ allocations (world mid)
      ∧ "port-test-1.t1" ∈ ports (world mid)
      ∧ is_Some (store (world mid) !! "test-1.t1")
      ∧ ("test-1.t1" ∉ flows (world mid))
  | None => False
  end.
Proof.
  destruct (CmdAdd_locked collaborators server (request "sent") flowsFail)
    as [[mid [response pending]]|] eqn:Hadd; [|by vm_compute in Hadd].
  vm_compute in Hadd. injection Hadd as <- <- <-.
  split; [reflexivity|].
  repeat split; apply (bool_decide_unpack _); vm_compute; exact I.
Qed.

(** C5, as stated, fails twice.  Requests do not complete in their order of
    arrival: with [overtaking] three requests for "c" arrive in the order
    1, 2, 3 and complete in the order 1, 3, 2.  And a request can observe
    another's partial state: on a node where the flow installation fails,
    an ADD for "dummy-0" unlocks the container after its attempt, with the
    rollback still to come; a DEL for "dummy-0" that runs now gets the
    container and calls the IPAM delete and removeInterfaces on what the
    attempt has left. *)
Lemma interleaving_counterexample :
  ¬ Arbitrator.completeInArrivalOrder ∧ ¬ operationsAreAtomic.
Proof.
  split; [exact overtaking_breaks_arrival_order|].
  intros Hclaim.
  destruct (CmdAdd_locked collaborators server (request "sent") flowsFail)
    as [[mid [response pending]]|] eqn:Hadd; [|by vm_compute in Hadd].
  pose proof Hadd as Hmid. vm_compute in Hmid. injection Hmid as <- <- <-.
  specialize (Hclaim node collaborators server (request "sent") (request "sent") _ _ _ _
                Hadd eq_refl (CmdDel collaborators server)).
  assert (Hin : CmdDel collaborators server
                ∈ [CmdAdd collaborators server; CmdDel collaborators server;
                   CmdCheck collaborators server])
    by (apply list_elem_of_further, list_elem_of_here).
  specialize (Hclaim Hin). vm_compute in Hclaim. discriminate Hclaim.
Qed.

Lemma rewritten_request_loads_the_same_witness :
  json_Unmarshal collaborators (NetworkConfiguration (request "sent")) = Some sentConfig
  ∧ LoadArgs collaborators (Args (request "sent")) = Some (k8sArgs_ sentCniConfig)
  ∧ ∃ cniConfig,
      loadNetworkConfig collaborators server (request "sent") = Some cniConfig
      ∧ loadNetworkConfig collaborators server (cniCmdArgs cniConfig) = Some cniConfig.
Proof.
  assert (H1 : json_Unmarshal collaborators (NetworkConfiguration (request "sent"))
               = Some sentConfig) by (vm_compute; reflexivity).
  assert (H2 : LoadArgs collaborators (Args (request "sent")) = Some (k8sArgs_ sentCniConfig))
    by (vm_compute; reflexivity).
  assert (H3 : let rewritten :=
                 updateLocalIPAMSubnet collaborators server
                   {| networkConfig := sentConfig; cniCmdArgs := request "sent";
                      k8sArgs_ := k8sArgs_ sentCniConfig |} in
               json_Unmarshal collaborators (json_Marshal collaborators (networkConfig rewritten))
               = Some (networkConfig rewritten)) by (vm_compute; reflexivity).
  split; [exact H1|]. split; [exact H2|].
  destruct (rewritten_request_loads_the_same collaborators server (request "sent") sentConfig
              (k8sArgs_ sentCniConfig) H1 H2 H3) as (cniConfig & Hload & _ & _ & Hagain & _).
  exists cniConfig. split; [exact Hload|exact Hagain].
Defined.

Lemma reads_report_the_commit_error_witness :
  (∀ tx, ovsdb waitTimesOut tx = CommitFailed "timed out" true)
  ∧ GetPortList idListOfSet waitTimesOut
    = Some (None, Some (NewTransactionError "timed out" true)).
Proof.
  assert (H1 : ∀ tx, ovsdb waitTimesOut tx = CommitFailed "timed out" true)
    by (intros tx; reflexivity).
  split; [exact H1|].
  exact (proj2 (proj2 (proj2 (reads_report_the_commit_error idListOfSet waitTimesOut
                                "timed out" true H1)))).
Defined.

Lemma missing_bridge_witness :
  (∀ columns more, ∃ rest,
     ovsdb noBridge
       (Select "Bridge" columns [Cond "name" "==" (DString (name noBridge))] :: more)
     = Committed ([] :: rest))
  ∧ GetPortList idListOfSet noBridge = Some (Some [], None)
  ∧ GetPortUUIDList idListOfSet noBridge = None.
Proof.
  assert (H1 : ∀ columns more, ∃ rest,
            ovsdb noBridge
              (Select "Bridge" columns [Cond "name" "==" (DString (name noBridge))] :: more)
            = Committed ([] :: rest))
    by (intros columns more; exists [ []; [] ]; reflexivity).
  split; [exact H1|].
  destruct (missing_bridge idListOfSet noBridge H1) as (_ & Hlist & _ & Huuids).
  split; [exact Hlist|exact Huuids].
Defined.

Lemma GetPortList_lists_the_bridge_ports_witness :
  GetPortList idListOfSet oneBridge = Some (Some onePort, None)
  ∧ ∃ res bridges,
      ovsdb oneBridge (GetPortList_tx oneBridge) = Committed res
      ∧ res !! 0%nat = Some bridges.
Proof.
  assert (H1 : GetPortList idListOfSet oneBridge = Some (Some onePort, None))
    by (vm_compute; reflexivity).
  split; [exact H1|].
  destruct (GetPortList_lists_the_bridge_ports idListOfSet oneBridge onePort H1)
    as (res & bridges & Hres & Hbridges & _).
  exists res, bridges. split; [exact Hres|exact Hbridges].
Defined.

End Witnesses.
